(** * TDMA link simulator: wire frame codec, slot clock, slot scheduler
      and the two nodes

    A shallow embedding of [pkg/protocol/tdma_frame.go], of the scheduler
    package ([TDMAScheduler]), of [ReceiveFrame] and [SendFrame] of the
    network package and of the frame handling of the satellite and ground
    station programs into Rocq, followed by the properties of the design
    document that were checked against it and by further properties of the
    code.

    Conventions.
    - Go's fixed-width integers are [Z] with the wrap-around written out
      ([Go.uint16], [Go.uint32], [Go.int64]); [int] is taken to be 64 bits wide.
    - [[]byte], [[8]byte] and [[32]byte] are [list byte]; the array lengths are
      part of [frame_typed]; a nil slice and an empty slice are both the
      empty list.
    - A run-time panic (index out of range, nil dereference, division by zero)
      is an outcome of its own, never confused with a returned [error].
    - [time.Time] is a number of nanoseconds, [time.Duration] a 64-bit number
      of nanoseconds; the clock readings taken inside one call (all under the
      scheduler mutex) are one instant [now], passed as an argument.
    - What a connection delivers to a read, and whether a write fails, are
      arguments of the functions that read and write; log lines and printed
      text are left out. *)

From Stdlib Require Import ZArith List Lia Bool.
From Stdlib Require Import Strings.String Strings.Byte.
From coqutil Require Import Byte Z.bitblast.
From stdpp Require Import gmap strings list.
Local Open Scope Z_scope.

(* ===================================================================== *)
(** * Go primitives *)
(* ===================================================================== *)

Module Go.

Definition uint16 (z : Z) : Z := z mod 2 ^ 16.
Definition uint32 (z : Z) : Z := z mod 2 ^ 32.

Definition minInt64 : Z := - 2 ^ 63.
Definition maxInt64 : Z := 2 ^ 63 - 1.

(** Two's complement wrap-around of [int], [int64] and [time.Duration]. *)
Definition int64 (z : Z) : Z := (z + 2 ^ 63) mod 2 ^ 64 - 2 ^ 63.

(** [a / b] and [a % b] on signed integers truncate toward zero and panic
    on a zero divisor; [None] is that panic. *)
Definition quo (a b : Z) : option Z :=
  if b =? 0 then None else Some (int64 (Z.quot a b)).

Definition rem (a b : Z) : option Z :=
  if b =? 0 then None else Some (Z.rem a b).

Definition len {A : Type} (l : list A) : Z := Z.of_nat (length l).

(** [t.Sub(u)]: the difference, saturated to the range of a Duration. *)
Definition Sub (t u : Z) : Z :=
  if t - u <? minInt64 then minInt64
  else if maxInt64 <? t - u then maxInt64
  else t - u.

(** Outcome of a call that returns [(value, error)] and may panic. *)
Inductive outcome (E A : Type) : Type :=
| Ok (a : A)
| Err (e : E)
| Panic.
Arguments Ok {E A} a.
Arguments Err {E A} e.
Arguments Panic {E A}.

Definition bind {E A B : Type} (m : outcome E A) (k : A -> outcome E B)
  : outcome E B :=
  match m with
  | Ok a => k a
  | Err e => Err e
  | Panic => Panic
  end.

(** The built-in [copy(dst, src)]: overwrites the first
    [min(len dst, len src)] elements of [dst]. *)
Definition copy (dst src : list byte) : list byte :=
  firstn (length dst) src ++ skipn (length src) dst.

(** [b[off:]] *)
Definition sliceFrom {E : Type} (b : list byte) (off : Z) : outcome E (list byte) :=
  if (off <? 0) || (len b <? off) then Panic
  else Ok (skipn (Z.to_nat off) b).

(** [b[lo:hi]] *)
Definition slice {E : Type} (b : list byte) (lo hi : Z) : outcome E (list byte) :=
  if (lo <? 0) || (hi <? lo) || (len b <? hi) then Panic
  else Ok (firstn (Z.to_nat (hi - lo)) (skipn (Z.to_nat lo) b)).

(** A write through the view [buf[off:]]: [f] updates the view in place and
    the bytes before [off] are untouched. *)
Definition onTail {E : Type} (buf : list byte) (off : Z)
    (f : list byte -> outcome E (list byte)) : outcome E (list byte) :=
  bind (sliceFrom buf off) (fun view =>
  bind (f view) (fun view' =>
  Ok (firstn (Z.to_nat off) buf ++ view'))).

(** [encoding/binary.BigEndian] *)
Definition be16 (v : Z) : list byte :=
  [byte.of_Z (Z.shiftr v 8); byte.of_Z v].

Definition be32 (v : Z) : list byte :=
  [byte.of_Z (Z.shiftr v 24); byte.of_Z (Z.shiftr v 16);
   byte.of_Z (Z.shiftr v 8); byte.of_Z v].

Definition PutUint16 {E : Type} (b : list byte) (v : Z) : outcome E (list byte) :=
  if len b <? 2 then Panic else Ok (copy b (be16 v)).

Definition PutUint32 {E : Type} (b : list byte) (v : Z) : outcome E (list byte) :=
  if len b <? 4 then Panic else Ok (copy b (be32 v)).

Definition at_ (b : list byte) (i : nat) : Z := byte.unsigned (nth i b x00).

Definition u16_of (b : list byte) : Z :=
  Z.lor (at_ b 1) (Z.shiftl (at_ b 0) 8).

Definition u32_of (b : list byte) : Z :=
  Z.lor (Z.lor (Z.lor (at_ b 3) (Z.shiftl (at_ b 2) 8))
               (Z.shiftl (at_ b 1) 16))
        (Z.shiftl (at_ b 0) 24).

Definition Uint16 {E : Type} (b : list byte) : outcome E Z :=
  if len b <? 2 then Panic else Ok (u16_of b).

Definition Uint32 {E : Type} (b : list byte) : outcome E Z :=
  if len b <? 4 then Panic else Ok (u32_of b).

(** [==] on byte arrays *)
Fixpoint bytes_eqb (a b : list byte) : bool :=
  match a, b with
  | [], [] => true
  | x :: a', y :: b' => Byte.eqb x y && bytes_eqb a' b'
  | _, _ => false
  end.

(** [strings.TrimRight(s, cutset)] for a cutset of one ASCII character [c]
    (the library's byte-wise path): the trailing bytes equal to [c] are
    dropped. *)
Fixpoint trimRightByte (c : byte) (s : list byte) : list byte :=
  match s with
  | [] => []
  | b :: s' =>
      match trimRightByte c s' with
      | [] => if Byte.eqb b c then [] else [b]
      | t => b :: t
      end
  end.

(** [time.NewTicker(d)]: it panics unless the duration [d] is positive;
    [None] is that panic. *)
Definition NewTicker (d : Z) : option unit :=
  if d <=? 0 then None else Some tt.

(** [conn.Read(b)] returning no error, for a buffer [b] of [size] zero
    bytes, when the connection delivers the bytes [delivered] (at most
    [size] of them fit): the buffer afterwards and the count returned. *)
Definition Read (size : nat) (delivered : list byte) : list byte * Z :=
  let got := firstn size delivered in
  (copy (repeat x00 size) got, len got).

(** [strings.HasPrefix], [strings.TrimPrefix] and [strings.Contains], on the
    bytes of the strings. *)
Fixpoint HasPrefix (s prefix : list byte) : bool :=
  match prefix, s with
  | [], _ => true
  | p :: prefix', c :: s' => Byte.eqb c p && HasPrefix s' prefix'
  | _ :: _, [] => false
  end.

Definition TrimPrefix (s prefix : list byte) : list byte :=
  if HasPrefix s prefix then skipn (length prefix) s else s.

Fixpoint Contains (s substr : list byte) : bool :=
  HasPrefix s substr
  || match s with
     | [] => false
     | _ :: s' => Contains s' substr
     end.

(** The verb [%d] of [fmt.Sprintf] on an [int]: the digits are produced
    from the last one, the loop runs while the number has more than one
    digit (at most 19 times for a 64-bit number), and the sign comes
    first. *)
Fixpoint formatUint (fuel : nat) (u : Z) (acc : list byte) : list byte :=
  match fuel with
  | O => acc
  | S fuel' =>
      if u <? 10 then byte.of_Z (48 + u) :: acc
      else formatUint fuel' (u / 10) (byte.of_Z (48 + (u - u / 10 * 10)) :: acc)
  end.

Definition formatInt (v : Z) : list byte :=
  if v <? 0 then x2d :: formatUint 20 (- v) [] else formatUint 20 v [].

(** The two errors of package [strconv]. *)
Inductive NumError : Set :=
| ErrSyntax
| ErrRange.

Definition maxUint64 : Z := 2 ^ 64 - 1.

(** [ch -= '0'; if ch > 9] on a byte. *)
Definition digitOf (c : byte) : option Z :=
  let d := (byte.unsigned c - 48) mod 2 ^ 8 in
  if d >? 9 then None else Some d.

(** The loop of [strconv.ParseUint] in base 10 at 64 bits. *)
Fixpoint parseUintLoop (n : Z) (s : list byte) : Z * option NumError :=
  match s with
  | [] => (n, None)
  | c :: s' =>
      match digitOf c with
      | None => (0, Some ErrSyntax)
      | Some d =>
          if n >=? maxUint64 / 10 + 1 then (maxUint64, Some ErrRange)
          else
            let n1 := n * 10 + d in
            if n1 >? maxUint64 then (maxUint64, Some ErrRange)
            else parseUintLoop n1 s'
      end
  end.

Definition ParseUint (s : list byte) : Z * option NumError :=
  match s with
  | [] => (0, Some ErrSyntax)
  | _ => parseUintLoop 0 s
  end.

(** [strconv.Atoi]: an optional sign, then decimal digits; the value
    returned with a range error is the nearest bound. *)
Definition Atoi (s : list byte) : Z * option NumError :=
  match s with
  | [] => (0, Some ErrSyntax)
  | c :: rest =>
      let neg := Byte.eqb c x2d in
      let body := if Byte.eqb c x2b || Byte.eqb c x2d then rest else s in
      match ParseUint body with
      | (_, Some ErrSyntax) => (0, Some ErrSyntax)
      | (un, _) =>
          if negb neg && (un >=? 2 ^ 63) then (2 ^ 63 - 1, Some ErrRange)
          else if neg && (un >? 2 ^ 63) then (- 2 ^ 63, Some ErrRange)
          else (if neg then - un else un, None)
      end
  end.

End Go.

Declare Scope go_scope.
Delimit Scope go_scope with go.
Notation "'do' x <- m ; k" := (Go.bind m (fun x => k))
  (at level 10, x name, m at level 100, k at level 200) : go_scope.

(* ===================================================================== *)
(** * package protocol *)
(* ===================================================================== *)

Module Protocol.
Import Go.
Local Open Scope go_scope.

(** The errors built with [fmt.Errorf] in this package, one constructor per
    message text. *)
Inductive FrameError : Set :=
| ErrTooShort
| ErrLengthMismatch
| ErrInvalidHeader
| ErrInvalidFooter
| ErrChecksum.

Definition errorText (e : FrameError) : string :=
  match e with
  | ErrTooShort => "数据长度不足"
  | ErrLengthMismatch => "数据长度不匹配"
  | ErrInvalidHeader => "无效的帧头"
  | ErrInvalidFooter => "无效的帧尾"
  | ErrChecksum => "CRC校验失败"
  end.

Record TDMAFrame : Type := mkFrame {
  Header : list byte;     (* [8]byte *)
  SlotID : Z;             (* uint32 *)
  NodeID : list byte;     (* [32]byte *)
  Length : Z;             (* uint32 *)
  FragmentID : Z;         (* uint32 *)
  TotalFrags : Z;         (* uint16 *)
  FragIndex : Z;          (* uint16 *)
  Flags : Z;              (* uint16 *)
  Data : list byte;
  CRC : Z;                (* uint32 *)
  Footer : list byte      (* [8]byte *)
}.

(** What the Go types of the fields say. *)
Record frame_typed (f : TDMAFrame) : Prop := {
  ty_Header : length (Header f) = 8%nat;
  ty_SlotID : 0 <= SlotID f < 2 ^ 32;
  ty_NodeID : length (NodeID f) = 32%nat;
  ty_Length : 0 <= Length f < 2 ^ 32;
  ty_FragmentID : 0 <= FragmentID f < 2 ^ 32;
  ty_TotalFrags : 0 <= TotalFrags f < 2 ^ 16;
  ty_FragIndex : 0 <= FragIndex f < 2 ^ 16;
  ty_Flags : 0 <= Flags f < 2 ^ 16;
  ty_CRC : 0 <= CRC f < 2 ^ 32;
  ty_Footer : length (Footer f) = 8%nat
}.

Definition FLAG_FRAGMENT : Z := 0x0001.
Definition FLAG_FIRST_FRAG : Z := 0x0002.
Definition FLAG_LAST_FRAG : Z := 0x0004.
Definition FLAG_NEED_ACK : Z := 0x0008.

Definition FRAME_HEADER : list byte := [xaa; x55; xaa; x55; xaa; x55; xaa; x55].
Definition FRAME_FOOTER : list byte := [x55; xaa; x55; xaa; x55; xaa; x55; xaa].

(** [time.Date(2024, 1, 1, 0, 0, 0, 0, time.UTC)], in nanoseconds since the
    Unix epoch. *)
Definition TDMA_EPOCH : Z := 1704067200 * 1000000000.

(** [GetGlobalSlotID]; [now] is the reading of [time.Now()]. The function
    returns an [int] and no error; [None] is a division-by-zero panic. *)
Definition GetGlobalSlotID (now : Z) (slotDuration totalSlots : Z) : option Z :=
  let elapsed := Sub now TDMA_EPOCH in
  match quo elapsed slotDuration with
  | None => None
  | Some q => rem q totalSlots
  end.

Definition crcStep (crc v : Z) : Z := Z.lxor (uint32 (Z.shiftl crc 1)) v.

Definition crcBytes (crc : Z) (bs : list byte) : Z :=
  fold_left (fun c b => crcStep c (byte.unsigned b)) bs crc.

Definition calculateCRC (frame : TDMAFrame) : Z :=
  let crc := 0xFFFFFFFF in
  let crc := crcBytes crc (Header frame) in
  let crc := crcStep crc (SlotID frame) in
  let crc := crcStep crc (TotalFrags frame) in
  let crc := crcStep crc (FragIndex frame) in
  let crc := crcStep crc (Flags frame) in
  let crc := crcBytes crc (Data frame) in
  crc.

Definition withCRC (f : TDMAFrame) (crc : Z) : TDMAFrame :=
  mkFrame (Header f) (SlotID f) (NodeID f) (Length f) (FragmentID f)
          (TotalFrags f) (FragIndex f) (Flags f) (Data f) crc (Footer f).

Definition NewTDMAFrame (slotID : Z) (nodeID : string) (data : list byte)
  : TDMAFrame :=
  let frame :=
    mkFrame FRAME_HEADER slotID
            (copy (repeat x00 32) (list_byte_of_string nodeID))
            (uint32 (len data))
            0 1 0 0 data 0 FRAME_FOOTER in
  withCRC frame (calculateCRC frame).

Definition NewFragmentTDMAFrame (slotID : Z) (nodeID : string)
    (fragmentID totalFrags fragIndex : Z) (data : list byte)
    (isFirst isLast : bool) : TDMAFrame :=
  let flags := FLAG_FRAGMENT in
  let flags := if isFirst then Z.lor flags FLAG_FIRST_FRAG else flags in
  let flags := if isLast then Z.lor flags FLAG_LAST_FRAG else flags in
  let frame :=
    mkFrame FRAME_HEADER slotID
            (copy (repeat x00 32) (list_byte_of_string nodeID))
            (uint32 (len data))
            fragmentID totalFrags fragIndex flags data 0 FRAME_FOOTER in
  withCRC frame (calculateCRC frame).

(** [Serialize]: the buffer is allocated zeroed and filled field by field
    at a running offset. The returned error is always nil. *)
Definition Serialize (f : TDMAFrame) : outcome FrameError (list byte) :=
  let totalLen := 8 + 4 + 32 + 4 + 4 + 2 + 2 + 2 + len (Data f) + 4 + 8 in
  let buf := repeat x00 (Z.to_nat totalLen) in
  let offset := 0 in
  do buf <- onTail buf offset (fun v => Ok (copy v (Header f)));
  let offset := offset + 8 in
  do buf <- onTail buf offset (fun v => PutUint32 v (SlotID f));
  let offset := offset + 4 in
  do buf <- onTail buf offset (fun v => Ok (copy v (NodeID f)));
  let offset := offset + 32 in
  do buf <- onTail buf offset (fun v => PutUint32 v (Length f));
  let offset := offset + 4 in
  do buf <- onTail buf offset (fun v => PutUint32 v (FragmentID f));
  let offset := offset + 4 in
  do buf <- onTail buf offset (fun v => PutUint16 v (TotalFrags f));
  let offset := offset + 2 in
  do buf <- onTail buf offset (fun v => PutUint16 v (FragIndex f));
  let offset := offset + 2 in
  do buf <- onTail buf offset (fun v => PutUint16 v (Flags f));
  let offset := offset + 2 in
  do buf <- onTail buf offset (fun v => Ok (copy v (Data f)));
  let offset := offset + len (Data f) in
  do buf <- onTail buf offset (fun v => PutUint32 v (CRC f));
  let offset := offset + 4 in
  do buf <- onTail buf offset (fun v => Ok (copy v (Footer f)));
  Ok buf.

(** [DeserializeTDMAFrame] *)
Definition DeserializeTDMAFrame (data : list byte) : outcome FrameError TDMAFrame :=
  if len data <? 60 then Err ErrTooShort else
  let offset := 0 in
  do s <- slice data offset (offset + 8);
  let header := copy (repeat x00 8) s in
  let offset := offset + 8 in
  do s <- sliceFrom data offset;
  do slotID <- Uint32 s;
  let offset := offset + 4 in
  do s <- slice data offset (offset + 32);
  let nodeID := copy (repeat x00 32) s in
  let offset := offset + 32 in
  do s <- sliceFrom data offset;
  do length <- Uint32 s;
  let offset := offset + 4 in
  do s <- sliceFrom data offset;
  do fragmentID <- Uint32 s;
  let offset := offset + 4 in
  do s <- sliceFrom data offset;
  do totalFrags <- Uint16 s;
  let offset := offset + 2 in
  do s <- sliceFrom data offset;
  do fragIndex <- Uint16 s;
  let offset := offset + 2 in
  do s <- sliceFrom data offset;
  do flags <- Uint16 s;
  let offset := offset + 2 in
  let dataLen := length in
  if len data <? offset + dataLen + 12 then Err ErrLengthMismatch else
  do s <- slice data offset (offset + dataLen);
  let payload := copy (repeat x00 (Z.to_nat dataLen)) s in
  let offset := offset + dataLen in
  do s <- sliceFrom data offset;
  do crc <- Uint32 s;
  let offset := offset + 4 in
  do s <- slice data offset (offset + 8);
  let footer := copy (repeat x00 8) s in
  Ok (mkFrame header slotID nodeID length fragmentID totalFrags fragIndex
              flags payload crc footer).

(** [Validate]; [None] is the nil error. *)
Definition Validate (f : TDMAFrame) : option FrameError :=
  if negb (bytes_eqb (Header f) FRAME_HEADER) then Some ErrInvalidHeader
  else if negb (bytes_eqb (Footer f) FRAME_FOOTER) then Some ErrInvalidFooter
  else
    let calculatedCRC := calculateCRC f in
    if negb (calculatedCRC =? CRC f) then Some ErrChecksum
    else if negb (uint32 (len (Data f)) =? Length f) then Some ErrLengthMismatch
    else None.




(** [GetNodeID]: the node id field without its zero padding. *)
Definition GetNodeID (f : TDMAFrame) : string :=
  string_of_list_byte (trimRightByte x00 (NodeID f)).

End Protocol.

(* ===================================================================== *)
(** * package scheduler *)
(* ===================================================================== *)

Module Scheduler.
Import Go.

(** The errors built with [fmt.Errorf] in this package. *)
Inductive SchedError : Set :=
| ErrNoSlot
| ErrNoConsecutive
| ErrInvalidSlot.

Definition errorText (e : SchedError) : string :=
  match e with
  | ErrNoSlot => "没有可用的时隙"
  | ErrNoConsecutive => "没有足够的连续时隙"
  | ErrInvalidSlot => "无效的时隙ID"
  end.

Record SlotStatus : Type := mkSlot {
  SlotID : Z;
  NodeID : string;
  Status : string;          (* "FREE", "ASSIGNED", "BUSY" *)
  StartTime : Z;
  Duration : Z;
  FragmentID : Z
}.

(** The table is a Go map from slot number to a slot record; reading a key
    that is absent yields a nil pointer, and using it panics. *)
Record TDMAScheduler : Type := mkSched {
  slots : gmap Z SlotStatus;
  totalSlots : Z;
  slotDuration : Z;
  currentSlot : Z;
  startTime : Z
}.

(** The zero [time.Time] (1 January of year 1, UTC). *)
Definition zeroTime : Z := -62135596800 * 1000000000.

Definition withSlots (s : TDMAScheduler) (m : gmap Z SlotStatus) : TDMAScheduler :=
  mkSched m (totalSlots s) (slotDuration s) (currentSlot s) (startTime s).

Definition withCurrent (s : TDMAScheduler) (c : Z) : TDMAScheduler :=
  mkSched (slots s) (totalSlots s) (slotDuration s) c (startTime s).

(** [NodeID = nodeID; Status = "ASSIGNED"; StartTime = time.Now()] *)
Definition assign (nodeID : string) (now : Z) (st : SlotStatus) : SlotStatus :=
  mkSlot (SlotID st) nodeID "ASSIGNED" now (Duration st) (FragmentID st).

(** [Status = "FREE"; NodeID = ""] *)
Definition expire (st : SlotStatus) : SlotStatus :=
  mkSlot (SlotID st) "" "FREE" (StartTime st) (Duration st) (FragmentID st).

(** [Status = "FREE"; NodeID = ""; FragmentID = 0] *)
Definition reset (st : SlotStatus) : SlotStatus :=
  mkSlot (SlotID st) "" "FREE" (StartTime st) (Duration st) 0.

Definition NewTDMAScheduler (totalSlots : Z) (slotDuration : Z) (now : Z)
  : TDMAScheduler :=
  let table :=
    fold_left (fun (m : gmap Z SlotStatus) i =>
                 <[i := mkSlot i "" "FREE" zeroTime slotDuration 0]> m)
              (seqZ 0 totalSlots) ∅ in
  mkSched table totalSlots slotDuration 0 now.

(** How a loop body leaves the loop: by [return], by falling through to the
    next statement, or by a panic. *)
Inductive flow (R S : Type) : Type :=
| Return (r : R) (s : S)
| Next (s : S)
| Crash.
Arguments Return {R S} r s.
Arguments Next {R S} s.
Arguments Crash {R S}.

(** First loop of [AllocateTimeSlot]: a slot the node already holds is
    returned while it is younger than ten slot durations, and released
    otherwise. *)
Fixpoint ownedLoop (nodeID : string) (now dur : Z) (idx : list Z)
    (m : gmap Z SlotStatus) : flow Z (gmap Z SlotStatus) :=
  match idx with
  | [] => Next m
  | i :: idx' =>
      match m !! i with
      | None => Crash
      | Some st =>
          if String.eqb (NodeID st) nodeID && String.eqb (Status st) "ASSIGNED" then
            if Sub now (StartTime st) <? int64 (dur * 10) then Return i m
            else ownedLoop nodeID now dur idx' (<[i := expire st]> m)
          else ownedLoop nodeID now dur idx' m
      end
  end.

(** Third loop: the first free slot from two positions after the pointer. *)
Fixpoint scanLoop (nodeID : string) (now : Z) (cur total : Z) (offs : list Z)
    (m : gmap Z SlotStatus) : flow Z (gmap Z SlotStatus) :=
  match offs with
  | [] => Next m
  | offset :: offs' =>
      match rem (int64 (cur + offset)) total with
      | None => Crash
      | Some slotID =>
          match m !! slotID with
          | None => Crash
          | Some st =>
              if String.eqb (Status st) "FREE"
              then Return slotID (<[slotID := assign nodeID now st]> m)
              else scanLoop nodeID now cur total offs' m
          end
      end
  end.

(** Fourth loop: the assigned slot with the earliest start time before
    [oldestTime]; the accumulator is [(oldestSlot, oldestTime)]. *)
Fixpoint oldestLoop (idx : list Z) (m : gmap Z SlotStatus) (acc : Z * Z)
  : option (Z * Z) :=
  match idx with
  | [] => Some acc
  | i :: idx' =>
      match m !! i with
      | None => None
      | Some st =>
          if String.eqb (Status st) "ASSIGNED" then
            if StartTime st <? snd acc then oldestLoop idx' m (i, StartTime st)
            else oldestLoop idx' m acc
          else oldestLoop idx' m acc
      end
  end.

(** [AllocateTimeSlot]: the returned pair [(slotID, err)] and the scheduler
    after the call; [None] is a panic. [priority] is not read. *)
Definition AllocateTimeSlot (s : TDMAScheduler) (nodeID : string) (priority : Z)
    (now : Z) : option ((Z * option SchedError) * TDMAScheduler) :=
  match ownedLoop nodeID now (slotDuration s) (seqZ 0 (totalSlots s)) (slots s) with
  | Crash => None
  | Return i m => Some ((i, None), withSlots s m)
  | Next m =>
      let cur := currentSlot s in
      match rem (int64 (cur + 1)) (totalSlots s) with
      | None => None
      | Some nextSlot =>
          match m !! cur with
          | None => None
          | Some st =>
              if String.eqb (Status st) "FREE" then
                Some ((cur, None), withSlots s (<[cur := assign nodeID now st]> m))
              else
                match m !! nextSlot with
                | None => None
                | Some st' =>
                    if String.eqb (Status st') "FREE" then
                      Some ((nextSlot, None),
                            withSlots s (<[nextSlot := assign nodeID now st']> m))
                    else
                      match scanLoop nodeID now cur (totalSlots s)
                                     (seqZ 2 (totalSlots s - 2)) m with
                      | Crash => None
                      | Return slotID m' => Some ((slotID, None), withSlots s m')
                      | Next m' =>
                          match oldestLoop (seqZ 0 (totalSlots s)) m' (-1, now) with
                          | None => None
                          | Some (oldestSlot, oldestTime) =>
                              if negb (oldestSlot =? -1)
                                 && (Sub now oldestTime >? int64 (slotDuration s * 5))
                              then
                                match m' !! oldestSlot with
                                | None => None
                                | Some o =>
                                    Some ((oldestSlot, None),
                                          withSlots s (<[oldestSlot := assign nodeID now o]> m'))
                                end
                              else Some ((-1, Some ErrNoSlot), withSlots s m')
                          end
                      end
                end
          end
      end
  end.

(** Inner loop of [AllocateConsecutiveSlots]: is every slot of the window
    that starts at [i] free? *)
Fixpoint windowFree (m : gmap Z SlotStatus) (i : Z) (js : list Z) : option bool :=
  match js with
  | [] => Some true
  | j :: js' =>
      match m !! int64 (i + j) with
      | None => None
      | Some st =>
          if negb (String.eqb (Status st) "FREE") then Some false
          else windowFree m i js'
      end
  end.

(** The assignment loop; [slotIDs] grows by [append]. *)
Fixpoint assignWindow (nodeID : string) (now : Z) (i : Z) (js : list Z)
    (m : gmap Z SlotStatus) (slotIDs : list Z)
  : option (gmap Z SlotStatus * list Z) :=
  match js with
  | [] => Some (m, slotIDs)
  | j :: js' =>
      let k := int64 (i + j) in
      match m !! k with
      | None => None
      | Some st =>
          assignWindow nodeID now i js' (<[k := assign nodeID now st]> m)
                       (slotIDs ++ [k])
      end
  end.

Fixpoint consecutiveLoop (nodeID : string) (now : Z) (count : Z) (idx : list Z)
    (s : TDMAScheduler) : option ((list Z * option SchedError) * TDMAScheduler) :=
  match idx with
  | [] => Some (([], Some ErrNoConsecutive), s)
  | i :: idx' =>
      match windowFree (slots s) i (seqZ 0 count) with
      | None => None
      | Some true =>
          match assignWindow nodeID now i (seqZ 0 count) (slots s) [] with
          | None => None
          | Some (m, slotIDs) => Some ((slotIDs, None), withSlots s m)
          end
      | Some false => consecutiveLoop nodeID now count idx' s
      end
  end.

(** [AllocateConsecutiveSlots]: the loop runs [i] from 0 to
    [totalSlots - count] inclusive. *)
Definition AllocateConsecutiveSlots (s : TDMAScheduler) (nodeID : string)
    (count : Z) (now : Z) : option ((list Z * option SchedError) * TDMAScheduler) :=
  consecutiveLoop nodeID now count
                  (seqZ 0 (int64 (totalSlots s - count) + 1)) s.

(** [ReleaseTimeSlot] *)
Definition ReleaseTimeSlot (s : TDMAScheduler) (slotID : Z)
  : option (option SchedError * TDMAScheduler) :=
  if (slotID <? 0) || (slotID >=? totalSlots s) then Some (Some ErrInvalidSlot, s)
  else
    match slots s !! slotID with
    | None => None
    | Some st => Some (None, withSlots s (<[slotID := reset st]> (slots s)))
    end.

(** One turn of [scheduleLoop]. *)
Definition tick (s : TDMAScheduler) : option TDMAScheduler :=
  match rem (int64 (currentSlot s + 1)) (totalSlots s) with
  | None => None
  | Some c => Some (withCurrent s c)
  end.

(** The scheduler a call leaves behind ([s] itself if the call panics). *)
Definition stateOf {A : Type} (r : option (A * TDMAScheduler))
    (s : TDMAScheduler) : TDMAScheduler :=
  match r with
  | Some (_, s') => s'
  | None => s
  end.

(** The representation invariant of the scheduler: the table has exactly the
    keys [0 .. totalSlots-1], fits in memory, and the pointer is inside it. *)
Record sched_ok (s : TDMAScheduler) : Prop := {
  ok_keys : forall i, is_Some (slots s !! i) <-> 0 <= i < totalSlots s;
  ok_size : totalSlots s < 2 ^ 62;
  ok_cur : 0 < totalSlots s -> 0 <= currentSlot s < totalSlots s
}.

Definition same_keys (m m' : gmap Z SlotStatus) : Prop :=
  forall k, is_Some (m' !! k) <-> is_Some (m !! k).

(** What a call can change: the records of the table, never its keys, its
    size, the pointer or the slot duration. *)
Definition same_frame (s s' : TDMAScheduler) : Prop :=
  same_keys (slots s) (slots s') /\ totalSlots s' = totalSlots s /\
  currentSlot s' = currentSlot s /\ slotDuration s' = slotDuration s.

Definition slotFree (s : TDMAScheduler) (k : Z) : Prop :=
  exists st, slots s !! k = Some st /\ Status st = "FREE"%string.

(** A window of [count] free slots starting at [i] that does not run past the
    end of the table. *)
Definition freeWindow (s : TDMAScheduler) (count i : Z) : Prop :=
  0 <= i /\ i + count <= totalSlots s /\
  forall j, 0 <= j < count -> slotFree s (i + j).

(** The window test of the inner loop of [AllocateConsecutiveSlots], as a
    proposition. *)
Definition allFree (m : gmap Z SlotStatus) (i : Z) (js : list Z) : Prop :=
  forall j, j ∈ js ->
    exists st, m !! int64 (i + j) = Some st /\ Status st = "FREE"%string.

(** The slot numbers of a window. *)
Definition window (i : Z) (js : list Z) : list Z :=
  map (fun j => int64 (i + j)) js.

(** [GetSchedule]: the loop over the table fills a fresh map with the owner
    of every assigned slot. *)
Definition GetSchedule (s : TDMAScheduler) : gmap Z string :=
  map_fold (fun slotID status (schedule : gmap Z string) =>
              if String.eqb (Status status) "ASSIGNED"
              then <[slotID := NodeID status]> schedule
              else schedule)
           ∅ (slots s).

(** [GetCurrentSlot] *)
Definition GetCurrentSlot (s : TDMAScheduler) : Z := currentSlot s.

(** [GetSlotStatus]: the pair [(status, err)]; a key that is absent from the
    table gives a nil record, here [None]. *)
Definition GetSlotStatus (s : TDMAScheduler) (slotID : Z)
  : option SlotStatus * option SchedError :=
  if (slotID <? 0) || (slotID >=? totalSlots s) then (None, Some ErrInvalidSlot)
  else (slots s !! slotID, None).

(** The loop of [GetNextAvailableSlot]. *)
Fixpoint nextAvailableLoop (idx : list Z) (m : gmap Z SlotStatus)
  : option (Z * option SchedError) :=
  match idx with
  | [] => Some (-1, Some ErrNoSlot)
  | i :: idx' =>
      match m !! i with
      | None => None
      | Some st =>
          if String.eqb (Status st) "FREE" then Some (i, None)
          else nextAvailableLoop idx' m
      end
  end.

(** [GetNextAvailableSlot]: the returned pair [(slot, err)]; [None] is a
    panic. *)
Definition GetNextAvailableSlot (s : TDMAScheduler)
  : option (Z * option SchedError) :=
  nextAvailableLoop (seqZ 0 (totalSlots s)) (slots s).

(** The loop [for range ticker.C] of [scheduleLoop], for the first [n]
    ticks of the ticker. *)
Fixpoint tickerLoop (n : nat) (s : TDMAScheduler) : option TDMAScheduler :=
  match n with
  | O => Some s
  | S n' =>
      match tick s with
      | None => None
      | Some s' => tickerLoop n' s'
      end
  end.

(** [scheduleLoop], watched until its ticker has ticked [n] times: the
    ticker is made from [slotDuration] first, then the loop runs. [None] is
    a panic, of [time.NewTicker] or of the remainder in the loop. *)
Definition scheduleLoop (n : nat) (s : TDMAScheduler) : option TDMAScheduler :=
  match NewTicker (slotDuration s) with
  | None => None
  | Some _ => tickerLoop n s
  end.

(** The test of the first loop of [AllocateTimeSlot]: the slot is assigned
    to the node. *)
Definition heldBy (nodeID : string) (st : SlotStatus) : Prop :=
  NodeID st = nodeID /\ Status st = "ASSIGNED"%string.

(** No node is the owner of two assigned slots. *)
Definition one_slot_each (s : TDMAScheduler) : Prop :=
  forall i j st st',
    slots s !! i = Some st -> slots s !! j = Some st' ->
    Status st = "ASSIGNED"%string -> Status st' = "ASSIGNED"%string ->
    NodeID st = NodeID st' -> i = j.

(** [DefaultSlotDuration] (one second) and [DefaultTotalSlots]. *)
Definition DefaultSlotDuration : Z := 1000000000.
Definition DefaultTotalSlots : Z := 10.

End Scheduler.

(* ===================================================================== *)
(** * The wire layout, stated directly *)
(* ===================================================================== *)

Module Wire.
Import Go Protocol.

(** The byte string of a frame as the layout table gives it: the fields in
    order, integers big-endian. [Protocol.Serialize] is proved equal to it. *)
Definition encode (f : TDMAFrame) : list byte :=
  Header f ++ be32 (SlotID f) ++ NodeID f ++ be32 (Length f)
    ++ be32 (FragmentID f) ++ be16 (TotalFrags f) ++ be16 (FragIndex f)
    ++ be16 (Flags f) ++ Data f ++ be32 (CRC f) ++ Footer f.

(** The stored [Length] field of a buffer: bytes 44 to 47. *)
Definition storedLength (data : list byte) : Z := u32_of (skipn 44 data).

(** The frame read off a buffer at the fixed offsets.
    [Protocol.DeserializeTDMAFrame] is proved to return it whenever it
    returns a frame. *)
Definition parse (data : list byte) : TDMAFrame :=
  let n := Z.to_nat (storedLength data) in
  mkFrame (firstn 8 data)
          (u32_of (skipn 8 data))
          (firstn 32 (skipn 12 data))
          (storedLength data)
          (u32_of (skipn 48 data))
          (u16_of (skipn 52 data))
          (u16_of (skipn 54 data))
          (u16_of (skipn 56 data))
          (firstn n (skipn 58 data))
          (u32_of (skipn (58 + n) data))
          (firstn 8 (skipn (62 + n) data)).

(** A frame that passes every check of the data model: both sentinels, the
    length field and the checksum. *)
Record well_formed (f : TDMAFrame) : Prop := {
  wf_Header : Header f = FRAME_HEADER;
  wf_Footer : Footer f = FRAME_FOOTER;
  wf_Length : Length f = len (Data f);
  wf_CRC : CRC f = calculateCRC f
}.

(** A frame whose [NodeID] and [FragmentID] were replaced, every other field
    (the stored checksum included) kept. *)
Definition withNodeAndFragment (f : TDMAFrame) (nodeID : list byte)
    (fragmentID : Z) : TDMAFrame :=
  mkFrame (Header f) (SlotID f) nodeID (Length f) fragmentID
          (TotalFrags f) (FragIndex f) (Flags f) (Data f) (CRC f) (Footer f).

(** The same replacement done on the wire: bytes 12 to 43 and 48 to 51 of a
    buffer are overwritten. *)
Definition overwriteNodeAndFragment (bytes nodeID : list byte) (fragmentID : Z)
  : list byte :=
  firstn 12 bytes ++ nodeID ++ firstn 4 (skipn 44 bytes)
    ++ be32 fragmentID ++ skipn 52 bytes.

End Wire.

(* ===================================================================== *)
(** * Splitting a payload into fragments *)
(* ===================================================================== *)

Module Fragmenter.
Import Go Protocol.

(** The [i]-th piece of [size] bytes of a payload. *)
Definition chunk (payload : list byte) (size : nat) (i : nat) : list byte :=
  firstn size (skipn (i * size) payload).

Definition ceilDiv (a b : Z) : Z := (a + b - 1) / b.

(** Modelled from the spec: the repository has the two frame constructors
    [NewTDMAFrame] and [NewFragmentTDMAFrame] but no function that cuts a
    payload into fragments; [split] is that function as section 4.3 of the
    design describes it, built on the constructors of the source. The fresh
    fragment id is the argument [fragmentID]. *)
Definition split (payload : list byte) (maxFragmentPayloadSize : Z)
    (nodeID : string) (slotID : Z) (fragmentID : Z) : list TDMAFrame :=
  if len payload <=? maxFragmentPayloadSize then
    [NewTDMAFrame slotID nodeID payload]
  else
    let total := ceilDiv (len payload) maxFragmentPayloadSize in
    map (fun i =>
           NewFragmentTDMAFrame slotID nodeID fragmentID
             (uint16 total) (uint16 i)
             (chunk payload (Z.to_nat maxFragmentPayloadSize) (Z.to_nat i))
             (i =? 0) (i =? total - 1))
        (seqZ 0 total).

End Fragmenter.

(* ===================================================================== *)
(** * package network *)
(* ===================================================================== *)

Module Network.
Import Go.

(** The errors built with [fmt.Errorf] in [SendFrame] and [ReceiveFrame];
    the last two carry the error of the codec. *)
Inductive NetError : Set :=
| ErrNotConnected
| ErrSerialize
| ErrSend
| ErrReadHeader
| ErrInvalidHeader
| ErrReadData
| ErrDeserialize (e : Protocol.FrameError)
| ErrValidate (e : Protocol.FrameError).

(** The fields of the interface other than the connection and the mutex. *)
Record NetworkInterface : Type := mkInterface {
  address : string;
  connected : bool;
  timeout : Z;
  fragmentTimeout : Z
}.

Definition NewNetworkInterface : NetworkInterface :=
  mkInterface "" false (5 * 1000000000) (10 * 1000000000).

(** [SendFrame]: [Ok bytes] when [bytes] were written and nil was returned;
    [writeFails] says whether [conn.Write] returns an error. *)
Definition SendFrame (ni : NetworkInterface) (frame : Protocol.TDMAFrame)
    (writeFails : bool) : outcome NetError (list byte) :=
  if negb (connected ni) then Err ErrNotConnected
  else
    match Protocol.Serialize frame with
    | Panic => Panic
    | Err _ => Err ErrSerialize
    | Ok data => if writeFails then Err ErrSend else Ok data
    end.

(** [ReceiveFrame]: [read1] and [read2] are what the two calls of
    [conn.Read] deliver, [None] when the call returns an error. The count of
    the first call is not looked at. *)
Definition ReceiveFrame (ni : NetworkInterface) (read1 read2 : option (list byte))
  : outcome NetError Protocol.TDMAFrame :=
  if negb (connected ni) then Err ErrNotConnected
  else
    match read1 with
    | None => Err ErrReadHeader
    | Some delivered1 =>
        let header := fst (Read 8 delivered1) in
        if negb (bytes_eqb header Protocol.FRAME_HEADER) then Err ErrInvalidHeader
        else
          match read2 with
          | None => Err ErrReadData
          | Some delivered2 =>
              let '(buffer, n) := Read 4096 delivered2 in
              match slice buffer 0 n with
              | Panic => Panic
              | Err e => Err e
              | Ok received =>
                  let frameData := header ++ received in
                  match Protocol.DeserializeTDMAFrame frameData with
                  | Panic => Panic
                  | Err e => Err (ErrDeserialize e)
                  | Ok frame =>
                      match Protocol.Validate frame with
                      | Some e => Err (ErrValidate e)
                      | None => Ok frame
                      end
                  end
              end
          end
    end.

End Network.

(* ===================================================================== *)
(** * The satellite node *)
(* ===================================================================== *)

Module Satellite.
Import Go.

(** The fields of the node that [processFrame] reads or writes. *)
Record SatelliteNode : Type := mkSatellite {
  nodeID : string;
  scheduler : Scheduler.TDMAScheduler
}.

(** [NewSatelliteNode]: ten slots of one second. *)
Definition NewSatelliteNode (nodeID : string) (now : Z) : SatelliteNode :=
  mkSatellite nodeID (Scheduler.NewTDMAScheduler 10 (1 * 1000000000) now).

Definition withScheduler (sn : SatelliteNode) (sch : Scheduler.TDMAScheduler)
  : SatelliteNode :=
  mkSatellite (nodeID sn) sch.

(** [processFrame]: the bytes handed to [conn.Write], if any, and the node
    after the call; [None] is a panic. [now] is the clock reading of
    [GetGlobalSlotID], [now'] the one of [AllocateTimeSlot]. The log lines
    are left out; the result of [conn.Write] only selects one of them. *)
Definition processFrame (sn : SatelliteNode) (frame : Protocol.TDMAFrame)
    (now now' : Z) : option (option (list byte) * SatelliteNode) :=
  match Protocol.Validate frame with
  | Some _ => Some (None, sn)
  | None =>
      if bytes_eqb (Protocol.Data frame) (list_byte_of_string "GET_CURRENT_SLOT") then
        match Protocol.GetGlobalSlotID now Scheduler.DefaultSlotDuration
                                       Scheduler.DefaultTotalSlots with
        | None => None
        | Some currentSlot =>
            let respData := list_byte_of_string "CURRENT_SLOT_" ++ formatInt currentSlot in
            let respFrame :=
              Protocol.NewTDMAFrame (uint32 currentSlot) (nodeID sn) respData in
            match Protocol.Serialize respFrame with
            | Panic => None
            | Err _ => Some (None, sn)
            | Ok respBytes => Some (Some respBytes, sn)
            end
        end
      else
        match Protocol.GetGlobalSlotID now Scheduler.DefaultSlotDuration
                                       Scheduler.DefaultTotalSlots with
        | None => None
        | Some currentSlot =>
            if negb (Protocol.SlotID frame =? currentSlot) then Some (None, sn)
            else
              let nodeID' := Protocol.GetNodeID frame in
              match Scheduler.AllocateTimeSlot (scheduler sn) nodeID' 1 now' with
              | None => None
              | Some ((_, Some _), sch) => Some (None, withScheduler sn sch)
              | Some ((slotID, None), sch) =>
                  let ackData := list_byte_of_string "ACK_SLOT_" ++ formatInt slotID in
                  let ackFrame :=
                    Protocol.NewTDMAFrame (uint32 slotID) (nodeID sn) ackData in
                  match Protocol.Serialize ackFrame with
                  | Panic => None
                  | Err _ => Some (None, withScheduler sn sch)
                  | Ok ackBytes => Some (Some ackBytes, withScheduler sn sch)
                  end
              end
        end
  end.

(** How a turn of the loop of [handleConnection] ends: the loop is left, or
    it goes on, after writing [out] if that is not [None], with the node
    [sn]. *)
Inductive turn : Type :=
| Break
| Continue (out : option (list byte)) (sn : SatelliteNode).

(** One turn of the loop of [handleConnection]; [read1] and [read2] are what
    the two calls of [conn.Read] deliver, [None] when the call returns an
    error. The second buffer is used again in every turn, but only its
    first [n] bytes, the ones just read, are looked at. The outer [None] is
    a panic. *)
Definition handleConnection1 (sn : SatelliteNode) (read1 read2 : option (list byte))
    (now now' : Z) : option turn :=
  match read1 with
  | None => Some Break
  | Some delivered1 =>
      let '(head, nRead) := Read 8 delivered1 in
      if negb (nRead =? 8) then Some (Continue None sn)
      else if negb (bytes_eqb head Protocol.FRAME_HEADER) then Some (Continue None sn)
      else
        match read2 with
        | None => Some Break
        | Some delivered2 =>
            let '(buffer, n) := Read 4096 delivered2 in
            match @slice Protocol.FrameError buffer 0 n with
            | Panic | Err _ => None
            | Ok received =>
                let frameData := head ++ received in
                match Protocol.DeserializeTDMAFrame frameData with
                | Panic => None
                | Err _ => Some (Continue None sn)
                | Ok frame =>
                    match processFrame sn frame now now' with
                    | None => None
                    | Some (out, sn') => Some (Continue out sn')
                    end
                end
            end
        end
  end.

End Satellite.

(* ===================================================================== *)
(** * The ground station node *)
(* ===================================================================== *)

Module GroundStation.
Import Go.

(** The errors built with [fmt.Errorf] in this program. *)
Inductive StationError : Set :=
| ErrNotConnected
| ErrSerialize
| ErrSendFrame
| ErrSendRequest
| ErrReadResponse
| ErrParseResponse
| ErrResponseFormat
| ErrParseSlot.

Definition errorText (e : StationError) : string :=
  match e with
  | ErrNotConnected => "未连接到卫星节点"
  | ErrSerialize => "序列化帧失败"
  | ErrSendFrame => "发送帧失败"
  | ErrSendRequest => "发送请求失败"
  | ErrReadResponse => "读取响应失败"
  | ErrParseResponse => "解析响应帧失败"
  | ErrResponseFormat => "无效的响应格式"
  | ErrParseSlot => "解析时隙失败"
  end.

(** The fields of the node that the functions below read or write;
    [connected] stands for [conn != nil]. *)
Record GroundStationNode : Type := mkStation {
  nodeID : string;
  connected : bool;
  slotID : Z
}.

Definition NewGroundStationNode (nodeID : string) : GroundStationNode :=
  mkStation nodeID false (-1).

Definition withSlotID (gsn : GroundStationNode) (slotID : Z) : GroundStationNode :=
  mkStation (nodeID gsn) (connected gsn) slotID.

(** [SendFrame]: [Ok bytes] when [bytes] were written to the connection and
    the function returned nil; [writeFails] says whether [conn.Write]
    returns an error. *)
Definition SendFrame (gsn : GroundStationNode) (slotID : Z) (data : list byte)
    (writeFails : bool) : outcome StationError (list byte) :=
  if negb (connected gsn) then Err ErrNotConnected
  else
    let frame := Protocol.NewTDMAFrame (uint32 slotID) (nodeID gsn) data in
    match Protocol.Serialize frame with
    | Panic => Panic
    | Err _ => Err ErrSerialize
    | Ok frameBytes => if writeFails then Err ErrSendFrame else Ok frameBytes
    end.

(** What the connection does with the request of [GetCurrentSlot]. *)
Inductive exchange : Type :=
| WriteFails
| ReadFails
| Reads (response : list byte).

(** [GetCurrentSlot]: [Err e] stands for the returned pair [(-1, e)];
    [conn] gives, for the bytes written, what the connection does. *)
Definition GetCurrentSlot (gsn : GroundStationNode) (conn : list byte -> exchange)
  : outcome StationError Z :=
  if negb (connected gsn) then Err ErrNotConnected
  else
    let frame :=
      Protocol.NewTDMAFrame 0 (nodeID gsn) (list_byte_of_string "GET_CURRENT_SLOT") in
    match Protocol.Serialize frame with
    | Panic => Panic
    | Err _ => Err ErrSerialize
    | Ok frameBytes =>
        match conn frameBytes with
        | WriteFails => Err ErrSendRequest
        | ReadFails => Err ErrReadResponse
        | Reads response =>
            match Protocol.DeserializeTDMAFrame response with
            | Panic => Panic
            | Err _ => Err ErrParseResponse
            | Ok respFrame =>
                let slotStr := Protocol.Data respFrame in
                if negb (HasPrefix slotStr (list_byte_of_string "CURRENT_SLOT_"))
                then Err ErrResponseFormat
                else
                  let slotStr := TrimPrefix slotStr (list_byte_of_string "CURRENT_SLOT_") in
                  match Atoi slotStr with
                  | (_, Some _) => Err ErrParseSlot
                  | (slot, None) => Ok slot
                  end
            end
        end
    end.

(** [SendDefaultData]: [Ok None] when the function returns nil without
    sending, [Ok (Some bytes)] when it sent [bytes]. [now] is the clock
    reading of [GetGlobalSlotID], [now'] the one of the payload;
    [time.Now().Unix()] is the number of whole seconds. *)
Definition SendDefaultData (gsn : GroundStationNode) (now now' : Z)
    (writeFails : bool) : outcome StationError (option (list byte)) :=
  match Protocol.GetGlobalSlotID now Scheduler.DefaultSlotDuration
                                 Scheduler.DefaultTotalSlots with
  | None => Panic
  | Some currentSlot =>
      if negb (currentSlot =? slotID gsn) then Ok None
      else
        let defaultData :=
          list_byte_of_string "DEFAULT_DATA_FROM_"
            ++ list_byte_of_string (nodeID gsn)
            ++ list_byte_of_string "_" ++ formatInt (now' / 1000000000) in
        match SendFrame gsn (slotID gsn) defaultData writeFails with
        | Panic => Panic
        | Err e => Err e
        | Ok frameBytes => Ok (Some frameBytes)
        end
  end.

(** [processFrame]: the node after the call. What is printed is left
    out. *)
Definition processFrame (gsn : GroundStationNode) (frame : Protocol.TDMAFrame)
  : GroundStationNode :=
  match Protocol.Validate frame with
  | Some _ => gsn
  | None =>
      if Contains (Protocol.Data frame) (list_byte_of_string "ACK_SLOT") then
        let ackData := Protocol.Data frame in
        if HasPrefix ackData (list_byte_of_string "ACK_SLOT_") then
          let slotStr := TrimPrefix ackData (list_byte_of_string "ACK_SLOT_") in
          match Atoi slotStr with
          | (slotID, None) => withSlotID gsn slotID
          | (_, Some _) => gsn
          end
        else gsn
      else gsn
  end.

(** One turn of [receiveLoop] in which [conn.Read] returned [buffer]; [None]
    is a panic. *)
Definition receive (gsn : GroundStationNode) (buffer : list byte)
  : option GroundStationNode :=
  match Protocol.DeserializeTDMAFrame buffer with
  | Panic => None
  | Err _ => Some gsn
  | Ok frame =>
      if HasPrefix (Protocol.Data frame) (list_byte_of_string "CURRENT_SLOT_")
      then Some gsn
      else Some (processFrame gsn frame)
  end.

End GroundStation.

(* ===================================================================== *)
(** * Facts about the Go primitives *)
(* ===================================================================== *)

Module GoFacts.
Import Go.

Lemma len_nonneg {A : Type} (l : list A) : 0 <= len l.
Proof. unfold len. lia. Qed.

Lemma len_app {A : Type} (a b : list A) : len (a ++ b) = len a + len b.
Proof. unfold len. rewrite length_app. lia. Qed.

Lemma int64_small z : - 2 ^ 63 <= z < 2 ^ 63 -> int64 z = z.
Proof.
  intros H. unfold int64. rewrite Z.mod_small; lia.
Qed.

Lemma uint32_small z : 0 <= z < 2 ^ 32 -> uint32 z = z.
Proof. intros H. unfold uint32. apply Z.mod_small. exact H. Qed.


Lemma uint32_range z : 0 <= uint32 z < 2 ^ 32.
Proof. unfold uint32. apply Z.mod_pos_bound. lia. Qed.

(** ** Lists cut at a known length *)

Lemma firstn_app_len {A : Type} (a b : list A) n :
  length a = n -> firstn n (a ++ b) = a.
Proof.
  intros <-. rewrite firstn_app, Nat.sub_diag, firstn_all. cbn. apply app_nil_r.
Qed.

Lemma skipn_app_len {A : Type} (a b : list A) n m :
  length a = n -> skipn (n + m) (a ++ b) = skipn m b.
Proof.
  intros <-. rewrite skipn_app, skipn_all2 by lia. cbn. f_equal. lia.
Qed.

Lemma skipn_app_exact {A : Type} (a b : list A) n :
  length a = n -> skipn n (a ++ b) = b.
Proof.
  intros H. rewrite <- (Nat.add_0_r n). rewrite (skipn_app_len a b n 0 H).
  reflexivity.
Qed.

Lemma firstn_skipn_app {A : Type} (data extra : list A) a k :
  (a + k <= length data)%nat ->
  firstn k (skipn a (data ++ extra)) = firstn k (skipn a data).
Proof.
  intros H. rewrite skipn_app, firstn_app, length_skipn.
  replace (k - (length data - a))%nat with 0%nat by lia.
  cbn. apply app_nil_r.
Qed.

(** ** copy *)

Lemma copy_length dst src : length (copy dst src) = length dst.
Proof.
  unfold copy. rewrite length_app, length_firstn, length_skipn. lia.
Qed.

Lemma copy_exact dst src : length src = length dst -> copy dst src = src.
Proof.
  intros H. unfold copy. rewrite <- H, firstn_all, skipn_all2 by lia.
  apply app_nil_r.
Qed.

Lemma copy_zeros n src : length src = n -> copy (repeat x00 n) src = src.
Proof. intros H. apply copy_exact. rewrite repeat_length. exact H. Qed.

Lemma skipn_repeat_x00 m k : skipn m (repeat x00 k) = repeat x00 (k - m).
Proof.
  revert k. induction m as [|m IH]; intros [|k]; cbn; auto.
Qed.

Lemma copy_into_zeros k src :
  (length src <= k)%nat ->
  copy (repeat x00 k) src = src ++ repeat x00 (k - length src).
Proof.
  intros H. unfold copy. rewrite repeat_length, firstn_all2 by lia.
  f_equal. apply skipn_repeat_x00.
Qed.

(** ** Slices that are in range do not panic *)

Lemma sliceFrom_ok {E : Type} b off :
  0 <= off <= len b -> @sliceFrom E b off = Ok (skipn (Z.to_nat off) b).
Proof.
  intros H. unfold sliceFrom.
  destruct (off <? 0) eqn:E1; [lia|]. destruct (len b <? off) eqn:E2; [lia|].
  reflexivity.
Qed.

Lemma slice_ok {E : Type} b lo hi :
  0 <= lo <= hi -> hi <= len b ->
  @slice E b lo hi = Ok (firstn (Z.to_nat (hi - lo)) (skipn (Z.to_nat lo) b)).
Proof.
  intros H1 H2. unfold slice.
  destruct (lo <? 0) eqn:E1; [lia|]. destruct (hi <? lo) eqn:E2; [lia|].
  destruct (len b <? hi) eqn:E3; [lia|]. reflexivity.
Qed.

Lemma Uint32_ok {E : Type} b : 4 <= len b -> @Uint32 E b = Ok (u32_of b).
Proof. intros H. unfold Uint32. destruct (len b <? 4) eqn:E1; [lia|]. reflexivity. Qed.

Lemma Uint16_ok {E : Type} b : 2 <= len b -> @Uint16 E b = Ok (u16_of b).
Proof. intros H. unfold Uint16. destruct (len b <? 2) eqn:E1; [lia|]. reflexivity. Qed.

(** ** Writes into the zeroed rest of a buffer *)

Lemma onTail_zeros {E : Type} pre k off src (f : list byte -> outcome E (list byte)) :
  off = len pre -> (length src <= k)%nat ->
  f (repeat x00 k) = Ok (copy (repeat x00 k) src) ->
  onTail (pre ++ repeat x00 k) off f
  = Ok ((pre ++ src) ++ repeat x00 (k - length src)).
Proof.
  intros -> Hk Hf. unfold onTail.
  rewrite sliceFrom_ok by (rewrite len_app; pose proof (len_nonneg (repeat x00 k)); unfold len; lia).
  unfold len. rewrite Nat2Z.id. cbn [bind].
  rewrite skipn_app_exact by reflexivity.
  rewrite Hf. cbn [bind]. rewrite firstn_app_len by reflexivity.
  rewrite copy_into_zeros by exact Hk. rewrite app_assoc. reflexivity.
Qed.

Lemma onTail_copy {E : Type} pre k off src :
  off = len pre -> (length src <= k)%nat ->
  @onTail E (pre ++ repeat x00 k) off (fun v => Ok (copy v src))
  = Ok ((pre ++ src) ++ repeat x00 (k - length src)).
Proof. intros H1 H2. apply onTail_zeros; auto. Qed.

Lemma onTail_put32 {E : Type} pre k off v :
  off = len pre -> (4 <= k)%nat ->
  @onTail E (pre ++ repeat x00 k) off (fun b => PutUint32 b v)
  = Ok ((pre ++ be32 v) ++ repeat x00 (k - 4)).
Proof.
  intros H1 H2. apply (onTail_zeros pre k off (be32 v)); auto.
  unfold PutUint32, len. rewrite repeat_length.
  destruct (Z.of_nat k <? 4) eqn:E1; [lia|]. reflexivity.
Qed.

Lemma onTail_put16 {E : Type} pre k off v :
  off = len pre -> (2 <= k)%nat ->
  @onTail E (pre ++ repeat x00 k) off (fun b => PutUint16 b v)
  = Ok ((pre ++ be16 v) ++ repeat x00 (k - 2)).
Proof.
  intros H1 H2. apply (onTail_zeros pre k off (be16 v)); auto.
  unfold PutUint16, len. rewrite repeat_length.
  destruct (Z.of_nat k <? 2) eqn:E1; [lia|]. reflexivity.
Qed.

(** ** Big-endian integers *)

Lemma u32_of_be32 v rest : 0 <= v < 2 ^ 32 -> u32_of (be32 v ++ rest) = v.
Proof.
  intros H. unfold u32_of, be32, at_. cbn [nth app].
  rewrite !byte.unsigned_of_Z. unfold byte.wrap.
  rewrite <- !Z.land_ones by lia.
  assert (Hv : v = Z.land v (Z.ones 32))
    by (rewrite Z.land_ones by lia; rewrite Z.mod_small; lia).
  rewrite Hv at 5.
  Z.bitblast.
Qed.

Lemma u16_of_be16 v rest : 0 <= v < 2 ^ 16 -> u16_of (be16 v ++ rest) = v.
Proof.
  intros H. unfold u16_of, be16, at_. cbn [nth app].
  rewrite !byte.unsigned_of_Z. unfold byte.wrap.
  rewrite <- !Z.land_ones by lia.
  assert (Hv : v = Z.land v (Z.ones 16))
    by (rewrite Z.land_ones by lia; rewrite Z.mod_small; lia).
  rewrite Hv at 3.
  Z.bitblast.
Qed.

Lemma at_range b i : 0 <= at_ b i < 2 ^ 8.
Proof. unfold at_. apply byte.unsigned_range. Qed.

Lemma u32_of_range b : 0 <= u32_of b < 2 ^ 32.
Proof.
  unfold u32_of.
  pose proof (at_range b 0). pose proof (at_range b 1).
  pose proof (at_range b 2). pose proof (at_range b 3).
  assert (Hlt : forall x, 0 <= x -> Z.log2 x < 32 -> x < 2 ^ 32).
  { intros x Hx Hl. destruct (Z.eq_dec x 0) as [->|]; [lia|].
    apply Z.log2_lt_pow2; lia. }
  assert (Hb : forall x s, 0 <= x < 2 ^ 8 -> 0 <= s <= 24 ->
                 0 <= Z.shiftl x s /\ Z.log2 (Z.shiftl x s) < 32).
  { intros x s Hx Hs. split; [apply Z.shiftl_nonneg; lia|].
    destruct (Z.eq_dec x 0) as [->|Hne].
    - rewrite Z.shiftl_0_l. cbn. lia.
    - rewrite Z.log2_shiftl by lia.
      assert (Z.log2 x < 8) by (apply Z.log2_lt_pow2; lia). lia. }
  destruct (Hb _ 8 H1 ltac:(lia)) as [? ?].
  destruct (Hb _ 16 H0 ltac:(lia)) as [? ?].
  destruct (Hb _ 24 H ltac:(lia)) as [? ?].
  assert (Z.log2 (at_ b 3) < 32).
  { destruct (Z.eq_dec (at_ b 3) 0) as [->|]; [cbn; lia|].
    assert (Z.log2 (at_ b 3) < 8) by (apply Z.log2_lt_pow2; lia). lia. }
  split.
  - rewrite !Z.lor_nonneg. lia.
  - apply Hlt.
    + rewrite !Z.lor_nonneg. lia.
    + rewrite !Z.log2_lor by (rewrite ?Z.lor_nonneg; lia). lia.
Qed.

Lemma u32_of_firstn b : u32_of (firstn 4 b) = u32_of b.
Proof.
  unfold u32_of, at_.
  destruct b as [|b0 [|b1 [|b2 [|b3 b']]]]; reflexivity.
Qed.

Lemma u16_of_firstn b : u16_of (firstn 2 b) = u16_of b.
Proof.
  unfold u16_of, at_.
  destruct b as [|b0 [|b1 b']]; reflexivity.
Qed.

Lemma bytes_eqb_eq a b : bytes_eqb a b = true <-> a = b.
Proof.
  revert b. induction a as [|x a IH]; intros [|y b]; cbn; try (split; congruence).
  rewrite andb_true_iff, IH. split.
  - intros [H1 ->]. apply Byte.byte_dec_bl in H1. congruence.
  - intros [= -> ->]. split; [apply Byte.byte_dec_lb|]; reflexivity.
Qed.

End GoFacts.

(* ===================================================================== *)
(** * The codec *)
(* ===================================================================== *)

Module CodecFacts.
Import Go Protocol Wire GoFacts.
Local Open Scope go_scope.

Lemma be32_length v : length (be32 v) = 4%nat.
Proof. reflexivity. Qed.

Lemma be16_length v : length (be16 v) = 2%nat.
Proof. reflexivity. Qed.

Lemma encode_length f :
  length (Header f) = 8%nat -> length (NodeID f) = 32%nat ->
  length (Footer f) = 8%nat ->
  len (encode f) = 70 + len (Data f).
Proof.
  intros H1 H2 H3. unfold encode, len.
  rewrite !length_app, !be32_length, !be16_length, H1, H2, H3. lia.
Qed.

Ltac write_side :=
  try unfold len; rewrite ?length_app, ?be32_length, ?be16_length;
  cbn [length]; lia.

Ltac write_step :=
  first [ rewrite onTail_put32 by write_side
        | rewrite onTail_put16 by write_side
        | rewrite onTail_copy by write_side ];
  cbn [bind].

(** The field-by-field writes of [Serialize] fill the buffer exactly, in the
    order of the layout, and never run out of it. *)
Lemma Serialize_encode f :
  length (Header f) = 8%nat -> length (NodeID f) = 32%nat ->
  length (Footer f) = 8%nat ->
  Serialize f = Ok (encode f).
Proof.
  intros H1 H2 H3. unfold Serialize. cbv zeta.
  change (repeat x00 ?n) with ([] ++ repeat x00 n).
  do 11 write_step.
  match goal with |- Ok (_ ++ repeat x00 ?k) = _ => replace k with 0%nat by write_side end.
  cbn [repeat]. rewrite app_nil_r. cbn [app]. unfold encode.
  rewrite <- !app_assoc. reflexivity.
Qed.

Lemma storedLength_range data : 0 <= storedLength data < 2 ^ 32.
Proof. apply u32_of_range. Qed.

Ltac read_side :=
  repeat match goal with H : context [len _] |- _ => unfold len in H end;
  try unfold len; rewrite ?length_firstn, ?length_skipn; lia.

(** [DeserializeTDMAFrame] never panics: after the check against 60 every
    fixed read is in range, and after the check against the stored length so
    are the reads of the payload, the checksum and the footer. *)
Lemma Deserialize_cases data :
  DeserializeTDMAFrame data =
    if len data <? 60 then Err ErrTooShort
    else if len data <? 58 + storedLength data + 12 then Err ErrLengthMismatch
    else Ok (parse data).
Proof.
  unfold DeserializeTDMAFrame. cbv zeta.
  destruct (len data <? 60) eqn:E60; [reflexivity|].
  apply Z.ltb_ge in E60.
  pose proof (storedLength_range data) as HL.
  rewrite slice_ok by read_side. cbn [bind].
  rewrite sliceFrom_ok by read_side. cbn [bind].
  rewrite Uint32_ok by read_side. cbn [bind].
  rewrite slice_ok by read_side. cbn [bind].
  rewrite sliceFrom_ok by read_side. cbn [bind].
  rewrite Uint32_ok by read_side. cbn [bind].
  rewrite sliceFrom_ok by read_side. cbn [bind].
  rewrite Uint32_ok by read_side. cbn [bind].
  rewrite sliceFrom_ok by read_side. cbn [bind].
  rewrite Uint16_ok by read_side. cbn [bind].
  rewrite sliceFrom_ok by read_side. cbn [bind].
  rewrite Uint16_ok by read_side. cbn [bind].
  rewrite sliceFrom_ok by read_side. cbn [bind].
  rewrite Uint16_ok by read_side. cbn [bind].
  change (Z.to_nat (0 + 8 + 4 + 32)) with 44%nat.
  change (u32_of (skipn 44 data)) with (storedLength data).
  change (0 + 8 + 4 + 32 + 4 + 4 + 2 + 2 + 2) with 58.
  destruct (len data <? 58 + storedLength data + 12) eqn:EL; [reflexivity|].
  apply Z.ltb_ge in EL.
  rewrite slice_ok by read_side. cbn [bind].
  rewrite sliceFrom_ok by read_side. cbn [bind].
  rewrite Uint32_ok by read_side. cbn [bind].
  rewrite slice_ok by read_side. cbn [bind].
  f_equal. unfold parse. cbv zeta.
  rewrite !copy_zeros by read_side.
  replace (Z.to_nat (58 + storedLength data)) with (58 + Z.to_nat (storedLength data))%nat by lia.
  replace (Z.to_nat (58 + storedLength data + 4)) with (62 + Z.to_nat (storedLength data))%nat by lia.
  replace (58 + storedLength data - 58) with (storedLength data) by lia.
  replace (58 + storedLength data + 4 + 8 - (58 + storedLength data + 4)) with 8 by lia.
  reflexivity.
Qed.


Ltac explode l H :=
  repeat (destruct l as [|? l]; cbn [length] in H; [discriminate H|]);
  destruct l; [clear H | discriminate H].

(** Reading a buffer that is laid out as the table says gives back the
    pieces, whatever follows the footer. *)
Lemma parse_layout h s n l fid tf fi fl d c ft extra :
  length h = 8%nat -> length s = 4%nat -> length n = 32%nat ->
  length l = 4%nat -> length fid = 4%nat -> length tf = 2%nat ->
  length fi = 2%nat -> length fl = 2%nat -> u32_of l = len d ->
  length c = 4%nat -> length ft = 8%nat ->
  parse (h ++ s ++ n ++ l ++ fid ++ tf ++ fi ++ fl ++ d ++ c ++ ft ++ extra)
  = mkFrame h (u32_of s) n (u32_of l) (u32_of fid) (u16_of tf) (u16_of fi)
            (u16_of fl) d (u32_of c) ft.
Proof.
  intros Hh Hs Hn Hl Hfid Htf Hfi Hfl HL Hc Hft.
  assert (EL : storedLength
                 (h ++ s ++ n ++ l ++ fid ++ tf ++ fi ++ fl ++ d ++ c ++ ft ++ extra)
               = u32_of l).
  { unfold storedLength.
    explode h Hh. explode s Hs. explode n Hn. explode l Hl.
    cbn [app skipn]. reflexivity. }
  unfold parse. cbv zeta. rewrite EL, HL. unfold len. rewrite Nat2Z.id.
  explode h Hh. explode s Hs. explode n Hn.
  explode fid Hfid. explode tf Htf. explode fi Hfi. explode fl Hfl.
  explode c Hc. explode ft Hft.
  destruct l as [|l0 [|l1 [|l2 [|l3 [|]]]]]; try discriminate Hl.
  cbn [app skipn firstn Nat.add].
  change (skipn 0 ?x) with x.
  replace (S (S (S (S (length d))))) with (length d + 4)%nat by lia.
  rewrite firstn_app_len by reflexivity.
  rewrite skipn_app_exact by reflexivity.
  rewrite skipn_app_len by reflexivity.
  reflexivity.
Qed.

Lemma parse_encode f extra :
  frame_typed f -> Length f = len (Data f) -> parse (encode f ++ extra) = f.
Proof.
  intros T HL. unfold encode. rewrite <- !app_assoc.
  destruct T.
  rewrite parse_layout; try assumption; try reflexivity.
  - rewrite <- (app_nil_r (be32 (SlotID f))), <- (app_nil_r (be32 (Length f))),
      <- (app_nil_r (be32 (FragmentID f))), <- (app_nil_r (be32 (CRC f))),
      <- (app_nil_r (be16 (TotalFrags f))), <- (app_nil_r (be16 (FragIndex f))),
      <- (app_nil_r (be16 (Flags f))).
    rewrite !u32_of_be32, !u16_of_be16 by assumption.
    destruct f; reflexivity.
  - rewrite <- (app_nil_r (be32 (Length f))), u32_of_be32 by assumption.
    exact HL.
Qed.

End CodecFacts.

(** ** Concrete runs *)

Module CodecExamples.
Import Go Protocol Wire.

Example checksum_of_sample :
  CRC (NewTDMAFrame 5 "GS1" [x01; x02; x03]) = 0xFFD52BE3.
Proof. vm_compute. reflexivity. Qed.

Example sample_is_73_bytes :
  Serialize (NewTDMAFrame 5 "GS1" [x01; x02; x03])
    = Ok (encode (NewTDMAFrame 5 "GS1" [x01; x02; x03])) /\
  len (encode (NewTDMAFrame 5 "GS1" [x01; x02; x03])) = 73.
Proof. split; vm_compute; reflexivity. Qed.

Example sample_validates :
  Validate (NewTDMAFrame 5 "GS1" [x01; x02; x03]) = None.
Proof. vm_compute. reflexivity. Qed.

Example flipped_payload_byte_is_caught :
  Validate (mkFrame FRAME_HEADER 5 (repeat x00 32) 3 0 1 0 0
                    [x01; x02; x07] 0xFFD52BE3 FRAME_FOOTER)
    = Some ErrChecksum.
Proof. vm_compute. reflexivity. Qed.

Example truncated_sample_is_refused :
  DeserializeTDMAFrame
    (firstn 72 (encode (NewTDMAFrame 5 "GS1" [x01; x02; x03])))
    = Err ErrLengthMismatch.
Proof. vm_compute. reflexivity. Qed.

End CodecExamples.

Module CodecProps.
Import Go Protocol Wire GoFacts CodecFacts.

Lemma well_formed_lengths f :
  well_formed f -> length (Header f) = 8%nat /\ length (Footer f) = 8%nat.
Proof. intros [H1 H2 _ _]. rewrite H1, H2. split; reflexivity. Qed.

Lemma Deserialize_encode f extra :
  frame_typed f -> Length f = len (Data f) ->
  DeserializeTDMAFrame (encode f ++ extra) = Ok f.
Proof.
  intros T HL. rewrite Deserialize_cases.
  assert (Hlen : len (encode f ++ extra) = 70 + len (Data f) + len extra).
  { rewrite len_app, encode_length by apply T. reflexivity. }
  assert (HS : storedLength (encode f ++ extra) = len (Data f)).
  { pose proof (parse_encode f extra T HL) as P.
    apply (f_equal Length) in P. cbn in P. rewrite P. exact HL. }
  pose proof (len_nonneg (Data f)). pose proof (len_nonneg extra).
  destruct (len (encode f ++ extra) <? 60) eqn:E1; [lia|].
  rewrite HS.
  destruct (len (encode f ++ extra) <? 58 + len (Data f) + 12) eqn:E2; [lia|].
  rewrite parse_encode by assumption. reflexivity.
Qed.

(** C1. Round trip: for every well-formed frame [f] (both sentinels set,
    [Length] equal to the byte length of [Data], [CRC] equal to the recomputed
    checksum), [Serialize] returns a buffer, and [DeserializeTDMAFrame] of
    that buffer returns a frame equal to [f]; equality of the records is
    equality of all eleven fields. *)
Theorem roundtrip_well_formed f :
  frame_typed f -> well_formed f ->
  exists bytes,
    Serialize f = Ok bytes /\ DeserializeTDMAFrame bytes = Ok f.
Proof.
  intros T W. exists (encode f). split.
  - apply Serialize_encode; apply T.
  - rewrite <- (app_nil_r (encode f)).
    apply Deserialize_encode; [exact T | apply W].
Qed.

Lemma sample_typed : frame_typed (NewTDMAFrame 5 "GS1" [x01; x02; x03]).
Proof. split; vm_compute; first [reflexivity | split; [discriminate | reflexivity]]. Defined.

Lemma sample_well_formed : well_formed (NewTDMAFrame 5 "GS1" [x01; x02; x03]).
Proof. split; vm_compute; reflexivity. Defined.

Lemma roundtrip_well_formed_witness :
  exists bytes,
    Serialize (NewTDMAFrame 5 "GS1" [x01; x02; x03]) = Ok bytes /\
    DeserializeTDMAFrame bytes = Ok (NewTDMAFrame 5 "GS1" [x01; x02; x03]).
Proof.
  exact (roundtrip_well_formed _ sample_typed sample_well_formed).
Defined.


(** C3, counterexample. The frame with an empty payload is encoded in 70
    bytes, not 60; and a buffer of 65 bytes, which is below that fixed size,
    is not refused as too short but for its length field. *)
Lemma fixed_size_is_not_60 :
  Serialize (NewTDMAFrame 0 "" []) = Ok (encode (NewTDMAFrame 0 "" [])) /\
  len (encode (NewTDMAFrame 0 "" [])) = 70 /\
  len (encode (NewTDMAFrame 0 "" [])) <> 60 + len (Data (NewTDMAFrame 0 "" [])) /\
  DeserializeTDMAFrame (repeat x00 65) = Err ErrLengthMismatch.
Proof.
  repeat split; try (vm_compute; reflexivity). vm_compute. discriminate.
Qed.

(** C3, amended. The fixed part of an encoded frame is 70 bytes: for every
    frame [f], [Serialize f] has [70 + len (Data f)] bytes. Decoding refuses
    every buffer shorter than 70 bytes; the error is [ErrTooShort] for every
    buffer shorter than 60 bytes, and [ErrTooShort] is given to no buffer of
    70 bytes or more. *)
Theorem fixed_size_is_70 f data :
  frame_typed f ->
  (exists bytes, Serialize f = Ok bytes /\ len bytes = 70 + len (Data f)) /\
  (len data < 70 -> exists e, DeserializeTDMAFrame data = Err e) /\
  (len data < 60 -> DeserializeTDMAFrame data = Err ErrTooShort) /\
  (DeserializeTDMAFrame data = Err ErrTooShort -> len data < 70).
Proof.
  intros T. split; [|split; [|split]].
  - exists (encode f). split.
    + apply Serialize_encode; apply T.
    + apply encode_length; apply T.
  - intros H. rewrite Deserialize_cases.
    pose proof (storedLength_range data).
    destruct (len data <? 60); [eauto|].
    destruct (len data <? 58 + storedLength data + 12) eqn:E; [eauto|lia].
  - intros H. rewrite Deserialize_cases.
    destruct (len data <? 60) eqn:E; [reflexivity|lia].
  - rewrite Deserialize_cases.
    destruct (len data <? 60) eqn:E; [lia|].
    destruct (len data <? 58 + storedLength data + 12); discriminate.
Qed.

Lemma fixed_size_is_70_witness :
  (exists bytes, Serialize (NewTDMAFrame 5 "GS1" [x01; x02; x03]) = Ok bytes /\
                 len bytes = 70 + len (Data (NewTDMAFrame 5 "GS1" [x01; x02; x03]))) /\
  (exists e, DeserializeTDMAFrame (repeat x00 10) = Err e) /\
  DeserializeTDMAFrame (repeat x00 10) = Err ErrTooShort.
Proof.
  destruct (fixed_size_is_70 (NewTDMAFrame 5 "GS1" [x01; x02; x03])
              (repeat x00 10) sample_typed) as (H1 & H2 & H3 & _).
  split; [exact H1|]. split.
  - apply H2. vm_compute. reflexivity.
  - apply H3. vm_compute. reflexivity.
Defined.

(** ** Bytes after the frame *)

Lemma u32_of_skipn_app data extra a :
  (a + 4 <= length data)%nat ->
  u32_of (skipn a (data ++ extra)) = u32_of (skipn a data).
Proof.
  intros H. rewrite <- u32_of_firstn, <- (u32_of_firstn (skipn a data)).
  rewrite firstn_skipn_app by exact H. reflexivity.
Qed.

Lemma u16_of_skipn_app data extra a :
  (a + 2 <= length data)%nat ->
  u16_of (skipn a (data ++ extra)) = u16_of (skipn a data).
Proof.
  intros H. rewrite <- u16_of_firstn, <- (u16_of_firstn (skipn a data)).
  rewrite firstn_skipn_app by exact H. reflexivity.
Qed.

Lemma storedLength_app data extra :
  48 <= len data -> storedLength (data ++ extra) = storedLength data.
Proof.
  intros H. unfold storedLength. apply u32_of_skipn_app. unfold len in H. lia.
Qed.

Lemma parse_app data extra :
  58 + storedLength data + 12 <= len data ->
  parse (data ++ extra) = parse data.
Proof.
  intros H. pose proof (storedLength_range data) as R.
  unfold parse. cbv zeta. rewrite storedLength_app by lia.
  unfold len in H.
  rewrite !u32_of_skipn_app, !u16_of_skipn_app by lia.
  rewrite !firstn_skipn_app by lia.
  change (firstn 8 (data ++ extra)) with (firstn 8 (skipn 0 (data ++ extra))).
  rewrite (firstn_skipn_app data extra 0 8) by lia.
  reflexivity.
Qed.

Lemma Deserialize_app data extra :
  58 + storedLength data + 12 <= len data ->
  DeserializeTDMAFrame (data ++ extra) = Ok (parse data).
Proof.
  intros H. pose proof (storedLength_range data) as R.
  pose proof (len_nonneg extra).
  rewrite Deserialize_cases, storedLength_app, parse_app, len_app by lia.
  destruct (len data + len extra <? 60) eqn:E1; [lia|].
  destruct (len data + len extra <? 58 + storedLength data + 12) eqn:E2; [lia|].
  reflexivity.
Qed.

(** C10. Deserialization tolerates trailing bytes. For every buffer of at
    least 60 bytes whose stored length field [L] satisfies
    [58 + L + 12 <= len buffer], decoding succeeds, the payload of the frame
    has [L] bytes, and the bytes after the first [70 + L] play no part: the
    first [70 + L] bytes alone, and the buffer followed by any further bytes,
    decode to the same frame. An error is returned only to a buffer that is
    too short, [len buffer < 60] or [len buffer < 58 + L + 12], never to one
    that is longer than the frame it contains. *)
Theorem trailing_bytes_ignored data :
  (60 <= len data -> 58 + storedLength data + 12 <= len data ->
     DeserializeTDMAFrame data = Ok (parse data) /\
     len (Data (parse data)) = storedLength data /\
     DeserializeTDMAFrame (firstn (Z.to_nat (70 + storedLength data)) data)
       = Ok (parse data) /\
     forall extra, DeserializeTDMAFrame (data ++ extra) = Ok (parse data)) /\
  (forall e, DeserializeTDMAFrame data = Err e ->
     len data < 60 \/ len data < 58 + storedLength data + 12) /\
  DeserializeTDMAFrame data <> Panic.
Proof.
  pose proof (storedLength_range data) as R.
  split; [|split].
  - intros H60 HL. split; [|split; [|split]].
    + rewrite <- (app_nil_r data) at 1. apply Deserialize_app. exact HL.
    + unfold parse, len. cbn [Data]. rewrite length_firstn, length_skipn.
      unfold len in HL. lia.
    + set (n := Z.to_nat (70 + storedLength data)).
      assert (Hn : len (firstn n data) = 70 + storedLength data).
      { unfold len in *. rewrite length_firstn. lia. }
      assert (HS : storedLength (firstn n data) = storedLength data).
      { transitivity (storedLength (firstn n data ++ skipn n data)).
        - symmetry. apply storedLength_app. lia.
        - rewrite firstn_skipn. reflexivity. }
      assert (HP : parse (firstn n data) = parse data).
      { transitivity (parse (firstn n data ++ skipn n data)).
        - symmetry. apply parse_app. lia.
        - rewrite firstn_skipn. reflexivity. }
      rewrite <- HP, <- (app_nil_r (firstn n data)) at 1.
      apply Deserialize_app. lia.
    + intros extra. apply Deserialize_app. exact HL.
  - intros e. rewrite Deserialize_cases.
    destruct (len data <? 60) eqn:E1; [lia|].
    destruct (len data <? 58 + storedLength data + 12) eqn:E2; [lia|].
    discriminate.
  - rewrite Deserialize_cases.
    destruct (len data <? 60); [discriminate|].
    destruct (len data <? 58 + storedLength data + 12); discriminate.
Qed.

Lemma trailing_bytes_ignored_witness :
  DeserializeTDMAFrame (encode (NewTDMAFrame 5 "GS1" [x01; x02; x03]) ++ [xde; xad])
    = Ok (parse (encode (NewTDMAFrame 5 "GS1" [x01; x02; x03]) ++ [xde; xad])) /\
  parse (encode (NewTDMAFrame 5 "GS1" [x01; x02; x03]) ++ [xde; xad])
    = NewTDMAFrame 5 "GS1" [x01; x02; x03].
Proof.
  split.
  - apply (trailing_bytes_ignored
             (encode (NewTDMAFrame 5 "GS1" [x01; x02; x03]) ++ [xde; xad]));
      vm_compute; discriminate.
  - vm_compute. reflexivity.
Defined.

End CodecProps.

Module ValidateProps.
Import Go Protocol Wire GoFacts CodecFacts.

(** ** The checksum over a run of zero bytes *)

Lemma crcStep_zero c : crcStep c 0 = (c * 2) mod 2 ^ 32.
Proof.
  unfold crcStep, uint32. rewrite Z.lxor_0_r, Z.shiftl_mul_pow2 by lia.
  reflexivity.
Qed.

Lemma crcBytes_zeros n c :
  0 <= c < 2 ^ 32 ->
  crcBytes c (repeat x00 n) = (c * 2 ^ Z.of_nat n) mod 2 ^ 32.
Proof.
  revert c. induction n as [|n IH]; intros c Hc.
  - cbn [repeat crcBytes fold_left]. rewrite Z.pow_0_r, Z.mul_1_r, Z.mod_small; lia.
  - cbn [repeat]. unfold crcBytes. cbn [fold_left]. fold (crcBytes (crcStep c (byte.unsigned x00)) (repeat x00 n)).
    change (byte.unsigned x00) with 0. rewrite crcStep_zero.
    rewrite IH by (apply Z.mod_pos_bound; lia).
    rewrite Z.mul_mod_idemp_l by lia.
    rewrite Nat2Z.inj_succ, Z.pow_succ_r by lia.
    f_equal. ring.
Qed.

Lemma crcBytes_many_zeros n c :
  0 <= c < 2 ^ 32 -> (32 <= n)%nat -> crcBytes c (repeat x00 n) = 0.
Proof.
  intros Hc Hn. rewrite crcBytes_zeros by exact Hc.
  replace (Z.of_nat n) with (32 + (Z.of_nat n - 32)) by lia.
  rewrite Z.pow_add_r by lia.
  rewrite Z.mul_comm, <- Z.mul_assoc, Z.mul_comm.
  apply Z_mod_mult.
Qed.

(** A frame of the given payload with the sentinels set, [Length] and [CRC]
    zero. *)
Lemma Validate_zero_payload n :
  Z.of_nat n = 2 ^ 32 ->
  Validate (mkFrame FRAME_HEADER 0 (repeat x00 32) 0 0 1 0 0
                    (repeat x00 n) 0 FRAME_FOOTER) = None /\
  Length (mkFrame FRAME_HEADER 0 (repeat x00 32) 0 0 1 0 0
                  (repeat x00 n) 0 FRAME_FOOTER)
    <> len (repeat x00 n).
Proof.
  intros Hn. split.
  - unfold Validate. cbn [Header Footer CRC Length Data].
    change (bytes_eqb FRAME_HEADER FRAME_HEADER) with true.
    change (bytes_eqb FRAME_FOOTER FRAME_FOOTER) with true.
    cbn [negb]. unfold calculateCRC. cbn [Header SlotID TotalFrags FragIndex Flags Data].
    rewrite crcBytes_many_zeros.
    + cbn [Z.eqb negb]. unfold len. rewrite repeat_length, Hn.
      change (uint32 (2 ^ 32)) with 0. reflexivity.
    + vm_compute. split; [discriminate | reflexivity].
    + lia.
  - cbn [Length]. unfold len. rewrite repeat_length, Hn. discriminate.
Qed.

(** C7, counterexample. A frame with the sentinels set, a payload of 2^32
    zero bytes, and [Length] and [CRC] zero passes [Validate], yet its
    [Length] is not the byte length of its payload. *)
Lemma Validate_accepts_wrapped_length :
  Validate (mkFrame FRAME_HEADER 0 (repeat x00 32) 0 0 1 0 0
                    (repeat x00 (Z.to_nat (2 ^ 32))) 0 FRAME_FOOTER) = None /\
  Length (mkFrame FRAME_HEADER 0 (repeat x00 32) 0 0 1 0 0
                  (repeat x00 (Z.to_nat (2 ^ 32))) 0 FRAME_FOOTER)
    <> len (repeat x00 (Z.to_nat (2 ^ 32))).
Proof.
  apply Validate_zero_payload. apply Z2Nat.id. apply Z.pow_nonneg. lia.
Qed.

(** [Validate] returns nil exactly when its four checks pass. *)
Lemma Validate_None f :
  Validate f = None <->
  Header f = FRAME_HEADER /\ Footer f = FRAME_FOOTER /\
  calculateCRC f = CRC f /\ uint32 (len (Data f)) = Length f.
Proof.
  unfold Validate.
  destruct (bytes_eqb (Header f) FRAME_HEADER) eqn:EH; cbn [negb].
  2: { split; [discriminate|]. intros (C & _). apply bytes_eqb_eq in C. congruence. }
  destruct (bytes_eqb (Footer f) FRAME_FOOTER) eqn:EF; cbn [negb].
  2: { split; [discriminate|]. intros (_ & C & _). apply bytes_eqb_eq in C. congruence. }
  destruct (calculateCRC f =? CRC f) eqn:EC; cbn [negb].
  2: { split; [discriminate|]. intros (_ & _ & C & _). apply Z.eqb_eq in C. congruence. }
  destruct (uint32 (len (Data f)) =? Length f) eqn:EL; cbn [negb].
  2: { split; [discriminate|]. intros (_ & _ & _ & C). apply Z.eqb_eq in C. congruence. }
  apply bytes_eqb_eq in EH. apply bytes_eqb_eq in EF.
  apply Z.eqb_eq in EC. apply Z.eqb_eq in EL. tauto.
Qed.

Lemma errorText_inj e1 e2 : errorText e1 = errorText e2 -> e1 = e2.
Proof. destruct e1, e2; intros H; try reflexivity; discriminate H. Qed.

(** C7, amended. For every frame [f], [Validate f] succeeds if and only if
    the header is the header sentinel, the footer is the footer sentinel, the
    recomputed checksum is the stored one, and the [Length] field is the
    byte length of the payload reduced modulo 2^32, which is the byte length
    itself for every payload shorter than 2^32 bytes. The checks run in this
    order and the first that fails gives the error, one of four errors with
    four different texts. *)
Theorem Validate_iff f :
  (Validate f = None <->
     Header f = FRAME_HEADER /\ Footer f = FRAME_FOOTER /\
     calculateCRC f = CRC f /\ uint32 (len (Data f)) = Length f) /\
  (len (Data f) < 2 ^ 32 ->
     (uint32 (len (Data f)) = Length f <-> Length f = len (Data f))) /\
  (Validate f = Some ErrInvalidHeader <-> Header f <> FRAME_HEADER) /\
  (Validate f = Some ErrInvalidFooter <->
     Header f = FRAME_HEADER /\ Footer f <> FRAME_FOOTER) /\
  (Validate f = Some ErrChecksum <->
     Header f = FRAME_HEADER /\ Footer f = FRAME_FOOTER /\
     calculateCRC f <> CRC f) /\
  (Validate f = Some ErrLengthMismatch <->
     Header f = FRAME_HEADER /\ Footer f = FRAME_FOOTER /\
     calculateCRC f = CRC f /\ uint32 (len (Data f)) <> Length f) /\
  Validate f <> Some ErrTooShort /\
  (forall e1 e2, errorText e1 = errorText e2 -> e1 = e2).
Proof.
  assert (HL : len (Data f) < 2 ^ 32 ->
               (uint32 (len (Data f)) = Length f <-> Length f = len (Data f))).
  { intros H. rewrite uint32_small by (pose proof (len_nonneg (Data f)); lia).
    split; congruence. }
  unfold Validate.
  destruct (bytes_eqb (Header f) FRAME_HEADER) eqn:EH; cbn [negb].
  2: { assert (Header f <> FRAME_HEADER)
         by (intros C; apply bytes_eqb_eq in C; congruence).
       repeat split; try tauto; try discriminate; try apply errorText_inj;
         intros; tauto. }
  apply bytes_eqb_eq in EH.
  destruct (bytes_eqb (Footer f) FRAME_FOOTER) eqn:EF; cbn [negb].
  2: { assert (Footer f <> FRAME_FOOTER)
         by (intros C; apply bytes_eqb_eq in C; congruence).
       repeat split; try tauto; try discriminate; try apply errorText_inj;
         intros; tauto. }
  apply bytes_eqb_eq in EF.
  destruct (calculateCRC f =? CRC f) eqn:EC; cbn [negb].
  2: { apply Z.eqb_neq in EC.
       repeat split; try tauto; try discriminate; try apply errorText_inj;
         intros; tauto. }
  apply Z.eqb_eq in EC.
  destruct (uint32 (len (Data f)) =? Length f) eqn:EL; cbn [negb].
  2: { apply Z.eqb_neq in EL.
       repeat split; try tauto; try discriminate; try apply errorText_inj;
         intros; tauto. }
  apply Z.eqb_eq in EL.
  repeat split; try tauto; try discriminate; try apply errorText_inj;
    intros; tauto.
Qed.

Lemma Validate_iff_witness :
  uint32 (len (Data (NewTDMAFrame 5 "GS1" [x01; x02; x03])))
    = Length (NewTDMAFrame 5 "GS1" [x01; x02; x03])
  <-> Length (NewTDMAFrame 5 "GS1" [x01; x02; x03])
      = len (Data (NewTDMAFrame 5 "GS1" [x01; x02; x03])).
Proof.
  apply (Validate_iff (NewTDMAFrame 5 "GS1" [x01; x02; x03])).
  vm_compute. reflexivity.
Defined.

End ValidateProps.

Module ChecksumProps.
Import Go Protocol Wire GoFacts CodecFacts CodecProps ValidateProps.

Lemma calculateCRC_covered f g :
  Header f = Header g -> SlotID f = SlotID g -> TotalFrags f = TotalFrags g ->
  FragIndex f = FragIndex g -> Flags f = Flags g -> Data f = Data g ->
  calculateCRC f = calculateCRC g.
Proof.
  intros H1 H2 H3 H4 H5 H6. unfold calculateCRC.
  rewrite H1, H2, H3, H4, H5, H6. reflexivity.
Qed.

Lemma Validate_withNodeAndFragment f nodeID' fragmentID' :
  Validate (withNodeAndFragment f nodeID' fragmentID') = Validate f.
Proof. reflexivity. Qed.

Lemma overwrite_encode f nodeID' fragmentID' :
  length (Header f) = 8%nat -> length (NodeID f) = 32%nat ->
  overwriteNodeAndFragment (encode f) nodeID' fragmentID'
  = encode (withNodeAndFragment f nodeID' fragmentID').
Proof.
  intros Hh Hn. unfold overwriteNodeAndFragment, encode.
  cbn [Header SlotID NodeID Length FragmentID TotalFrags FragIndex Flags Data
       CRC Footer withNodeAndFragment].
  destruct (Header f) as [|h0 [|h1 [|h2 [|h3 [|h4 [|h5 [|h6 [|h7 [|]]]]]]]]];
    try discriminate Hh.
  remember (NodeID f) as n eqn:En. clear En. explode n Hn.
  unfold be32. cbn [app firstn skipn]. reflexivity.
Qed.

(** C9. The checksum does not read [NodeID], [Length] or [FragmentID]: two
    frames that agree on the header, [SlotID], [TotalFrags], [FragIndex],
    [Flags] and the payload have the same checksum. Hence replacing the
    [NodeID] and [FragmentID] of a frame leaves the verdict of [Validate]
    unchanged, and when bytes 12 to 43 and 48 to 51 of the encoding of a
    well-formed frame are overwritten in transit, the buffer still decodes,
    to a frame with the new [NodeID] and [FragmentID], and that frame passes
    [Validate]. *)
Theorem checksum_ignores_node_and_fragment f g nodeID' fragmentID' :
  (Header f = Header g -> SlotID f = SlotID g -> TotalFrags f = TotalFrags g ->
   FragIndex f = FragIndex g -> Flags f = Flags g -> Data f = Data g ->
   calculateCRC f = calculateCRC g) /\
  (Validate f = None ->
   Validate (withNodeAndFragment f nodeID' fragmentID') = None) /\
  (frame_typed f -> well_formed f ->
   length nodeID' = 32%nat -> 0 <= fragmentID' < 2 ^ 32 ->
   exists bytes,
     Serialize f = Ok bytes /\
     DeserializeTDMAFrame (overwriteNodeAndFragment bytes nodeID' fragmentID')
       = Ok (withNodeAndFragment f nodeID' fragmentID') /\
     Validate (withNodeAndFragment f nodeID' fragmentID') = None).
Proof.
  split; [apply calculateCRC_covered|]. split.
  - intros H. rewrite Validate_withNodeAndFragment. exact H.
  - intros T W Hn Hf. exists (encode f). split; [|split].
    + apply Serialize_encode; apply T.
    + rewrite overwrite_encode by apply T.
      rewrite <- (app_nil_r (encode _)).
      apply Deserialize_encode; [|apply W].
      destruct T. split; assumption.
    + rewrite Validate_withNodeAndFragment.
      apply Validate_None. destruct W as [W1 W2 W3 W4].
      repeat split; try assumption; try congruence.
      rewrite <- W3. apply uint32_small. apply T.
Qed.

Lemma checksum_ignores_node_and_fragment_witness :
  calculateCRC (NewTDMAFrame 5 "GS1" [x01; x02; x03])
    = calculateCRC (NewTDMAFrame 5 "GS2" [x01; x02; x03]) /\
  Validate (withNodeAndFragment (NewTDMAFrame 5 "GS1" [x01; x02; x03])
                                (repeat xff 32) 7) = None /\
  exists bytes,
    Serialize (NewTDMAFrame 5 "GS1" [x01; x02; x03]) = Ok bytes /\
    DeserializeTDMAFrame (overwriteNodeAndFragment bytes (repeat xff 32) 7)
      = Ok (withNodeAndFragment (NewTDMAFrame 5 "GS1" [x01; x02; x03])
                                (repeat xff 32) 7) /\
    Validate (withNodeAndFragment (NewTDMAFrame 5 "GS1" [x01; x02; x03])
                                  (repeat xff 32) 7) = None.
Proof.
  destruct (checksum_ignores_node_and_fragment
              (NewTDMAFrame 5 "GS1" [x01; x02; x03])
              (NewTDMAFrame 5 "GS2" [x01; x02; x03])
              (repeat xff 32) 7) as (H1 & H2 & H3).
  split; [apply H1; reflexivity|]. split.
  - apply H2. vm_compute. reflexivity.
  - apply H3; [exact sample_typed | exact sample_well_formed | reflexivity | lia].
Defined.

End ChecksumProps.

Module ClockProps.
Import Go Protocol GoFacts.

(** C4, counterexample. With a negative slot duration or a negative slot
    count the function returns a slot number, not an error; with a zero slot
    duration it panics; and for a clock reading before the epoch it returns
    the truncated quotient, 0, where the floor gives 9. *)
Lemma GetGlobalSlotID_no_validation :
  GetGlobalSlotID (TDMA_EPOCH + 5) (-1) 10 = Some (-5) /\
  GetGlobalSlotID (TDMA_EPOCH + 5) 1 (-10) = Some 5 /\
  GetGlobalSlotID (TDMA_EPOCH + 5) 0 10 = None /\
  GetGlobalSlotID (TDMA_EPOCH - 1) 2 10 = Some 0 /\
  ((TDMA_EPOCH - 1 - TDMA_EPOCH) / 2) mod 10 = 9.
Proof. repeat split; vm_compute; reflexivity. Qed.

(** C4, amended. For a positive slot duration, a positive slot count and a
    clock reading [now] at or after the epoch and within the range of a
    Duration from it, the slot number is
    [floor ((now - epoch) / slotDuration) mod totalSlots], a function of the
    clock reading and the two arguments alone, and lies in
    [0 .. totalSlots-1]. Nothing is validated and no error is returned: a
    zero slot duration or a zero slot count panics on the division, and
    every other configuration, negative ones included, yields a slot
    number. *)
Theorem GetGlobalSlotID_spec now slotDuration totalSlots :
  (0 < slotDuration -> 0 < totalSlots ->
   TDMA_EPOCH <= now -> now - TDMA_EPOCH <= maxInt64 ->
   GetGlobalSlotID now slotDuration totalSlots
     = Some (((now - TDMA_EPOCH) / slotDuration) mod totalSlots) /\
   0 <= ((now - TDMA_EPOCH) / slotDuration) mod totalSlots < totalSlots) /\
  GetGlobalSlotID now 0 totalSlots = None /\
  (slotDuration <> 0 -> GetGlobalSlotID now slotDuration 0 = None) /\
  (slotDuration <> 0 -> totalSlots <> 0 ->
   exists slot, GetGlobalSlotID now slotDuration totalSlots = Some slot).
Proof.
  split; [|split; [|split]].
  - intros Hd Hn He Hm. split; [|apply Z.mod_pos_bound; lia].
    unfold GetGlobalSlotID, Sub, quo, rem, minInt64, maxInt64 in *.
    destruct (now - TDMA_EPOCH <? - 2 ^ 63) eqn:E1; [lia|].
    destruct (2 ^ 63 - 1 <? now - TDMA_EPOCH) eqn:E2; [lia|].
    destruct (slotDuration =? 0) eqn:E3; [lia|].
    destruct (totalSlots =? 0) eqn:E4; [lia|].
    rewrite Z.quot_div_nonneg by lia.
    assert (0 <= (now - TDMA_EPOCH) / slotDuration <= now - TDMA_EPOCH).
    { split; [apply Z.div_pos; lia|].
      apply Z.div_le_upper_bound; nia. }
    rewrite int64_small by lia.
    rewrite Z.rem_mod_nonneg by lia. reflexivity.
  - unfold GetGlobalSlotID, quo. reflexivity.
  - intros Hd. unfold GetGlobalSlotID, quo, rem.
    destruct (slotDuration =? 0) eqn:E3; [lia|]. reflexivity.
  - intros Hd Hn. unfold GetGlobalSlotID, quo, rem.
    destruct (slotDuration =? 0) eqn:E3; [lia|].
    destruct (totalSlots =? 0) eqn:E4; [lia|]. eauto.
Qed.

Lemma GetGlobalSlotID_spec_witness :
  GetGlobalSlotID (TDMA_EPOCH + 25000000003) 1000000000 10
    = Some (((TDMA_EPOCH + 25000000003 - TDMA_EPOCH) / 1000000000) mod 10) /\
  0 <= ((TDMA_EPOCH + 25000000003 - TDMA_EPOCH) / 1000000000) mod 10 < 10.
Proof.
  apply (GetGlobalSlotID_spec (TDMA_EPOCH + 25000000003) 1000000000 10);
    vm_compute; first [reflexivity | discriminate].
Defined.

End ClockProps.

Module FragmentProps.
Import Go Protocol GoFacts Fragmenter.










End FragmentProps.

(* ===================================================================== *)
(** * The scheduler *)
(* ===================================================================== *)

Module SchedulerFacts.
Import Go Scheduler GoFacts.

Lemma withSlots_same s : withSlots s (slots s) = s.
Proof. destruct s. reflexivity. Qed.

Lemma free_eqb st : String.eqb (Status st) "FREE" = true <-> Status st = "FREE"%string.
Proof. apply String.eqb_eq. Qed.

Lemma expire_free st : Status (expire st) = "FREE"%string.
Proof. reflexivity. Qed.

Lemma assign_assign nodeID now st :
  assign nodeID now (assign nodeID now st) = assign nodeID now st.
Proof. reflexivity. Qed.

(** Updating a record that is in the table does not change the set of keys. *)
Lemma keys_insert (m : gmap Z SlotStatus) i st st' k :
  m !! i = Some st -> (is_Some (<[i := st']> m !! k) <-> is_Some (m !! k)).
Proof.
  intros H. destruct (decide (i = k)) as [->|Hne].
  - rewrite lookup_insert_eq, H. split; eauto.
  - rewrite lookup_insert_ne by exact Hne. reflexivity.
Qed.

Lemma same_keys_refl m : same_keys m m.
Proof. intros k. reflexivity. Qed.

Lemma same_keys_insert m m' i st st' :
  same_keys m m' -> m' !! i = Some st -> same_keys m (<[i := st']> m').
Proof.
  intros H Hi k. rewrite (keys_insert m' i st st' k Hi). apply H.
Qed.

(** ** The first loop of [AllocateTimeSlot] *)

Lemma ownedLoop_keys nodeID now dur idx m :
  match ownedLoop nodeID now dur idx m with
  | Return _ m' | Next m' => same_keys m m'
  | Crash => True
  end.
Proof.
  revert m. induction idx as [|i idx IH]; intros m; cbn [ownedLoop].
  - apply same_keys_refl.
  - destruct (m !! i) as [st|] eqn:Ei; [|exact I].
    destruct (String.eqb (NodeID st) nodeID && String.eqb (Status st) "ASSIGNED").
    + destruct (Sub now (StartTime st) <? int64 (dur * 10)).
      * apply same_keys_refl.
      * specialize (IH (<[i := expire st]> m)).
        destruct (ownedLoop nodeID now dur idx (<[i := expire st]> m));
          try exact I; intros k; rewrite (IH k); eapply keys_insert; eassumption.
    + apply IH.
Qed.

(** When the first loop falls through, either it changed nothing or it left
    a free slot behind. *)
Lemma ownedLoop_Next nodeID now dur idx m m' :
  ownedLoop nodeID now dur idx m = Next m' ->
  m' = m \/ exists i st, i ∈ idx /\ m' !! i = Some st /\ Status st = "FREE"%string.
Proof.
  revert m. induction idx as [|i idx IH]; intros m; cbn [ownedLoop].
  - intros [= <-]. left. reflexivity.
  - destruct (m !! i) as [st|] eqn:Ei; [|discriminate].
    destruct (String.eqb (NodeID st) nodeID && String.eqb (Status st) "ASSIGNED").
    + destruct (Sub now (StartTime st) <? int64 (dur * 10)); [discriminate|].
      intros H. right. destruct (IH _ H) as [->|(j & st' & Hj & Hl & Hf)].
      * exists i, (expire st). rewrite lookup_insert_eq.
        split; [left|split]; reflexivity.
      * exists j, st'. split; [right; exact Hj|]. split; assumption.
    + intros H. destruct (IH _ H) as [->|(j & st' & Hj & Hl & Hf)].
      * left. reflexivity.
      * right. exists j, st'. split; [right; exact Hj|]. split; assumption.
Qed.

(** A table in which the node holds no assigned slot passes the first loop
    unchanged. *)
Lemma ownedLoop_none nodeID now dur idx m :
  (forall i, i ∈ idx -> exists st, m !! i = Some st /\
      (NodeID st <> nodeID \/ Status st <> "ASSIGNED"%string)) ->
  ownedLoop nodeID now dur idx m = Next m.
Proof.
  induction idx as [|i idx IH]; intros H; cbn [ownedLoop]; [reflexivity|].
  destruct (H i ltac:(left)) as (st & -> & Hst).
  assert (E : String.eqb (NodeID st) nodeID && String.eqb (Status st) "ASSIGNED" = false).
  { apply andb_false_iff. destruct Hst as [Hn|Hs]; [left|right];
      apply String.eqb_neq; assumption. }
  rewrite E. apply IH. intros j Hj. apply H. right. exact Hj.
Qed.

(** ** The scan from two positions after the pointer *)

Lemma scanLoop_Next nodeID now cur total offs m m' :
  scanLoop nodeID now cur total offs m = Next m' ->
  m' = m /\
  forall off, off ∈ offs ->
    exists k st, rem (int64 (cur + off)) total = Some k /\
                 m !! k = Some st /\ Status st <> "FREE"%string.
Proof.
  induction offs as [|o offs IH]; cbn [scanLoop].
  - intros [= <-]. split; [reflexivity|]. intros off Hoff. inversion Hoff.
  - destruct (rem (int64 (cur + o)) total) as [k|] eqn:Ek; [|discriminate].
    destruct (m !! k) as [st|] eqn:Em; [|discriminate].
    destruct (String.eqb (Status st) "FREE") eqn:Es; [discriminate|].
    intros H. destruct (IH H) as [-> Hall]. split; [reflexivity|].
    intros off Hoff. apply elem_of_cons in Hoff. destruct Hoff as [->|Hoff].
    + exists k, st. split; [exact Ek|]. split; [exact Em|].
      apply String.eqb_neq. exact Es.
    + apply Hall. exact Hoff.
Qed.

Lemma scanLoop_keys nodeID now cur total offs m :
  match scanLoop nodeID now cur total offs m with
  | Return _ m' | Next m' => same_keys m m'
  | Crash => True
  end.
Proof.
  induction offs as [|o offs IH]; cbn [scanLoop].
  - apply same_keys_refl.
  - destruct (rem (int64 (cur + o)) total) as [k|]; [|exact I].
    destruct (m !! k) as [st|] eqn:Em; [|exact I].
    destruct (String.eqb (Status st) "FREE").
    + eapply same_keys_insert; [apply same_keys_refl | exact Em].
    + exact IH.
Qed.

Lemma rem_in_range a n : 0 <= a < 2 ^ 63 -> 0 < n -> rem (int64 a) n = Some (a mod n).
Proof.
  intros Ha Hn. unfold rem. destruct (n =? 0) eqn:E; [lia|].
  rewrite int64_small by lia. rewrite Z.rem_mod_nonneg by lia. reflexivity.
Qed.

(** The pointer, its successor and the scan visit every slot of the ring. *)
Lemma ring_covered cur n i :
  0 < n -> 0 <= cur < n -> 0 <= i < n ->
  i = cur \/ i = (cur + 1) mod n \/
  exists off, 2 <= off < n /\ i = (cur + off) mod n.
Proof.
  intros Hn Hc Hi.
  assert (E : (cur + (i - cur) mod n) mod n = i).
  { rewrite Z.add_mod_idemp_r by lia.
    replace (cur + (i - cur)) with i by lia. apply Z.mod_small. lia. }
  pose proof (Z.mod_pos_bound (i - cur) n Hn) as B.
  destruct (Z.eq_dec ((i - cur) mod n) 0) as [E0|N0].
  - left. rewrite E0, Z.add_0_r, Z.mod_small in E by lia. lia.
  - destruct (Z.eq_dec ((i - cur) mod n) 1) as [E1|N1].
    + right. left. rewrite E1 in E. lia.
    + right. right. exists ((i - cur) mod n). split; [lia|]. lia.
Qed.

End SchedulerFacts.

Module AllocateProps.
Import Go Scheduler GoFacts SchedulerFacts.

Lemma same_frame_ok s s' : same_frame s s' -> sched_ok s -> sched_ok s'.
Proof.
  intros (K & N & C & _) [k1 k2 k3]. split.
  - intros i. rewrite (K i), N. apply k1.
  - rewrite N. exact k2.
  - rewrite N, C. exact k3.
Qed.

Lemma same_frame_withSlots s m : same_keys (slots s) m -> same_frame s (withSlots s m).
Proof. intros K. repeat split; try reflexivity; apply K. Qed.

Lemma AllocateTimeSlot_frame s nodeID priority now r s' :
  AllocateTimeSlot s nodeID priority now = Some (r, s') -> same_frame s s'.
Proof.
  unfold AllocateTimeSlot.
  pose proof (ownedLoop_keys nodeID now (slotDuration s) (seqZ 0 (totalSlots s)) (slots s)) as K1.
  destruct (ownedLoop nodeID now (slotDuration s) (seqZ 0 (totalSlots s)) (slots s))
    as [i m|m|]; [|  |discriminate].
  { intros [= <- <-]. apply same_frame_withSlots. exact K1. }
  destruct (rem (int64 (currentSlot s + 1)) (totalSlots s)) as [nextSlot|]; [|discriminate].
  destruct (m !! currentSlot s) as [st|] eqn:Ec; [|discriminate].
  destruct (String.eqb (Status st) "FREE").
  { intros [= <- <-]. apply same_frame_withSlots.
    eapply same_keys_insert; eassumption. }
  destruct (m !! nextSlot) as [st'|] eqn:En; [|discriminate].
  destruct (String.eqb (Status st') "FREE").
  { intros [= <- <-]. apply same_frame_withSlots.
    eapply same_keys_insert; eassumption. }
  pose proof (scanLoop_keys nodeID now (currentSlot s) (totalSlots s)
                (seqZ 2 (totalSlots s - 2)) m) as K2.
  destruct (scanLoop nodeID now (currentSlot s) (totalSlots s)
              (seqZ 2 (totalSlots s - 2)) m) as [k m'|m'|]; [| |discriminate].
  { intros [= <- <-]. apply same_frame_withSlots.
    intros j. rewrite (K2 j). apply K1. }
  assert (K3 : same_keys (slots s) m') by (intros j; rewrite (K2 j); apply K1).
  destruct (oldestLoop (seqZ 0 (totalSlots s)) m' (-1, now)) as [[oldestSlot oldestTime]|];
    [|discriminate].
  destruct (negb (oldestSlot =? -1) && (Sub now oldestTime >? int64 (slotDuration s * 5))).
  - destruct (m' !! oldestSlot) as [o|] eqn:Eo; [|discriminate].
    intros [= <- <-]. apply same_frame_withSlots.
    eapply same_keys_insert; eassumption.
  - intros [= <- <-]. apply same_frame_withSlots. exact K3.
Qed.

(** C5. For every scheduler state and every node, if [AllocateTimeSlot]
    returns an error, then the error is the one for no available slot, the
    returned slot number is -1, and the scheduler after the call, its whole
    table included (status, owner and timestamp of every slot), is the
    scheduler before the call. *)
Theorem failed_allocation_changes_nothing s nodeID priority now slotID e s' :
  sched_ok s ->
  AllocateTimeSlot s nodeID priority now = Some ((slotID, Some e), s') ->
  s' = s /\ e = ErrNoSlot /\ slotID = -1.
Proof.
  intros [k1 k2 k3]. unfold AllocateTimeSlot.
  pose proof (ownedLoop_keys nodeID now (slotDuration s) (seqZ 0 (totalSlots s)) (slots s)) as K1.
  destruct (ownedLoop nodeID now (slotDuration s) (seqZ 0 (totalSlots s)) (slots s))
    as [i m|m|] eqn:EO; [discriminate| |discriminate].
  destruct (rem (int64 (currentSlot s + 1)) (totalSlots s)) as [nextSlot|] eqn:Er;
    [|discriminate].
  destruct (m !! currentSlot s) as [st|] eqn:Ec; [|discriminate].
  destruct (String.eqb (Status st) "FREE") eqn:Fc; [discriminate|].
  destruct (m !! nextSlot) as [st'|] eqn:En; [|discriminate].
  destruct (String.eqb (Status st') "FREE") eqn:Fn; [discriminate|].
  destruct (scanLoop nodeID now (currentSlot s) (totalSlots s)
              (seqZ 2 (totalSlots s - 2)) m) as [k m'|m'|] eqn:ES;
    [discriminate| |discriminate].
  destruct (oldestLoop (seqZ 0 (totalSlots s)) m' (-1, now)) as [[oldestSlot oldestTime]|];
    [|discriminate].
  destruct (negb (oldestSlot =? -1) && (Sub now oldestTime >? int64 (slotDuration s * 5))).
  { destruct (m' !! oldestSlot); discriminate. }
  intros [= <- <- <-]. split; [|split; reflexivity].
  apply scanLoop_Next in ES. destruct ES as [-> Hscan].
  apply ownedLoop_Next in EO. destruct EO as [->|(i & fs & Hi & Hl & Hf)].
  { apply withSlots_same. }
  exfalso. apply elem_of_seqZ in Hi.
  assert (Hn : 0 < totalSlots s) by lia.
  specialize (k3 Hn).
  apply String.eqb_neq in Fc. apply String.eqb_neq in Fn.
  destruct (ring_covered (currentSlot s) (totalSlots s) i Hn k3 ltac:(lia))
    as [->|[->|(off & Hoff & ->)]].
  - congruence.
  - rewrite rem_in_range in Er by lia. congruence.
  - destruct (Hscan off) as (k & st2 & Ek & Em & Es).
    { apply elem_of_seqZ. lia. }
    rewrite rem_in_range in Ek by lia. congruence.
Qed.


(** ** States the program reaches *)

Lemma fold_insert_lookup (g : Z -> SlotStatus) idx (m0 : gmap Z SlotStatus) k :
  fold_left (fun (m : gmap Z SlotStatus) i => <[i := g i]> m) idx m0 !! k
  = if decide (k ∈ idx) then Some (g k) else m0 !! k.
Proof.
  revert m0. induction idx as [|i idx IH]; intros m0; cbn [fold_left].
  - destruct (decide (k ∈ [])) as [H|_]; [inversion H|reflexivity].
  - rewrite IH. destruct (decide (k ∈ idx)) as [H|H].
    + rewrite decide_True by (right; exact H). reflexivity.
    + destruct (decide (k = i)) as [->|Hne].
      * rewrite decide_True by left. apply lookup_insert_eq.
      * rewrite decide_False by (intros C; apply elem_of_cons in C; tauto).
        apply lookup_insert_ne. congruence.
Qed.

Lemma NewTDMAScheduler_lookup n d now k :
  slots (NewTDMAScheduler n d now) !! k
  = if decide (0 <= k < n) then Some (mkSlot k "" "FREE" zeroTime d 0) else None.
Proof.
  unfold NewTDMAScheduler. cbn [slots].
  rewrite (fold_insert_lookup (fun i => mkSlot i "" "FREE" zeroTime d 0)).
  destruct (decide (k ∈ seqZ 0 n)) as [H|H]; rewrite elem_of_seqZ in H.
  - rewrite decide_True by lia. reflexivity.
  - rewrite decide_False by lia. apply lookup_empty.
Qed.

(** The constructor establishes the invariant, with every slot free. *)
Lemma NewTDMAScheduler_ok n d now :
  n < 2 ^ 62 ->
  sched_ok (NewTDMAScheduler n d now) /\
  forall k, 0 <= k < n -> slotFree (NewTDMAScheduler n d now) k.
Proof.
  intros Hn. split; [split|].
  - intros i. rewrite NewTDMAScheduler_lookup. cbn [totalSlots NewTDMAScheduler].
    destruct (decide (0 <= i < n)); split; intros H; try lia; eauto.
    destruct H as [? H]. discriminate H.
  - exact Hn.
  - cbn. lia.
  - intros k Hk. unfold slotFree. rewrite NewTDMAScheduler_lookup.
    rewrite decide_True by lia. eauto.
Qed.

Lemma stateOf_AllocateTimeSlot_ok s nodeID priority now :
  sched_ok s -> sched_ok (stateOf (AllocateTimeSlot s nodeID priority now) s).
Proof.
  intros H. destruct (AllocateTimeSlot s nodeID priority now) as [[r s']|] eqn:E;
    cbn [stateOf]; [|exact H].
  eapply same_frame_ok; [eapply AllocateTimeSlot_frame; exact E | exact H].
Qed.

Lemma ReleaseTimeSlot_frame s slotID r s' :
  ReleaseTimeSlot s slotID = Some (r, s') -> same_frame s s'.
Proof.
  unfold ReleaseTimeSlot.
  destruct ((slotID <? 0) || (slotID >=? totalSlots s)).
  - intros [= <- <-]. repeat split; try reflexivity; apply same_keys_refl.
  - destruct (slots s !! slotID) as [st|] eqn:E; [|discriminate].
    intros [= <- <-]. apply same_frame_withSlots.
    eapply same_keys_insert; [apply same_keys_refl | exact E].
Qed.

Lemma tick_ok s s' : sched_ok s -> tick s = Some s' -> sched_ok s'.
Proof.
  intros [k1 k2 k3]. unfold tick, rem.
  destruct (totalSlots s =? 0) eqn:E0; [discriminate|].
  intros [= <-]. split; cbn; [exact k1 | exact k2 |].
  intros Hn. specialize (k3 Hn). rewrite int64_small by lia.
  rewrite Z.rem_mod_nonneg by lia. apply Z.mod_pos_bound. lia.
Qed.

Lemma failed_allocation_changes_nothing_witness :
  exists s s',
    sched_ok s /\
    AllocateTimeSlot s "C" 1 1 = Some ((-1, Some ErrNoSlot), s') /\
    s' = s.
Proof.
  set (s0 := NewTDMAScheduler 2 1000000000 0).
  set (s1 := stateOf (AllocateTimeSlot s0 "A" 1 0) s0).
  set (s2 := stateOf (AllocateTimeSlot s1 "B" 1 0) s1).
  assert (Hok : sched_ok s2).
  { apply stateOf_AllocateTimeSlot_ok, stateOf_AllocateTimeSlot_ok.
    apply NewTDMAScheduler_ok. lia. }
  assert (Hrun : AllocateTimeSlot s2 "C" 1 1
                 = Some ((-1, Some ErrNoSlot), stateOf (AllocateTimeSlot s2 "C" 1 1) s2))
    by (vm_compute; reflexivity).
  exists s2, (stateOf (AllocateTimeSlot s2 "C" 1 1) s2).
  split; [exact Hok|]. split; [exact Hrun|].
  exact (proj1 (failed_allocation_changes_nothing s2 "C" 1 1 (-1) ErrNoSlot _ Hok Hrun)).
Defined.

End AllocateProps.

Module ScenarioProps.
Import Go Scheduler GoFacts SchedulerFacts AllocateProps.

(** Step 3 of the policy: a node that holds no slot gets the slot at the
    pointer when that slot is free. *)
Lemma AllocateTimeSlot_current s nodeID priority now st :
  totalSlots s <> 0 ->
  (forall i, i ∈ seqZ 0 (totalSlots s) -> exists st', slots s !! i = Some st' /\
      (NodeID st' <> nodeID \/ Status st' <> "ASSIGNED"%string)) ->
  slots s !! currentSlot s = Some st -> Status st = "FREE"%string ->
  AllocateTimeSlot s nodeID priority now
  = Some ((currentSlot s, None),
          withSlots s (<[currentSlot s := assign nodeID now st]> (slots s))).
Proof.
  intros Hn Hown Hc Hf. unfold AllocateTimeSlot.
  rewrite ownedLoop_none by exact Hown.
  unfold rem. destruct (totalSlots s =? 0) eqn:E; [lia|].
  rewrite Hc. apply String.eqb_eq in Hf. rewrite Hf. reflexivity.
Qed.

(** Step 4 of the policy: when the slot at the pointer is taken, the next
    slot of the ring is given if it is free. *)
Lemma AllocateTimeSlot_next s nodeID priority now st st' nextSlot :
  rem (int64 (currentSlot s + 1)) (totalSlots s) = Some nextSlot ->
  (forall i, i ∈ seqZ 0 (totalSlots s) -> exists st', slots s !! i = Some st' /\
      (NodeID st' <> nodeID \/ Status st' <> "ASSIGNED"%string)) ->
  slots s !! currentSlot s = Some st -> Status st <> "FREE"%string ->
  slots s !! nextSlot = Some st' -> Status st' = "FREE"%string ->
  AllocateTimeSlot s nodeID priority now
  = Some ((nextSlot, None),
          withSlots s (<[nextSlot := assign nodeID now st']> (slots s))).
Proof.
  intros Hr Hown Hc Hnf Hn Hf. unfold AllocateTimeSlot.
  rewrite ownedLoop_none by exact Hown.
  rewrite Hr, Hc. apply String.eqb_neq in Hnf. rewrite Hnf.
  rewrite Hn. apply String.eqb_eq in Hf. rewrite Hf. reflexivity.
Qed.

(** C2. On a scheduler with 10 slots, a slot duration of one second, the
    pointer at 3 and every slot free, allocating for "A" returns slot 3, then
    allocating for "B" returns slot 4, and after releasing slot 3 allocating
    for "C" returns slot 3 again; whatever the clock reads at each call. *)
Theorem scenario_3_4_3 s t1 t2 t3 :
  sched_ok s -> totalSlots s = 10 -> slotDuration s = 1000000000 ->
  currentSlot s = 3 -> (forall i, 0 <= i < 10 -> slotFree s i) ->
  exists s1 s2 s3 s4,
    AllocateTimeSlot s "A" 1 t1 = Some ((3, None), s1) /\
    AllocateTimeSlot s1 "B" 1 t2 = Some ((4, None), s2) /\
    ReleaseTimeSlot s2 3 = Some (None, s3) /\
    AllocateTimeSlot s3 "C" 1 t3 = Some ((3, None), s4).
Proof.
  intros Hok HN Hd Hcur Hfree.
  destruct (Hfree 3 ltac:(lia)) as (st3 & E3 & F3).
  destruct (Hfree 4 ltac:(lia)) as (st4 & E4 & F4).
  set (m1 := <[3 := assign "A" t1 st3]> (slots s)).
  set (m2 := <[4 := assign "B" t2 st4]> m1).
  set (m3 := <[3 := reset (assign "A" t1 st3)]> m2).
  set (m4 := <[3 := assign "C" t3 (reset (assign "A" t1 st3))]> m3).
  exists (withSlots s m1), (withSlots s m2), (withSlots s m3), (withSlots s m4).
  split; [|split; [|split]].
  - rewrite <- Hcur at 1. unfold m1. rewrite <- Hcur at 1.
    apply AllocateTimeSlot_current.
    + lia.
    + rewrite HN. intros i Hi. apply elem_of_seqZ in Hi.
      destruct (Hfree i ltac:(lia)) as (st & E & F).
      exists st. split; [exact E|]. right. rewrite F. discriminate.
    + rewrite Hcur. exact E3.
    + exact F3.
  - apply (AllocateTimeSlot_next (withSlots s m1) "B" 1 t2 (assign "A" t1 st3) st4 4).
    + cbn [currentSlot totalSlots withSlots]. rewrite Hcur, HN. reflexivity.
    + cbn [totalSlots slots withSlots]. rewrite HN. intros i Hi.
      apply elem_of_seqZ in Hi. unfold m1.
      destruct (decide (i = 3)) as [->|Hne].
      * rewrite lookup_insert_eq. eexists. split; [reflexivity|].
        left. discriminate.
      * rewrite lookup_insert_ne by congruence.
        destruct (Hfree i ltac:(lia)) as (st & E & F).
        exists st. split; [exact E|]. right. rewrite F. discriminate.
    + cbn [currentSlot slots withSlots]. rewrite Hcur. apply lookup_insert_eq.
    + discriminate.
    + cbn [slots withSlots]. unfold m1. rewrite lookup_insert_ne by lia. exact E4.
    + exact F4.
  - unfold ReleaseTimeSlot. cbn [totalSlots slots withSlots]. rewrite HN.
    change ((3 <? 0) || (3 >=? 10)) with false. cbv iota.
    unfold m2 at 1. rewrite lookup_insert_ne by lia.
    unfold m1 at 1. rewrite lookup_insert_eq. reflexivity.
  - assert (E : AllocateTimeSlot (withSlots s m3) "C" 1 t3
                = Some ((currentSlot (withSlots s m3), None),
                        withSlots (withSlots s m3)
                          (<[currentSlot (withSlots s m3)
                             := assign "C" t3 (reset (assign "A" t1 st3))]>
                             (slots (withSlots s m3))))).
    { apply AllocateTimeSlot_current.
      + cbn [totalSlots withSlots]. lia.
      + cbn [totalSlots slots withSlots]. rewrite HN. intros i Hi.
        apply elem_of_seqZ in Hi. unfold m3.
        destruct (decide (i = 3)) as [->|Hne3].
        * rewrite lookup_insert_eq. eexists. split; [reflexivity|].
          right. discriminate.
        * rewrite lookup_insert_ne by congruence. unfold m2.
          destruct (decide (i = 4)) as [->|Hne4].
          -- rewrite lookup_insert_eq. eexists. split; [reflexivity|].
             left. discriminate.
          -- rewrite lookup_insert_ne by congruence. unfold m1.
             rewrite lookup_insert_ne by congruence.
             destruct (Hfree i ltac:(lia)) as (st & E & F).
             exists st. split; [exact E|]. right. rewrite F. discriminate.
      + cbn [currentSlot slots withSlots]. rewrite Hcur. apply lookup_insert_eq.
      + reflexivity. }
    rewrite E. cbn [currentSlot slots withSlots totalSlots slotDuration startTime].
    rewrite Hcur. reflexivity.
Qed.

(** The scheduler of the scenario: a new one of 10 slots and one second per
    slot, after three turns of the schedule loop. *)
Lemma three_ticks :
  exists a b c,
    tick (NewTDMAScheduler 10 1000000000 0) = Some a /\ tick a = Some b /\
    tick b = Some c /\ c = withCurrent (NewTDMAScheduler 10 1000000000 0) 3.
Proof.
  do 3 eexists. repeat split; reflexivity.
Qed.

Lemma scenario_3_4_3_witness :
  exists s1 s2 s3 s4,
    AllocateTimeSlot (withCurrent (NewTDMAScheduler 10 1000000000 0) 3) "A" 1 7
      = Some ((3, None), s1) /\
    AllocateTimeSlot s1 "B" 1 8 = Some ((4, None), s2) /\
    ReleaseTimeSlot s2 3 = Some (None, s3) /\
    AllocateTimeSlot s3 "C" 1 9 = Some ((3, None), s4).
Proof.
  apply (scenario_3_4_3 (withCurrent (NewTDMAScheduler 10 1000000000 0) 3) 7 8 9).
  - destruct (NewTDMAScheduler_ok 10 1000000000 0 ltac:(lia)) as [[k1 k2 k3] _].
    split; cbn; [exact k1 | lia | lia].
  - reflexivity.
  - reflexivity.
  - reflexivity.
  - intros i Hi.
    destruct (NewTDMAScheduler_ok 10 1000000000 0 ltac:(lia)) as [_ F].
    exact (F i Hi).
Defined.

End ScenarioProps.

Module ConsecutiveProps.
Import Go Scheduler GoFacts SchedulerFacts AllocateProps.

Lemma windowFree_spec m i js :
  (forall j, j ∈ js -> is_Some (m !! int64 (i + j))) ->
  exists b, windowFree m i js = Some b /\ (b = true <-> allFree m i js).
Proof.
  induction js as [|j js IH]; intros K; cbn [windowFree].
  - exists true. split; [reflexivity|]. split; [|reflexivity].
    intros _ j Hj. inversion Hj.
  - destruct (K j ltac:(left)) as [st Est]. rewrite Est.
    destruct (String.eqb (Status st) "FREE") eqn:Es; cbn [negb].
    + destruct IH as (b & Eb & Hb); [intros j' Hj'; apply K; right; exact Hj'|].
      exists b. split; [exact Eb|]. rewrite Hb. apply String.eqb_eq in Es.
      split.
      * intros H j' Hj'. apply elem_of_cons in Hj'. destruct Hj' as [->|Hj'].
        -- exists st. split; assumption.
        -- apply H. exact Hj'.
      * intros H j' Hj'. apply H. right. exact Hj'.
    + exists false. split; [reflexivity|]. split; [discriminate|].
      intros H. destruct (H j ltac:(left)) as (st' & Est' & Fst').
      apply String.eqb_neq in Es. congruence.
Qed.

Lemma assignWindow_spec nodeID now i js m ids :
  (forall j, j ∈ js -> is_Some (m !! int64 (i + j))) ->
  exists m',
    assignWindow nodeID now i js m ids = Some (m', ids ++ window i js) /\
    forall k, m' !! k = if decide (k ∈ window i js)
                        then assign nodeID now <$> m !! k else m !! k.
Proof.
  revert m ids. induction js as [|j js IH]; intros m ids K; cbn [assignWindow window map].
  - exists m. rewrite app_nil_r. split; [reflexivity|].
    intros k. rewrite decide_False by (intros C; inversion C). reflexivity.
  - destruct (K j ltac:(left)) as [st Est]. rewrite Est.
    destruct (IH (<[int64 (i + j) := assign nodeID now st]> m)
                 (ids ++ [int64 (i + j)])) as (m' & Em' & Hm').
    { intros j' Hj'. eapply keys_insert; [exact Est|]. apply K. right. exact Hj'. }
    exists m'. split.
    + rewrite Em'. rewrite <- app_assoc. reflexivity.
    + intros k. rewrite Hm'. fold (window i js).
      destruct (decide (k ∈ int64 (i + j) :: window i js)) as [Hin|Hnin].
      * destruct (decide (k = int64 (i + j))) as [->|Hne].
        -- rewrite lookup_insert_eq, Est.
           destruct (decide (int64 (i + j) ∈ window i js)); reflexivity.
        -- apply elem_of_cons in Hin. destruct Hin as [?|Hin]; [congruence|].
           rewrite decide_True by exact Hin.
           rewrite lookup_insert_ne by congruence. reflexivity.
      * assert (k <> int64 (i + j)) by (intros ->; apply Hnin; left).
        assert (k ∉ window i js) by (intros C; apply Hnin; right; exact C).
        rewrite decide_False by assumption.
        rewrite lookup_insert_ne by congruence. reflexivity.
Qed.

(** The outer loop stops at the first index whose window is free, and
    changes nothing when there is none. *)
Lemma consecutiveLoop_spec nodeID now count idx s :
  (forall i j, i ∈ idx -> j ∈ seqZ 0 count -> is_Some (slots s !! int64 (i + j))) ->
  (exists pre i post m',
      idx = pre ++ i :: post /\
      (forall i', i' ∈ pre -> ~ allFree (slots s) i' (seqZ 0 count)) /\
      allFree (slots s) i (seqZ 0 count) /\
      (forall k, m' !! k = if decide (k ∈ window i (seqZ 0 count))
                           then assign nodeID now <$> slots s !! k
                           else slots s !! k) /\
      consecutiveLoop nodeID now count idx s
      = Some ((window i (seqZ 0 count), None), withSlots s m'))
  \/ ((forall i, i ∈ idx -> ~ allFree (slots s) i (seqZ 0 count)) /\
      consecutiveLoop nodeID now count idx s
      = Some (([], Some ErrNoConsecutive), s)).
Proof.
  induction idx as [|i idx IH]; intros K; cbn [consecutiveLoop].
  - right. split; [|reflexivity]. intros i Hi. inversion Hi.
  - destruct (windowFree_spec (slots s) i (seqZ 0 count)) as (b & Eb & Hb).
    { intros j Hj. apply K; [left|exact Hj]. }
    rewrite Eb. destruct b.
    + left.
      destruct (assignWindow_spec nodeID now i (seqZ 0 count) (slots s) [])
        as (m' & Em' & Hm').
      { intros j Hj. apply K; [left|exact Hj]. }
      rewrite Em'. cbn [app].
      exists [], i, idx, m'. split; [reflexivity|]. split.
      * intros i' Hi'. inversion Hi'.
      * split; [apply Hb; reflexivity|]. split; [exact Hm'|reflexivity].
    + assert (Hnot : ~ allFree (slots s) i (seqZ 0 count)).
      { intros C. apply Hb in C. discriminate C. }
      destruct IH as [(pre & i0 & post & m' & E & Hpre & Hi0 & Hm' & Hr)|[Hall Hr]].
      { intros i' j Hi' Hj. apply K; [right; exact Hi'|exact Hj]. }
      * left. exists (i :: pre), i0, post, m'. split; [rewrite E; reflexivity|].
        split; [|split; [exact Hi0|split; [exact Hm'|exact Hr]]].
        intros i' Hi'. apply elem_of_cons in Hi'. destruct Hi' as [->|Hi'].
        -- exact Hnot.
        -- apply Hpre. exact Hi'.
      * right. split; [|exact Hr].
        intros i' Hi'. apply elem_of_cons in Hi'. destruct Hi' as [->|Hi'].
        -- exact Hnot.
        -- apply Hall. exact Hi'.
Qed.

Lemma window_seqZ i count :
  0 <= i -> i + count < 2 ^ 63 -> window i (seqZ 0 count) = seqZ i count.
Proof.
  intros Hi Hc. unfold window.
  transitivity (Z.add i <$> seqZ 0 count).
  - apply map_ext_in. intros j Hj. apply list_elem_of_In, elem_of_seqZ in Hj.
    apply int64_small. lia.
  - rewrite fmap_add_seqZ. f_equal. lia.
Qed.

Lemma allFree_freeWindow s count i :
  0 <= i -> i + count <= totalSlots s -> totalSlots s < 2 ^ 62 ->
  (allFree (slots s) i (seqZ 0 count) <-> freeWindow s count i).
Proof.
  intros Hi Hc Hn. unfold allFree, freeWindow, slotFree. split.
  - intros H. split; [exact Hi|]. split; [exact Hc|].
    intros j Hj. specialize (H j). rewrite elem_of_seqZ in H.
    rewrite int64_small in H by lia. apply H. lia.
  - intros (_ & _ & H) j Hj. apply elem_of_seqZ in Hj.
    rewrite int64_small by lia. apply H. lia.
Qed.


(** C6. [AllocateConsecutiveSlots] is a first-fit scan for a window of
    [count] free slots that does not run past the end of the table. Either it
    returns the slot numbers [i .. i+count-1] of the first such window, every
    slot of the window is then assigned to the node and no other slot has
    changed; or there is no such window, the error is the one for too few
    consecutive slots and the scheduler is unchanged. It never panics. On a
    new table of 10 slots a request for 3 slots returns [0,1,2] and a second
    node's request for 3 slots returns [3,4,5]. *)
Theorem AllocateConsecutiveSlots_first_fit :
  (forall s nodeID count now,
     sched_ok s -> 0 <= totalSlots s -> 0 <= count <= maxInt64 ->
     (exists i s',
        AllocateConsecutiveSlots s nodeID count now
          = Some ((seqZ i count, None), s') /\
        freeWindow s count i /\
        (forall i', 0 <= i' < i -> ~ freeWindow s count i') /\
        (forall k, i <= k < i + count ->
           exists st, slots s !! k = Some st /\
                      slots s' !! k = Some (assign nodeID now st)) /\
        (forall k, ~ (i <= k < i + count) -> slots s' !! k = slots s !! k) /\
        same_frame s s')
     \/
     ((forall i, ~ freeWindow s count i) /\
      AllocateConsecutiveSlots s nodeID count now
        = Some (([], Some ErrNoConsecutive), s))) /\
  (forall d t0 t1 t2, exists s1 s2,
     AllocateConsecutiveSlots (NewTDMAScheduler 10 d t0) "X" 3 t1
       = Some (([0; 1; 2], None), s1) /\
     AllocateConsecutiveSlots s1 "Y" 3 t2 = Some (([3; 4; 5], None), s2)).
Proof.
  split.
  - intros s nodeID count now [k1 k2 k3] HN Hc. unfold maxInt64 in Hc.
    unfold AllocateConsecutiveSlots. rewrite int64_small by lia.
    set (idx := seqZ 0 (totalSlots s - count + 1)).
    destruct (consecutiveLoop_spec nodeID now count idx s)
      as [(pre & i & post & m' & E & Hpre & Hi & Hm' & Hr)|[Hall Hr]].
    { intros i j Hi Hj. apply elem_of_seqZ in Hi. apply elem_of_seqZ in Hj.
      rewrite int64_small by lia. apply k1. lia. }
    + left.
      assert (Hin : i ∈ idx) by (rewrite E; apply elem_of_app; right; left).
      apply elem_of_seqZ in Hin.
      assert (Hlen : i = Z.of_nat (length pre)).
      { pose proof (list_lookup_middle pre post i (length pre) eq_refl) as L.
        rewrite <- E in L. apply lookup_seqZ in L. lia. }
      assert (Hw : forall k, k ∈ window i (seqZ 0 count) <-> i <= k < i + count).
      { intros k. rewrite window_seqZ by lia. apply elem_of_seqZ. }
      exists i, (withSlots s m'). split; [|split; [|split; [|split; [|split]]]].
      * rewrite Hr, window_seqZ by lia. reflexivity.
      * apply allFree_freeWindow; [lia | lia | exact k2 | exact Hi].
      * intros i' Hi' C. apply (Hpre i').
        -- apply list_elem_of_lookup. exists (Z.to_nat i').
           assert (L : idx !! Z.to_nat i' = Some i').
           { apply lookup_seqZ. lia. }
           rewrite E, lookup_app_l in L by lia. exact L.
        -- apply allFree_freeWindow; [lia | lia | exact k2 | exact C].
      * intros k Hk. destruct (proj2 (k1 k) ltac:(lia)) as [st Est].
        exists st. split; [exact Est|]. cbn [slots withSlots].
        rewrite Hm', decide_True by (apply Hw; exact Hk). rewrite Est. reflexivity.
      * intros k Hk. cbn [slots withSlots].
        rewrite Hm', decide_False by (rewrite Hw; exact Hk). reflexivity.
      * apply same_frame_withSlots. intros k. rewrite Hm'.
        destruct (decide (k ∈ window i (seqZ 0 count))); [|reflexivity].
        destruct (slots s !! k); cbn; split; intros [? H]; eauto; discriminate H.
    + right. split; [|exact Hr].
      intros i C. pose proof C as (C1 & C2 & _). apply (Hall i).
      * apply elem_of_seqZ. lia.
      * apply allFree_freeWindow; [lia | lia | exact k2 | exact C].
  - intros d t0 t1 t2. do 2 eexists. split.
    + vm_compute. reflexivity.
    + vm_compute. reflexivity.
Qed.

Lemma AllocateConsecutiveSlots_first_fit_witness :
  exists s1 s2,
    AllocateConsecutiveSlots (NewTDMAScheduler 10 1000000000 0) "X" 8 5
      = Some ((seqZ 0 8, None), s1) /\
    (forall k, 0 <= k < 8 -> exists st, slots s1 !! k = Some st /\ NodeID st = "X"%string) /\
    AllocateConsecutiveSlots s1 "Y" 3 6 = Some (([], Some ErrNoConsecutive), s2) /\
    s2 = s1.
Proof.
  pose proof (proj1 AllocateConsecutiveSlots_first_fit) as T.
  set (s0 := NewTDMAScheduler 10 1000000000 0).
  assert (Hok0 : sched_ok s0) by (apply NewTDMAScheduler_ok; lia).
  destruct (T s0 "X" 8 5 Hok0 ltac:(cbn; lia) ltac:(unfold maxInt64; lia))
    as [(i & s1 & E1 & F1 & Min & In & Out & Fr)|[No _]].
  2: { exfalso. apply (No 0). split; [lia|]. split; [cbn; lia|].
       intros j Hj. apply NewTDMAScheduler_ok; lia. }
  assert (i = 0).
  { destruct (Z.eq_dec i 0) as [->|Hne]; [reflexivity|]. exfalso.
    destruct F1 as (? & ? & _). apply (Min 0); [lia|].
    split; [lia|]. split; [cbn; lia|].
    intros j Hj. apply NewTDMAScheduler_ok; lia. }
  subst i.
  assert (Hok1 : sched_ok s1) by (eapply same_frame_ok; eassumption).
  assert (HN1 : totalSlots s1 = 10) by (destruct Fr as (_ & -> & _); reflexivity).
  exists s1, s1. split; [exact E1|]. split; [|split; [|reflexivity]].
  - intros k Hk. destruct (In k ltac:(lia)) as (st & _ & ->). eauto.
  - destruct (T s1 "Y" 3 6 Hok1 ltac:(lia) ltac:(unfold maxInt64; lia))
      as [(i & s2 & _ & F2 & _)|[_ E2]]; [|exact E2].
    exfalso. destruct F2 as (Hi0 & Hi1 & Hfree). rewrite HN1 in Hi1.
    destruct (Hfree 0 ltac:(lia)) as (st & Est & Fst).
    destruct (In (i + 0) ltac:(lia)) as (st0 & _ & Est0).
    rewrite Est0 in Est. injection Est as <-. discriminate Fst.
Defined.

End ConsecutiveProps.

(* ===================================================================== *)
(** * Further properties of the frame codec *)
(* ===================================================================== *)

Module FrameFacts.
Import Go Protocol Wire GoFacts CodecFacts.

Lemma lxor_mod_pow2 a b n :
  0 <= n -> Z.lxor a b mod 2 ^ n = Z.lxor (a mod 2 ^ n) (b mod 2 ^ n).
Proof.
  intros Hn. rewrite <- !Z.land_ones by exact Hn.
  apply Z.bits_inj'. intros i Hi.
  rewrite !Z.lxor_spec, !Z.land_spec, !Z.lxor_spec.
  destruct (Z.testbit (Z.ones n) i); rewrite ?andb_true_r, ?andb_false_r; reflexivity.
Qed.

Lemma lxor_range a b n :
  0 <= n -> 0 <= a < 2 ^ n -> 0 <= b < 2 ^ n -> 0 <= Z.lxor a b < 2 ^ n.
Proof.
  intros Hn Ha Hb.
  rewrite <- (Z.mod_small a (2 ^ n)), <- (Z.mod_small b (2 ^ n)) by assumption.
  rewrite <- lxor_mod_pow2 by exact Hn. apply Z.mod_pos_bound. lia.
Qed.

Lemma crcStep_range c v : 0 <= v < 2 ^ 32 -> 0 <= crcStep c v < 2 ^ 32.
Proof.
  intros Hv. unfold crcStep. apply lxor_range; [lia | apply uint32_range | exact Hv].
Qed.

Lemma unsigned_range32 b : 0 <= byte.unsigned b < 2 ^ 32.
Proof. pose proof (byte.unsigned_range b). lia. Qed.

Lemma crcBytes_range c bs : 0 <= c < 2 ^ 32 -> 0 <= crcBytes c bs < 2 ^ 32.
Proof.
  revert c. induction bs as [|b bs IH]; intros c Hc; [exact Hc|].
  apply IH. apply crcStep_range. apply unsigned_range32.
Qed.

(** The checksum of a frame whose flags fit their field is a 32-bit value. *)
Lemma calculateCRC_range f :
  0 <= Flags f < 2 ^ 16 -> 0 <= calculateCRC f < 2 ^ 32.
Proof.
  intros H. unfold calculateCRC.
  apply crcBytes_range. apply crcStep_range. lia.
Qed.

Lemma calculateCRC_withCRC f crc : calculateCRC (withCRC f crc) = calculateCRC f.
Proof. reflexivity. Qed.

Lemma nodeID_field_length nodeID :
  length (copy (repeat x00 32) (list_byte_of_string nodeID)) = 32%nat.
Proof. rewrite copy_length. apply repeat_length. Qed.

Lemma NewTDMAFrame_typed slotID nodeID data :
  0 <= slotID < 2 ^ 32 -> frame_typed (NewTDMAFrame slotID nodeID data).
Proof.
  intros Hs. split; cbn [NewTDMAFrame withCRC Header SlotID NodeID Length FragmentID
                          TotalFrags FragIndex Flags CRC Footer];
    try reflexivity; try lia; try apply uint32_range.
  - apply nodeID_field_length.
  - apply calculateCRC_range. cbn. lia.
Qed.

Lemma fragment_flags_range (isFirst isLast : bool) :
  0 <= (let flags := FLAG_FRAGMENT in
        let flags := if isFirst then Z.lor flags FLAG_FIRST_FRAG else flags in
        if isLast then Z.lor flags FLAG_LAST_FRAG else flags) < 2 ^ 16.
Proof. destruct isFirst, isLast; vm_compute; (split; [discriminate | reflexivity]). Qed.

Lemma NewFragmentTDMAFrame_typed slotID nodeID fid total idx data isFirst isLast :
  0 <= slotID < 2 ^ 32 -> 0 <= fid < 2 ^ 32 ->
  0 <= total < 2 ^ 16 -> 0 <= idx < 2 ^ 16 ->
  frame_typed (NewFragmentTDMAFrame slotID nodeID fid total idx data isFirst isLast).
Proof.
  intros Hs Hf Ht Hi.
  pose proof (fragment_flags_range isFirst isLast) as Hfl. cbv zeta in Hfl.
  split; cbn [NewFragmentTDMAFrame withCRC Header SlotID NodeID Length FragmentID
              TotalFrags FragIndex Flags CRC Footer];
    first [ reflexivity | lia | apply uint32_range | apply nodeID_field_length
          | exact Hfl | apply calculateCRC_range; exact Hfl ].
Qed.

End FrameFacts.

Module ConstructorProps.
Import Go Protocol Wire GoFacts CodecFacts CodecProps ValidateProps FrameFacts.

(** X1. Every frame built by [NewTDMAFrame] or [NewFragmentTDMAFrame] passes
    [Validate], whatever the arguments: the sentinels are set, the checksum
    is the recomputed one, and [Length] is the payload length truncated the
    way [Validate] truncates it. *)
Theorem constructors_validate slotID nodeID fid total idx data isFirst isLast :
  Validate (NewTDMAFrame slotID nodeID data) = None /\
  Validate (NewFragmentTDMAFrame slotID nodeID fid total idx data isFirst isLast)
    = None.
Proof.
  split; apply Validate_None; repeat split; reflexivity.
Qed.

(** X2. A constructed frame survives the wire. For a slot number that fits 32
    bits and a payload shorter than 2^32 bytes, serializing the frame built
    by [NewTDMAFrame] and deserializing the result gives back that frame, and
    it passes [Validate]; the same holds for [NewFragmentTDMAFrame] when the
    fragment id, count and index fit their fields. *)
Theorem constructed_frame_survives_wire slotID nodeID fid total idx data isFirst isLast :
  0 <= slotID < 2 ^ 32 -> len data < 2 ^ 32 ->
  (exists bytes,
     Serialize (NewTDMAFrame slotID nodeID data) = Ok bytes /\
     len bytes = 70 + len data /\
     DeserializeTDMAFrame bytes = Ok (NewTDMAFrame slotID nodeID data)) /\
  (0 <= fid < 2 ^ 32 -> 0 <= total < 2 ^ 16 -> 0 <= idx < 2 ^ 16 ->
   exists bytes,
     Serialize (NewFragmentTDMAFrame slotID nodeID fid total idx data isFirst isLast)
       = Ok bytes /\
     len bytes = 70 + len data /\
     DeserializeTDMAFrame bytes
       = Ok (NewFragmentTDMAFrame slotID nodeID fid total idx data isFirst isLast)).
Proof.
  intros Hs Hd. pose proof (len_nonneg data) as Hn. split.
  - pose proof (NewTDMAFrame_typed slotID nodeID data Hs) as T.
    exists (encode (NewTDMAFrame slotID nodeID data)). split; [|split].
    + apply Serialize_encode; apply T.
    + rewrite encode_length by apply T. reflexivity.
    + rewrite <- (app_nil_r (encode _)). apply Deserialize_encode; [exact T|].
      cbn [Length Data NewTDMAFrame NewFragmentTDMAFrame withCRC].
      apply uint32_small. lia.
  - intros Hf Ht Hi.
    pose proof (NewFragmentTDMAFrame_typed slotID nodeID fid total idx data
                  isFirst isLast Hs Hf Ht Hi) as T.
    exists (encode (NewFragmentTDMAFrame slotID nodeID fid total idx data isFirst isLast)).
    split; [|split].
    + apply Serialize_encode; apply T.
    + rewrite encode_length by apply T. reflexivity.
    + rewrite <- (app_nil_r (encode _)). apply Deserialize_encode; [exact T|].
      cbn [Length Data NewTDMAFrame NewFragmentTDMAFrame withCRC].
      apply uint32_small. lia.
Qed.

Lemma constructed_frame_survives_wire_witness :
  exists bytes,
    Serialize (NewTDMAFrame 7 "GROUND_STATION_001" [x41; x43; x4b]) = Ok bytes /\
    len bytes = 70 + len [x41; x43; x4b] /\
    DeserializeTDMAFrame bytes = Ok (NewTDMAFrame 7 "GROUND_STATION_001" [x41; x43; x4b]).
Proof.
  apply (constructed_frame_survives_wire 7 "GROUND_STATION_001" 0 1 0
           [x41; x43; x4b] false false); vm_compute; first [reflexivity | split; [discriminate | reflexivity]].
Defined.

End ConstructorProps.

Module DecodeProps.
Import Go Protocol Wire GoFacts CodecFacts FrameFacts.

Lemma u16_of_range b : 0 <= u16_of b < 2 ^ 16.
Proof.
  unfold u16_of.
  pose proof (at_range b 0) as H0. pose proof (at_range b 1) as H1.
  rewrite <- (Z.mod_small (at_ b 0) (2 ^ 8)), <- (Z.mod_small (at_ b 1) (2 ^ 8)) by assumption.
  rewrite <- !Z.land_ones by lia.
  assert (E : Z.lor (Z.land (at_ b 1) (Z.ones 8)) (Z.shiftl (Z.land (at_ b 0) (Z.ones 8)) 8)
              = Z.land (Z.lor (Z.land (at_ b 1) (Z.ones 8))
                              (Z.shiftl (Z.land (at_ b 0) (Z.ones 8)) 8)) (Z.ones 16)).
  { Z.bitblast. }
  rewrite E, Z.land_ones by lia. apply Z.mod_pos_bound. lia.
Qed.

(** Writing back the number read from four bytes gives the four bytes. *)
Lemma be32_u32_of b : (4 <= length b)%nat -> be32 (u32_of b) = firstn 4 b.
Proof.
  intros H. destruct b as [|b0 [|b1 [|b2 [|b3 rest]]]]; cbn [length] in H; try lia.
  unfold be32, u32_of, at_. cbn [nth firstn].
  repeat f_equal; apply byte.unsigned_inj; rewrite byte.unsigned_of_Z;
    unfold byte.wrap; rewrite <- Z.land_ones by lia;
    rewrite <- (byte.wrap_unsigned b0), <- (byte.wrap_unsigned b1),
            <- (byte.wrap_unsigned b2), <- (byte.wrap_unsigned b3);
    unfold byte.wrap; rewrite <- !Z.land_ones by lia; Z.bitblast.
Qed.

Lemma be16_u16_of b : (2 <= length b)%nat -> be16 (u16_of b) = firstn 2 b.
Proof.
  intros H. destruct b as [|b0 [|b1 rest]]; cbn [length] in H; try lia.
  unfold be16, u16_of, at_. cbn [nth firstn].
  repeat f_equal; apply byte.unsigned_inj; rewrite byte.unsigned_of_Z;
    unfold byte.wrap; rewrite <- Z.land_ones by lia;
    rewrite <- (byte.wrap_unsigned b0), <- (byte.wrap_unsigned b1);
    unfold byte.wrap; rewrite <- !Z.land_ones by lia; Z.bitblast.
Qed.

Lemma Deserialize_Ok data f :
  DeserializeTDMAFrame data = Ok f ->
  60 <= len data /\ 58 + storedLength data + 12 <= len data /\ f = parse data.
Proof.
  rewrite Deserialize_cases.
  destruct (len data <? 60) eqn:E1; [discriminate|].
  destruct (len data <? 58 + storedLength data + 12) eqn:E2; [discriminate|].
  intros [= <-]. repeat split; lia.
Qed.

Lemma parse_typed data :
  58 + storedLength data + 12 <= len data ->
  frame_typed (parse data) /\ Length (parse data) = len (Data (parse data)).
Proof.
  intros H. pose proof (storedLength_range data) as R. unfold len in H.
  split; [split|]; unfold parse; cbv zeta;
    cbn [Header SlotID NodeID Length FragmentID TotalFrags FragIndex Flags Data CRC Footer];
    try apply u32_of_range; try apply u16_of_range; try exact R;
    try (unfold len; rewrite ?length_firstn, ?length_skipn; lia).
Qed.

(** X3. Every frame that [DeserializeTDMAFrame] returns has fields of their
    Go types and a payload of exactly [Length] bytes; so [Validate] never
    reports a length mismatch for a frame that came off the wire. *)
Theorem decoded_frame_is_consistent data f :
  DeserializeTDMAFrame data = Ok f ->
  frame_typed f /\ Length f = len (Data f) /\
  Validate f <> Some ErrLengthMismatch.
Proof.
  intros H. apply Deserialize_Ok in H. destruct H as (H60 & HL & ->).
  destruct (parse_typed data HL) as [T E]. split; [exact T|]. split; [exact E|].
  unfold Validate.
  destruct (negb (bytes_eqb (Header (parse data)) FRAME_HEADER)); [discriminate|].
  destruct (negb (bytes_eqb (Footer (parse data)) FRAME_FOOTER)); [discriminate|].
  destruct (negb (calculateCRC (parse data) =? CRC (parse data))); [discriminate|].
  rewrite <- E, uint32_small by apply T. rewrite Z.eqb_refl. discriminate.
Qed.

Lemma decoded_frame_is_consistent_witness :
  frame_typed (parse (repeat x00 70)) /\
  Length (parse (repeat x00 70)) = len (Data (parse (repeat x00 70))) /\
  Validate (parse (repeat x00 70)) <> Some ErrLengthMismatch.
Proof.
  apply (decoded_frame_is_consistent (repeat x00 70)). vm_compute. reflexivity.
Defined.

Lemma take3 {A : Type} (l : list A) a b c :
  firstn a l ++ firstn b (skipn a l) ++ firstn c (skipn (a + b) l)
  = firstn (a + b + c) l.
Proof.
  rewrite app_assoc, take_take_drop, take_take_drop. reflexivity.
Qed.

(** The layout of the frame read off a buffer is the buffer's own prefix. *)
Lemma encode_parse data :
  58 + storedLength data + 12 <= len data ->
  encode (parse data) = firstn (Z.to_nat (70 + storedLength data)) data.
Proof.
  intros H. pose proof (storedLength_range data) as R. unfold len in H.
  unfold encode, parse. cbv zeta.
  cbn [Header SlotID NodeID Length FragmentID TotalFrags FragIndex Flags Data CRC Footer].
  fold (storedLength data).
  unfold storedLength at 1.
  rewrite !be32_u32_of, !be16_u16_of by (rewrite length_skipn; lia).
  set (n := Z.to_nat (storedLength data)).
  replace (Z.to_nat (70 + storedLength data)) with (70 + n)%nat by lia.
  rewrite <- (firstn_skipn 58 data) at 12.
  assert (E58 : firstn 8 data ++ firstn 4 (skipn 8 data) ++ firstn 32 (skipn 12 data)
                  ++ firstn 4 (skipn 44 data) ++ firstn 4 (skipn 48 data)
                  ++ firstn 2 (skipn 52 data) ++ firstn 2 (skipn 54 data)
                  ++ firstn 2 (skipn 56 data) = firstn 58 data).
  { change 58%nat with (8 + 4 + 32 + 4 + 4 + 2 + 2 + 2)%nat.
    rewrite <- !take_take_drop. cbn [Nat.add]. rewrite <- !app_assoc. reflexivity. }
  rewrite firstn_app, length_firstn.
  replace (Nat.min 58 (length data)) with 58%nat by lia.
  rewrite (firstn_all2 (firstn 58 data)) by (rewrite length_firstn; lia).
  replace (70 + n - 58)%nat with (n + 4 + 8)%nat by lia.
  rewrite <- E58, <- !app_assoc. do 8 f_equal.
  rewrite <- (take3 (skipn 58 data) n 4 8). rewrite !skipn_skipn.
  do 3 f_equal; f_equal; lia.
Qed.

(** X4. Decoding and encoding are inverse on the bytes a frame occupies:
    when [DeserializeTDMAFrame] returns a frame from a buffer, serializing
    that frame gives back the first [70 + Length] bytes of the buffer. *)
Theorem reencode_decoded_frame data f :
  DeserializeTDMAFrame data = Ok f ->
  Serialize f = Ok (firstn (Z.to_nat (70 + Length f)) data).
Proof.
  intros H. apply Deserialize_Ok in H. destruct H as (H60 & HL & ->).
  destruct (parse_typed data HL) as [T _].
  rewrite Serialize_encode by apply T.
  rewrite encode_parse by exact HL. reflexivity.
Qed.

Lemma reencode_decoded_frame_witness :
  Serialize (parse (repeat x00 64 ++ repeat x07 9))
  = Ok (firstn (Z.to_nat (70 + Length (parse (repeat x00 64 ++ repeat x07 9))))
               (repeat x00 64 ++ repeat x07 9)).
Proof.
  apply (reencode_decoded_frame (repeat x00 64 ++ repeat x07 9)).
  vm_compute. reflexivity.
Defined.

End DecodeProps.

Module ChecksumReach.
Import Go Protocol Wire GoFacts CodecFacts ValidateProps FrameFacts.

Lemma crcBytes_app c a b : crcBytes c (a ++ b) = crcBytes (crcBytes c a) b.
Proof. unfold crcBytes. apply fold_left_app. Qed.

Lemma crcBytes_cons c b bs :
  crcBytes c (b :: bs) = crcBytes (crcStep c (byte.unsigned b)) bs.
Proof. reflexivity. Qed.

(** The checksum step is linear over exclusive or. *)
Lemma crcStep_lxor a b v :
  crcStep (Z.lxor a b) v = Z.lxor (crcStep a 0) (crcStep b v).
Proof.
  unfold crcStep, uint32. rewrite <- !Z.land_ones by lia. Z.bitblast.
Qed.

Lemma crcBytes_lxor bs a b :
  crcBytes (Z.lxor a b) bs
  = Z.lxor (crcBytes a (repeat x00 (length bs))) (crcBytes b bs).
Proof.
  revert a b. induction bs as [|x bs IH]; intros a b; [reflexivity|].
  cbn [length repeat]. rewrite !crcBytes_cons.
  change (byte.unsigned x00) with 0.
  rewrite crcStep_lxor. apply IH.
Qed.

(** After 32 or more zero bytes nothing of the starting value is left. *)
Lemma crcBytes_zeros_flush c n : (32 <= n)%nat -> crcBytes c (repeat x00 n) = 0.
Proof.
  intros Hn. destruct n as [|n]; [lia|].
  cbn [repeat]. rewrite crcBytes_cons. change (byte.unsigned x00) with 0.
  rewrite crcBytes_zeros by (apply crcStep_range; lia).
  rewrite crcStep_zero, Z.mul_mod_idemp_l by lia.
  replace (c * 2 * 2 ^ Z.of_nat n) with (c * 2 ^ (Z.of_nat n - 31) * 2 ^ 32).
  - apply Z_mod_mult.
  - rewrite <- !Z.mul_assoc. f_equal.
    replace (2 ^ (Z.of_nat n - 31) * 2 ^ 32) with (2 ^ (Z.of_nat n - 31 + 32))
      by (rewrite Z.pow_add_r by lia; reflexivity).
    replace (Z.of_nat n - 31 + 32) with (Z.succ (Z.of_nat n)) by lia.
    rewrite Z.pow_succ_r by lia. reflexivity.
Qed.

Lemma crcBytes_forgets c bs : (32 <= length bs)%nat -> crcBytes c bs = crcBytes 0 bs.
Proof.
  intros H. rewrite <- (Z.lxor_0_r c) at 1.
  rewrite crcBytes_lxor, crcBytes_zeros_flush by exact H.
  apply Z.lxor_0_l.
Qed.

Lemma calculateCRC_tail f pre suf :
  Data f = pre ++ suf -> (32 <= length suf)%nat -> calculateCRC f = crcBytes 0 suf.
Proof.
  intros E H. unfold calculateCRC. rewrite E, crcBytes_app.
  apply crcBytes_forgets. exact H.
Qed.

(** X5. The checksum of a frame whose payload has 32 bytes or more is a
    function of the last 32 payload bytes alone: the header, [SlotID],
    [TotalFrags], [FragIndex], [Flags] and all earlier payload bytes have
    been shifted out. Two frames whose payloads end in the same 32 bytes
    have the same checksum, and a frame that passes [Validate] still passes
    after its [SlotID], [NodeID], [FragmentID], [TotalFrags], [FragIndex] and
    [Flags] are replaced. *)
Theorem checksum_sees_last_32_bytes f g pre pre' suf :
  Data f = pre ++ suf -> (32 <= length suf)%nat ->
  calculateCRC f = crcBytes 0 suf /\
  (Data g = pre' ++ suf -> calculateCRC g = calculateCRC f) /\
  (Validate f = None ->
   Validate (mkFrame (Header f) (SlotID g) (NodeID g) (Length f) (FragmentID g)
                     (TotalFrags g) (FragIndex g) (Flags g) (Data f) (CRC f)
                     (Footer f)) = None).
Proof.
  intros E H. split; [|split].
  - eapply calculateCRC_tail; eassumption.
  - intros E'. rewrite (calculateCRC_tail f pre suf E H).
    eapply calculateCRC_tail; eassumption.
  - intros V. apply Validate_None in V. destruct V as (V1 & V2 & V3 & V4).
    apply Validate_None.
    cbn [Header Footer CRC Data Length]. repeat split; try assumption.
    rewrite <- V3, (calculateCRC_tail f pre suf E H).
    apply (calculateCRC_tail _ pre suf); [exact E | exact H].
Qed.

Lemma checksum_sees_last_32_bytes_witness :
  calculateCRC (NewTDMAFrame 3 "GS1" (repeat x41 40))
    = crcBytes 0 (repeat x41 32) /\
  calculateCRC (NewTDMAFrame 9 "GS2" (repeat x42 5 ++ repeat x41 32))
    = calculateCRC (NewTDMAFrame 3 "GS1" (repeat x41 40)).
Proof.
  destruct (checksum_sees_last_32_bytes
              (NewTDMAFrame 3 "GS1" (repeat x41 40))
              (NewTDMAFrame 9 "GS2" (repeat x42 5 ++ repeat x41 32))
              (repeat x41 8) (repeat x42 5) (repeat x41 32)
              eq_refl ltac:(cbn; lia)) as (H1 & H2 & _).
  split; [exact H1 | apply H2; reflexivity].
Defined.

Lemma lxor_cancel_r a b c : Z.lxor a c = Z.lxor b c -> a = b.
Proof.
  intros H. apply (f_equal (fun x => Z.lxor x c)) in H.
  rewrite !Z.lxor_assoc, !Z.lxor_nilpotent, !Z.lxor_0_r in H. exact H.
Qed.

Lemma byte_lxor_nonzero b b' :
  b <> b' -> 0 < Z.lxor (byte.unsigned b) (byte.unsigned b') < 2 ^ 8.
Proof.
  intros Hne.
  pose proof (lxor_range (byte.unsigned b) (byte.unsigned b') 8 ltac:(lia)
                (byte.unsigned_range b) (byte.unsigned_range b')) as R.
  assert (Z.lxor (byte.unsigned b) (byte.unsigned b') <> 0).
  { intros C. apply Z.lxor_eq in C. apply byte.unsigned_inj in C. congruence. }
  lia.
Qed.

(** Changing one byte that has at most 24 bytes after it changes the
    running checksum. *)
Lemma crcBytes_one_byte c pre b b' suf :
  b <> b' -> (length suf <= 24)%nat ->
  crcBytes c (pre ++ b :: suf) <> crcBytes c (pre ++ b' :: suf).
Proof.
  intros Hne Hlen C. rewrite !crcBytes_app, !crcBytes_cons in C.
  set (u := crcBytes c pre) in *.
  pose proof (byte_lxor_nonzero b b' Hne) as D.
  set (d := Z.lxor (byte.unsigned b) (byte.unsigned b')) in *.
  assert (E : crcStep u (byte.unsigned b) = Z.lxor d (crcStep u (byte.unsigned b'))).
  { unfold crcStep, d. apply Z.bits_inj'. intros i _. rewrite !Z.lxor_spec.
    destruct (Z.testbit (uint32 (Z.shiftl u 1)) i),
             (Z.testbit (byte.unsigned b) i),
             (Z.testbit (byte.unsigned b') i); reflexivity. }
  rewrite E, crcBytes_lxor in C.
  rewrite <- (Z.lxor_0_l (crcBytes (crcStep u (byte.unsigned b')) suf)) in C at 2.
  apply lxor_cancel_r in C.
  rewrite crcBytes_zeros in C by lia.
  assert (B : 2 ^ Z.of_nat (length suf) <= 2 ^ 24) by (apply Z.pow_le_mono_r; lia).
  assert (P : 0 < 2 ^ Z.of_nat (length suf)) by (apply Z.pow_pos_nonneg; lia).
  rewrite Z.mod_small in C by nia. nia.
Qed.

(** X6. A change of a single payload byte that has at most 24 bytes after it
    always changes the checksum: if the frame passed [Validate], the changed
    frame fails it with the checksum error. *)
Theorem one_byte_change_is_caught f pre b b' suf :
  Data f = pre ++ b :: suf -> b <> b' -> (length suf <= 24)%nat ->
  calculateCRC (mkFrame (Header f) (SlotID f) (NodeID f) (Length f) (FragmentID f)
                        (TotalFrags f) (FragIndex f) (Flags f)
                        (pre ++ b' :: suf) (CRC f) (Footer f))
    <> calculateCRC f /\
  (Validate f = None ->
   Validate (mkFrame (Header f) (SlotID f) (NodeID f) (Length f) (FragmentID f)
                     (TotalFrags f) (FragIndex f) (Flags f)
                     (pre ++ b' :: suf) (CRC f) (Footer f)) = Some ErrChecksum).
Proof.
  intros E Hne Hlen.
  assert (N : calculateCRC (mkFrame (Header f) (SlotID f) (NodeID f) (Length f)
                (FragmentID f) (TotalFrags f) (FragIndex f) (Flags f)
                (pre ++ b' :: suf) (CRC f) (Footer f)) <> calculateCRC f).
  { unfold calculateCRC.
    cbn [Header SlotID TotalFrags FragIndex Flags Data]. rewrite E.
    intros C. symmetry in C. revert C. apply crcBytes_one_byte; assumption. }
  split; [exact N|].
  intros V. apply Validate_None in V. destruct V as (V1 & V2 & V3 & V4).
  unfold Validate. cbn [Header Footer CRC].
  apply bytes_eqb_eq in V1. apply bytes_eqb_eq in V2.
  rewrite V1, V2. cbn [negb].
  rewrite V3 in N. apply Z.eqb_neq in N. rewrite N. reflexivity.
Qed.

Lemma one_byte_change_is_caught_witness :
  Validate (mkFrame FRAME_HEADER 5
              (NodeID (NewTDMAFrame 5 "GS1" [x01; x02; x03])) 3 0 1 0 0
              ([x01] ++ x09 :: [x03])
              (CRC (NewTDMAFrame 5 "GS1" [x01; x02; x03])) FRAME_FOOTER)
  = Some ErrChecksum.
Proof.
  apply (one_byte_change_is_caught (NewTDMAFrame 5 "GS1" [x01; x02; x03])
           [x01] x02 x09 [x03]).
  - reflexivity.
  - discriminate.
  - cbn. lia.
  - vm_compute. reflexivity.
Defined.

End ChecksumReach.

Module NodeIDProps.
Import Go Protocol Wire GoFacts CodecFacts.

Lemma trimRightByte_all c k : trimRightByte c (repeat c k) = [].
Proof.
  induction k as [|k IH]; [reflexivity|].
  cbn [repeat trimRightByte]. rewrite IH.
  assert (E : Byte.eqb c c = true) by (apply Byte.byte_dec_lb; reflexivity).
  rewrite E. reflexivity.
Qed.

Lemma trimRightByte_padding c s k :
  trimRightByte c (s ++ repeat c k) = trimRightByte c s.
Proof.
  induction s as [|x s IH]; cbn [app trimRightByte].
  - apply trimRightByte_all.
  - rewrite IH. reflexivity.
Qed.

Lemma trimRightByte_snoc c s b : b <> c -> trimRightByte c (s ++ [b]) = s ++ [b].
Proof.
  intros Hne. induction s as [|x s IH]; cbn [app trimRightByte].
  - destruct (Byte.eqb b c) eqn:E; [|reflexivity].
    apply Byte.byte_dec_bl in E. congruence.
  - rewrite IH. destruct (s ++ [b]) eqn:E; [|reflexivity].
    destruct s; discriminate E.
Qed.

Lemma trimRightByte_id c s :
  (forall bs, s <> bs ++ [c]) -> trimRightByte c s = s.
Proof.
  intros H. destruct s as [|x s] using rev_ind; [reflexivity|].
  apply trimRightByte_snoc. intros ->. apply (H s). reflexivity.
Qed.

Lemma list_byte_of_string_length s :
  length (list_byte_of_string s) = String.length s.
Proof.
  induction s as [|a s IH]; [reflexivity|].
  cbn. f_equal. exact IH.
Qed.

(** The node id field of a constructed frame: the first 32 bytes of the id,
    zero-padded. *)
Lemma nodeID_field nodeID :
  copy (repeat x00 32) (list_byte_of_string nodeID)
  = firstn 32 (list_byte_of_string nodeID)
      ++ repeat x00 (32 - length (list_byte_of_string nodeID)).
Proof.
  unfold copy. rewrite repeat_length, skipn_repeat_x00. reflexivity.
Qed.

(** X7. The node id read back from a constructed frame is the id given to the
    constructor, cut to its first 32 bytes and without trailing zero bytes.
    So an id of at most 32 bytes that does not end in a zero byte is read
    back unchanged, and two ids that agree on their first 32 bytes give
    frames with the same node id. *)
Theorem GetNodeID_of_constructed slotID nodeID nodeID' data data' :
  GetNodeID (NewTDMAFrame slotID nodeID data)
    = string_of_list_byte
        (trimRightByte x00 (firstn 32 (list_byte_of_string nodeID))) /\
  ((String.length nodeID <= 32)%nat ->
   (forall bs, list_byte_of_string nodeID <> bs ++ [x00]) ->
   GetNodeID (NewTDMAFrame slotID nodeID data) = nodeID) /\
  (firstn 32 (list_byte_of_string nodeID) = firstn 32 (list_byte_of_string nodeID') ->
   GetNodeID (NewTDMAFrame slotID nodeID data)
     = GetNodeID (NewTDMAFrame slotID nodeID' data')).
Proof.
  assert (G : forall n d,
             GetNodeID (NewTDMAFrame slotID n d)
             = string_of_list_byte
                 (trimRightByte x00 (firstn 32 (list_byte_of_string n)))).
  { intros n d. unfold GetNodeID. cbn [NodeID NewTDMAFrame withCRC].
    rewrite nodeID_field, trimRightByte_padding. reflexivity. }
  split; [apply G|]. split.
  - intros Hlen Hend. rewrite G.
    rewrite firstn_all2 by (rewrite list_byte_of_string_length; exact Hlen).
    rewrite trimRightByte_id by exact Hend.
    apply string_of_list_byte_of_string.
  - intros E. rewrite !G, E. reflexivity.
Qed.

Lemma GetNodeID_of_constructed_witness :
  GetNodeID (NewTDMAFrame 4 "GROUND_STATION_001" [x01]) = "GROUND_STATION_001"%string /\
  GetNodeID (NewTDMAFrame 4 "0123456789012345678901234567890123456789" [x01])
    = GetNodeID (NewTDMAFrame 4 "01234567890123456789012345678901-other" []).
Proof.
  destruct (GetNodeID_of_constructed 4 "GROUND_STATION_001" "" [x01] [])
    as (_ & H & _).
  destruct (GetNodeID_of_constructed 4 "0123456789012345678901234567890123456789"
              "01234567890123456789012345678901-other" [x01] []) as (_ & _ & H').
  split.
  - apply H; [cbn; lia|]. intros bs E.
    apply (f_equal (fun l => List.last l x01)) in E. rewrite List.last_last in E.
    vm_compute in E. discriminate E.
  - apply H'. reflexivity.
Defined.

End NodeIDProps.

(* ===================================================================== *)
(** * Further properties of the scheduler *)
(* ===================================================================== *)

Module SweepFacts.
Import Go Scheduler GoFacts SchedulerFacts AllocateProps.

Lemma owned_test_true nodeID st :
  String.eqb (NodeID st) nodeID && String.eqb (Status st) "ASSIGNED" = true
  <-> heldBy nodeID st.
Proof.
  unfold heldBy. rewrite andb_true_iff, !String.eqb_eq. reflexivity.
Qed.

Lemma owned_test_false nodeID st :
  String.eqb (NodeID st) nodeID && String.eqb (Status st) "ASSIGNED" = false
  <-> (NodeID st <> nodeID \/ Status st <> "ASSIGNED"%string).
Proof.
  rewrite andb_false_iff, !String.eqb_neq. reflexivity.
Qed.

(** The first loop only writes to slots it visits. *)
Lemma ownedLoop_outside nodeID now dur idx m :
  match ownedLoop nodeID now dur idx m with
  | Return _ m' | Next m' => forall k, k ∉ idx -> m' !! k = m !! k
  | Crash => True
  end.
Proof.
  revert m. induction idx as [|i idx IH]; intros m; cbn [ownedLoop].
  - intros k _. reflexivity.
  - destruct (m !! i) as [st|] eqn:Ei; [|exact I].
    destruct (String.eqb (NodeID st) nodeID && String.eqb (Status st) "ASSIGNED").
    + destruct (Sub now (StartTime st) <? int64 (dur * 10)).
      * intros k _. reflexivity.
      * specialize (IH (<[i := expire st]> m)).
        destruct (ownedLoop nodeID now dur idx (<[i := expire st]> m));
          try exact I; intros k Hk; apply not_elem_of_cons in Hk;
          (rewrite IH by tauto); apply lookup_insert_ne; intros ->; tauto.
    + specialize (IH m).
      destruct (ownedLoop nodeID now dur idx m); try exact I;
        intros k Hk; apply not_elem_of_cons in Hk; apply IH; tauto.
Qed.

(** When the first loop returns slot [i], that slot is held by the node and
    young enough, and no slot visited before it is held by the node any
    more. *)
Lemma ownedLoop_Return nodeID now dur idx m i m' :
  NoDup idx -> ownedLoop nodeID now dur idx m = Return i m' ->
  exists pre post st,
    idx = pre ++ i :: post /\
    (forall j, j ∈ pre -> exists st', m' !! j = Some st' /\
        (NodeID st' <> nodeID \/ Status st' <> "ASSIGNED"%string)) /\
    m' !! i = Some st /\ heldBy nodeID st /\
    Sub now (StartTime st) < int64 (dur * 10).
Proof.
  revert m. induction idx as [|i0 idx IH]; intros m ND; cbn [ownedLoop];
    [discriminate|].
  apply NoDup_cons in ND. destruct ND as [Hni ND].
  destruct (m !! i0) as [st0|] eqn:Ei; [|discriminate].
  destruct (String.eqb (NodeID st0) nodeID && String.eqb (Status st0) "ASSIGNED") eqn:Eo.
  - destruct (Sub now (StartTime st0) <? int64 (dur * 10)) eqn:Et.
    + intros [= <- <-]. exists [], idx, st0. split; [reflexivity|].
      split; [intros j Hj; inversion Hj|]. split; [exact Ei|].
      split; [apply owned_test_true; exact Eo | apply Z.ltb_lt; exact Et].
    + intros H. pose proof (ownedLoop_outside nodeID now dur idx (<[i0 := expire st0]> m)) as O.
      rewrite H in O.
      destruct (IH _ ND H) as (pre & post & st & E & Hpre & Hi & Hh & Ht).
      exists (i0 :: pre), post, st. split; [rewrite E; reflexivity|].
      split; [|auto].
      intros j Hj. apply elem_of_cons in Hj. destruct Hj as [->|Hj]; [|auto].
      rewrite O by exact Hni. rewrite lookup_insert_eq.
      eexists. split; [reflexivity|]. right. discriminate.
  - intros H. pose proof (ownedLoop_outside nodeID now dur idx m) as O.
    rewrite H in O.
    destruct (IH _ ND H) as (pre & post & st & E & Hpre & Hi & Hh & Ht).
    exists (i0 :: pre), post, st. split; [rewrite E; reflexivity|].
    split; [|auto].
    intros j Hj. apply elem_of_cons in Hj. destruct Hj as [->|Hj]; [|auto].
    rewrite O by exact Hni. exists st0. split; [exact Ei|].
    apply owned_test_false. exact Eo.
Qed.

(** When the first loop falls through, the node holds none of the slots it
    visited. *)
Lemma ownedLoop_Next_sweep nodeID now dur idx m m' :
  NoDup idx -> ownedLoop nodeID now dur idx m = Next m' ->
  forall j, j ∈ idx -> exists st', m' !! j = Some st' /\
      (NodeID st' <> nodeID \/ Status st' <> "ASSIGNED"%string).
Proof.
  revert m. induction idx as [|i0 idx IH]; intros m ND; cbn [ownedLoop].
  - intros _ j Hj. inversion Hj.
  - apply NoDup_cons in ND. destruct ND as [Hni ND].
    destruct (m !! i0) as [st0|] eqn:Ei; [|discriminate].
    destruct (String.eqb (NodeID st0) nodeID && String.eqb (Status st0) "ASSIGNED") eqn:Eo.
    + destruct (Sub now (StartTime st0) <? int64 (dur * 10)); [discriminate|].
      intros H j Hj.
      pose proof (ownedLoop_outside nodeID now dur idx (<[i0 := expire st0]> m)) as O.
      rewrite H in O.
      apply elem_of_cons in Hj. destruct Hj as [->|Hj]; [|eapply IH; eassumption].
      rewrite O by exact Hni. rewrite lookup_insert_eq.
      eexists. split; [reflexivity|]. right. discriminate.
    + intros H j Hj.
      pose proof (ownedLoop_outside nodeID now dur idx m) as O. rewrite H in O.
      apply elem_of_cons in Hj. destruct Hj as [->|Hj]; [|eapply IH; eassumption].
      rewrite O by exact Hni. exists st0. split; [exact Ei|].
      apply owned_test_false. exact Eo.
Qed.

(** A slot held by the node and young enough, with no held slot before it,
    is what the first loop returns, leaving the table as it is. *)
Lemma ownedLoop_finds nodeID now dur pre k post m st :
  (forall j, j ∈ pre -> exists st', m !! j = Some st' /\
      (NodeID st' <> nodeID \/ Status st' <> "ASSIGNED"%string)) ->
  m !! k = Some st -> heldBy nodeID st ->
  Sub now (StartTime st) < int64 (dur * 10) ->
  ownedLoop nodeID now dur (pre ++ k :: post) m = Return k m.
Proof.
  intros Hpre Hk Hh Ht. induction pre as [|j pre IH]; cbn [app ownedLoop].
  - rewrite Hk. apply owned_test_true in Hh. rewrite Hh.
    apply Z.ltb_lt in Ht. rewrite Ht. reflexivity.
  - destruct (Hpre j ltac:(left)) as (st' & -> & Hn).
    apply owned_test_false in Hn. rewrite Hn.
    apply IH. intros j' Hj'. apply Hpre. right. exact Hj'.
Qed.

Lemma ownedLoop_no_crash nodeID now dur idx m :
  (forall i, i ∈ idx -> is_Some (m !! i)) ->
  ownedLoop nodeID now dur idx m <> Crash.
Proof.
  revert m. induction idx as [|i idx IH]; intros m K; cbn [ownedLoop]; [discriminate|].
  destruct (K i ltac:(left)) as [st Ei]. rewrite Ei.
  destruct (String.eqb (NodeID st) nodeID && String.eqb (Status st) "ASSIGNED").
  - destruct (Sub now (StartTime st) <? int64 (dur * 10)); [discriminate|].
    apply IH. intros j Hj. eapply keys_insert; [exact Ei|]. apply K. right. exact Hj.
  - apply IH. intros j Hj. apply K. right. exact Hj.
Qed.

(** What the scan returns: the slot was free and is now assigned. *)
Lemma scanLoop_Return nodeID now cur total offs m k m' :
  scanLoop nodeID now cur total offs m = Return k m' ->
  exists st, m !! k = Some st /\ Status st = "FREE"%string /\
             m' = <[k := assign nodeID now st]> m.
Proof.
  induction offs as [|o offs IH]; cbn [scanLoop]; [discriminate|].
  destruct (rem (int64 (cur + o)) total) as [k0|]; [|discriminate].
  destruct (m !! k0) as [st|] eqn:Em; [|discriminate].
  destruct (String.eqb (Status st) "FREE") eqn:Es; [|exact IH].
  intros [= <- <-]. exists st. split; [exact Em|]. split; [|reflexivity].
  apply String.eqb_eq. exact Es.
Qed.

Lemma scanLoop_no_crash nodeID now cur total offs m :
  0 < total -> total < 2 ^ 62 -> 0 <= cur < total ->
  (forall off, off ∈ offs -> 0 <= off < total) ->
  (forall i, 0 <= i < total -> is_Some (m !! i)) ->
  scanLoop nodeID now cur total offs m <> Crash.
Proof.
  intros Ht Hs Hc Ho K. induction offs as [|o offs IH]; cbn [scanLoop]; [discriminate|].
  pose proof (Ho o ltac:(left)) as Ho1.
  rewrite rem_in_range by lia.
  destruct (K ((cur + o) mod total)) as [st Em]; [apply Z.mod_pos_bound; lia|].
  rewrite Em. destruct (String.eqb (Status st) "FREE"); [discriminate|].
  apply IH. intros off Hoff. apply Ho. right. exact Hoff.
Qed.

(** The fourth loop: the result is the earliest start time among the
    assigned slots that started before the initial bound, with a slot that
    has it. *)
Lemma oldestLoop_spec idx m a t :
  (forall i, i ∈ idx -> is_Some (m !! i)) ->
  exists a' t',
    oldestLoop idx m (a, t) = Some (a', t') /\ t' <= t /\
    (forall i st, i ∈ idx -> m !! i = Some st -> Status st = "ASSIGNED"%string ->
                  t' <= StartTime st) /\
    ((a' = a /\ t' = t) \/
     (a' ∈ idx /\ t' < t /\
      exists st, m !! a' = Some st /\ Status st = "ASSIGNED"%string /\
                 StartTime st = t')).
Proof.
  revert a t. induction idx as [|i idx IH]; intros a t K; cbn [oldestLoop].
  - exists a, t. split; [reflexivity|]. split; [lia|]. split; [|left; auto].
    intros i st Hi. inversion Hi.
  - destruct (K i ltac:(left)) as [st Ei]. rewrite Ei.
    assert (K' : forall j, j ∈ idx -> is_Some (m !! j))
      by (intros j Hj; apply K; right; exact Hj).
    destruct (String.eqb (Status st) "ASSIGNED") eqn:Es.
    + cbn [snd]. destruct (StartTime st <? t) eqn:Et.
      * apply Z.ltb_lt in Et.
        destruct (IH i (StartTime st) K') as (a' & t' & E & Hle & Hmin & Hw).
        exists a', t'. split; [exact E|]. split; [lia|]. split.
        -- intros j st' Hj Hl Hs. apply elem_of_cons in Hj. destruct Hj as [->|Hj].
           ++ rewrite Ei in Hl. injection Hl as <-. exact Hle.
           ++ eapply Hmin; eassumption.
        -- right. destruct Hw as [[-> ->]|(Ha & Hlt & st' & Hl & Hs & Hst)].
           ++ split; [left|]. split; [exact Et|].
              exists st. split; [exact Ei|]. split; [|reflexivity].
              apply String.eqb_eq. exact Es.
           ++ split; [right; exact Ha|]. split; [lia|]. eauto.
      * apply Z.ltb_ge in Et.
        destruct (IH a t K') as (a' & t' & E & Hle & Hmin & Hw).
        exists a', t'. split; [exact E|]. split; [exact Hle|]. split.
        -- intros j st' Hj Hl Hs. apply elem_of_cons in Hj. destruct Hj as [->|Hj].
           ++ rewrite Ei in Hl. injection Hl as <-. lia.
           ++ eapply Hmin; eassumption.
        -- destruct Hw as [Hw|(Ha & Hlt & Hst)]; [left; exact Hw|].
           right. split; [right; exact Ha|]. split; [exact Hlt|exact Hst].
    + destruct (IH a t K') as (a' & t' & E & Hle & Hmin & Hw).
      exists a', t'. split; [exact E|]. split; [exact Hle|]. split.
      * intros j st' Hj Hl Hs. apply elem_of_cons in Hj. destruct Hj as [->|Hj].
        -- rewrite Ei in Hl. injection Hl as <-. rewrite Hs in Es. discriminate Es.
        -- eapply Hmin; eassumption.
      * destruct Hw as [Hw|(Ha & Hlt & Hst)]; [left; exact Hw|].
        right. split; [right; exact Ha|]. split; [exact Hlt|exact Hst].
Qed.

(** The schedule shows a slot exactly when the table has it assigned. *)
Lemma GetSchedule_lookup s k :
  GetSchedule s !! k
  = match slots s !! k with
    | Some st => if String.eqb (Status st) "ASSIGNED" then Some (NodeID st) else None
    | None => None
    end.
Proof.
  unfold GetSchedule. revert k.
  apply (map_fold_weak_ind
           (fun (r : gmap Z string) (m : gmap Z SlotStatus) =>
              forall k, r !! k = match m !! k with
                                 | Some st => if String.eqb (Status st) "ASSIGNED"
                                              then Some (NodeID st) else None
                                 | None => None
                                 end)).
  - intros k. rewrite !lookup_empty. reflexivity.
  - intros i x m r Hi IH k. destruct (decide (i = k)) as [->|Hne].
    + rewrite lookup_insert_eq.
      destruct (String.eqb (Status x) "ASSIGNED").
      * apply lookup_insert_eq.
      * rewrite IH, Hi. reflexivity.
    + rewrite (lookup_insert_ne m) by exact Hne.
      destruct (String.eqb (Status x) "ASSIGNED").
      * rewrite lookup_insert_ne by exact Hne. apply IH.
      * apply IH.
Qed.

(** The loops of the scheduler visit exactly the keys of the table. *)
Lemma seqZ_keys s i : sched_ok s -> (i ∈ seqZ 0 (totalSlots s) <-> is_Some (slots s !! i)).
Proof. intros [k1 _ _]. rewrite elem_of_seqZ, k1. lia. Qed.

End SweepFacts.

Module AllocateMore.
Import Go Scheduler GoFacts SchedulerFacts AllocateProps SweepFacts.

(** Assigning a slot after a sweep that found nothing held: the new slot is
    the only one the node holds among those before it. *)
Lemma assign_after_sweep nodeID now idx (m : gmap Z SlotStatus) k st0 :
  NoDup idx ->
  (forall j, j ∈ idx -> exists st', m !! j = Some st' /\
      (NodeID st' <> nodeID \/ Status st' <> "ASSIGNED"%string)) ->
  k ∈ idx -> m !! k = Some st0 ->
  exists pre post st,
    idx = pre ++ k :: post /\
    (forall j, j ∈ pre -> exists st', <[k := assign nodeID now st0]> m !! j = Some st' /\
        (NodeID st' <> nodeID \/ Status st' <> "ASSIGNED"%string)) /\
    <[k := assign nodeID now st0]> m !! k = Some st /\ heldBy nodeID st /\
    StartTime st = now.
Proof.
  intros ND Hun Hk Hl. apply list_elem_of_split in Hk.
  destruct Hk as (pre & post & ->).
  exists pre, post, (assign nodeID now st0). split; [reflexivity|].
  apply NoDup_app in ND. destruct ND as (_ & Hdis & _).
  split; [|split; [apply lookup_insert_eq | split; [split; reflexivity | reflexivity]]].
  intros j Hj. rewrite lookup_insert_ne.
  - apply Hun. apply elem_of_app. left. exact Hj.
  - intros ->. apply (Hdis j Hj). left.
Qed.

(** What a successful call leaves behind. *)
Lemma AllocateTimeSlot_outcome s nodeID priority now k s' :
  sched_ok s ->
  AllocateTimeSlot s nodeID priority now = Some ((k, None), s') ->
  exists pre post st,
    seqZ 0 (totalSlots s) = pre ++ k :: post /\
    (forall j, j ∈ pre -> exists st', slots s' !! j = Some st' /\
        (NodeID st' <> nodeID \/ Status st' <> "ASSIGNED"%string)) /\
    slots s' !! k = Some st /\ heldBy nodeID st /\
    (StartTime st = now \/ Sub now (StartTime st) < int64 (slotDuration s * 10)).
Proof.
  intros Hok. pose proof (NoDup_seqZ 0 (totalSlots s)) as ND.
  unfold AllocateTimeSlot.
  pose proof (ownedLoop_keys nodeID now (slotDuration s) (seqZ 0 (totalSlots s)) (slots s)) as K1.
  destruct (ownedLoop nodeID now (slotDuration s) (seqZ 0 (totalSlots s)) (slots s))
    as [i m|m|] eqn:EO; [| |discriminate].
  { intros [= <- <-]. cbn [slots withSlots].
    destruct (ownedLoop_Return _ _ _ _ _ _ _ ND EO) as (pre & post & st & E & Hp & Hi & Hh & Ht).
    exists pre, post, st. repeat split; try assumption; try apply Hh. right. exact Ht. }
  pose proof (ownedLoop_Next_sweep _ _ _ _ _ _ ND EO) as Hun.
  assert (Hin : forall j st, m !! j = Some st -> j ∈ seqZ 0 (totalSlots s)).
  { intros j st Hj. apply seqZ_keys; [exact Hok|]. apply K1. eauto. }
  assert (Fin : forall kk st0,
             m !! kk = Some st0 ->
             Some ((kk, None), withSlots s (<[kk := assign nodeID now st0]> m))
               = Some ((k, @None SchedError), s') ->
             exists pre post st,
               seqZ 0 (totalSlots s) = pre ++ k :: post /\
               (forall j, j ∈ pre -> exists st', slots s' !! j = Some st' /\
                   (NodeID st' <> nodeID \/ Status st' <> "ASSIGNED"%string)) /\
               slots s' !! k = Some st /\ heldBy nodeID st /\
               (StartTime st = now \/ Sub now (StartTime st) < int64 (slotDuration s * 10))).
  { intros kk st0 Hl [= <- <-]. cbn [slots withSlots].
    destruct (assign_after_sweep nodeID now _ m kk st0 ND Hun (Hin _ _ Hl) Hl)
      as (pre & post & st & E & Hp & Hi & Hh & Ht).
    exists pre, post, st. repeat split; try assumption; try apply Hh. left. exact Ht. }
  destruct (rem (int64 (currentSlot s + 1)) (totalSlots s)) as [nextSlot|]; [|discriminate].
  destruct (m !! currentSlot s) as [st|] eqn:Ec; [|discriminate].
  destruct (String.eqb (Status st) "FREE").
  { intros H. eapply Fin; [|exact H]; eassumption. }
  destruct (m !! nextSlot) as [st'|] eqn:En; [|discriminate].
  destruct (String.eqb (Status st') "FREE").
  { intros H. eapply Fin; [|exact H]; eassumption. }
  destruct (scanLoop nodeID now (currentSlot s) (totalSlots s)
              (seqZ 2 (totalSlots s - 2)) m) as [k0 m'|m'|] eqn:ES; [| |discriminate].
  { apply scanLoop_Return in ES. destruct ES as (st0 & Hl & _ & ->).
    intros H. eapply Fin; [|exact H]; eassumption. }
  apply scanLoop_Next in ES. destruct ES as [-> _].
  destruct (oldestLoop (seqZ 0 (totalSlots s)) m (-1, now)) as [[oldestSlot oldestTime]|];
    [|discriminate].
  destruct (negb (oldestSlot =? -1) && (Sub now oldestTime >? int64 (slotDuration s * 5)));
    [|discriminate].
  destruct (m !! oldestSlot) as [o|] eqn:Eo; [|discriminate].
  intros H. eapply Fin; [|exact H]; eassumption.
Qed.

(** X8. A successful [AllocateTimeSlot] returns a slot number inside the
    table; after the call [GetSlotStatus] returns, without error, a record
    of that slot that is assigned to the node, the schedule returned by
    [GetSchedule] shows the node at that slot, and the invariant of the
    scheduler still holds. *)
Theorem allocated_slot_is_held s nodeID priority now k s' :
  sched_ok s ->
  AllocateTimeSlot s nodeID priority now = Some ((k, None), s') ->
  0 <= k < totalSlots s /\
  (exists st, GetSlotStatus s' k = (Some st, None) /\ heldBy nodeID st) /\
  GetSchedule s' !! k = Some nodeID /\
  sched_ok s'.
Proof.
  intros Hok H.
  pose proof (AllocateTimeSlot_frame _ _ _ _ _ _ H) as Fr.
  destruct (AllocateTimeSlot_outcome _ _ _ _ _ _ Hok H)
    as (pre & post & st & E & _ & Hl & Hh & _).
  assert (Hk : k ∈ seqZ 0 (totalSlots s))
    by (rewrite E; apply elem_of_app; right; left).
  apply elem_of_seqZ in Hk. split; [lia|]. split; [|split].
  - exists st. split; [|exact Hh]. unfold GetSlotStatus.
    destruct Fr as (_ & -> & _).
    assert (Hg : (k <? 0) || (k >=? totalSlots s) = false).
    { apply orb_false_iff. split; [apply Z.ltb_ge; lia|].
      destruct (Z.geb_spec k (totalSlots s)); [lia|reflexivity]. }
    rewrite Hg, Hl. reflexivity.
  - rewrite GetSchedule_lookup, Hl. destruct Hh as [Hn Hs].
    rewrite Hs. cbn. rewrite Hn. reflexivity.
  - eapply same_frame_ok; eassumption.
Qed.

Lemma allocated_slot_is_held_witness :
  exists s',
    AllocateTimeSlot (NewTDMAScheduler 4 1000000000 0) "GS1" 1 5 = Some ((0, None), s') /\
    GetSchedule s' !! 0 = Some "GS1"%string.
Proof.
  assert (Hrun : AllocateTimeSlot (NewTDMAScheduler 4 1000000000 0) "GS1" 1 5
                 = Some ((0, None),
                         stateOf (AllocateTimeSlot (NewTDMAScheduler 4 1000000000 0) "GS1" 1 5)
                                 (NewTDMAScheduler 4 1000000000 0)))
    by (vm_compute; reflexivity).
  eexists. split; [exact Hrun|].
  apply (allocated_slot_is_held (NewTDMAScheduler 4 1000000000 0) "GS1" 1 5 0 _
           (proj1 (NewTDMAScheduler_ok 4 1000000000 0 ltac:(lia))) Hrun).
Defined.

(** X9. Re-allocation is idempotent while the slot is young: after a
    successful [AllocateTimeSlot] for a node returned slot [k], a further
    call for the same node, made while slot [k] is younger than ten slot
    durations, returns [k] again and leaves the scheduler unchanged; the
    priority plays no part. *)
Theorem reallocation_returns_same_slot s nodeID priority now k s' priority' now' :
  sched_ok s ->
  AllocateTimeSlot s nodeID priority now = Some ((k, None), s') ->
  (forall st, slots s' !! k = Some st ->
              Sub now' (StartTime st) < int64 (slotDuration s * 10)) ->
  AllocateTimeSlot s' nodeID priority' now' = Some ((k, None), s').
Proof.
  intros Hok H Hfresh.
  destruct (AllocateTimeSlot_frame _ _ _ _ _ _ H) as (_ & HN & _ & HD).
  destruct (AllocateTimeSlot_outcome _ _ _ _ _ _ Hok H)
    as (pre & post & st & E & Hpre & Hl & Hh & _).
  unfold AllocateTimeSlot. rewrite HN, HD, E.
  rewrite (ownedLoop_finds nodeID now' (slotDuration s) pre k post (slots s') st
             Hpre Hl Hh (Hfresh st Hl)).
  rewrite withSlots_same. reflexivity.
Qed.

Lemma reallocation_returns_same_slot_witness :
  exists s',
    AllocateTimeSlot (NewTDMAScheduler 4 1000000000 0) "GS1" 1 5 = Some ((0, None), s') /\
    AllocateTimeSlot s' "GS1" 9 9000000000 = Some ((0, None), s').
Proof.
  assert (Hrun : AllocateTimeSlot (NewTDMAScheduler 4 1000000000 0) "GS1" 1 5
                 = Some ((0, None),
                         stateOf (AllocateTimeSlot (NewTDMAScheduler 4 1000000000 0) "GS1" 1 5)
                                 (NewTDMAScheduler 4 1000000000 0)))
    by (vm_compute; reflexivity).
  eexists. split; [exact Hrun|].
  apply (reallocation_returns_same_slot (NewTDMAScheduler 4 1000000000 0) "GS1" 1 5 0 _ 9
           9000000000 (proj1 (NewTDMAScheduler_ok 4 1000000000 0 ltac:(lia))) Hrun).
  intros st Hst. vm_compute in Hst. injection Hst as <-. vm_compute. reflexivity.
Defined.

End AllocateMore.

Module OwnershipProps.
Import Go Scheduler GoFacts SchedulerFacts AllocateProps SweepFacts.

(** The first loop only releases: every record that is assigned after it
    was there, unchanged, before it. *)
Lemma ownedLoop_assigned nodeID now dur idx m :
  match ownedLoop nodeID now dur idx m with
  | Return _ m' | Next m' =>
      forall j st', m' !! j = Some st' -> Status st' = "ASSIGNED"%string ->
                    m !! j = Some st'
  | Crash => True
  end.
Proof.
  revert m. induction idx as [|i idx IH]; intros m; cbn [ownedLoop].
  - auto.
  - destruct (m !! i) as [st|] eqn:Ei; [|exact I].
    destruct (String.eqb (NodeID st) nodeID && String.eqb (Status st) "ASSIGNED").
    + destruct (Sub now (StartTime st) <? int64 (dur * 10)); [auto|].
      specialize (IH (<[i := expire st]> m)).
      destruct (ownedLoop nodeID now dur idx (<[i := expire st]> m)); try exact I;
        intros j st' Hl Hs; specialize (IH j st' Hl Hs);
        (destruct (decide (i = j)) as [->|Hne];
         [rewrite lookup_insert_eq in IH; injection IH as <-; discriminate Hs
         |rewrite lookup_insert_ne in IH by exact Hne; exact IH]).
    + apply IH.
Qed.

(** The three ways [AllocateTimeSlot] returns: with a slot the node already
    holds, with a slot assigned after the first loop found none, or with the
    error after the first loop found none. *)
Lemma AllocateTimeSlot_paths s nodeID priority now r s' :
  AllocateTimeSlot s nodeID priority now = Some (r, s') ->
  (exists k m,
      ownedLoop nodeID now (slotDuration s) (seqZ 0 (totalSlots s)) (slots s) = Return k m /\
      r = (k, None) /\ s' = withSlots s m)
  \/
  (exists k m st0,
      ownedLoop nodeID now (slotDuration s) (seqZ 0 (totalSlots s)) (slots s) = Next m /\
      m !! k = Some st0 /\
      r = (k, None) /\ s' = withSlots s (<[k := assign nodeID now st0]> m))
  \/
  (exists m,
      ownedLoop nodeID now (slotDuration s) (seqZ 0 (totalSlots s)) (slots s) = Next m /\
      r = (-1, Some ErrNoSlot) /\ s' = withSlots s m).
Proof.
  unfold AllocateTimeSlot.
  destruct (ownedLoop nodeID now (slotDuration s) (seqZ 0 (totalSlots s)) (slots s))
    as [i m|m|] eqn:EO; [| |discriminate].
  { intros [= <- <-]. left. eauto. }
  intros H. right. revert H.
  destruct (rem (int64 (currentSlot s + 1)) (totalSlots s)) as [nextSlot|]; [|discriminate].
  destruct (m !! currentSlot s) as [st|] eqn:Ec; [|discriminate].
  destruct (String.eqb (Status st) "FREE").
  { intros [= <- <-]. left. eauto 10. }
  destruct (m !! nextSlot) as [st'|] eqn:En; [|discriminate].
  destruct (String.eqb (Status st') "FREE").
  { intros [= <- <-]. left. eauto 10. }
  destruct (scanLoop nodeID now (currentSlot s) (totalSlots s)
              (seqZ 2 (totalSlots s - 2)) m) as [k0 m'|m'|] eqn:ES; [| |discriminate].
  { apply scanLoop_Return in ES. destruct ES as (st0 & Hl & _ & ->).
    intros [= <- <-]. left. eauto 10. }
  apply scanLoop_Next in ES. destruct ES as [-> _].
  destruct (oldestLoop (seqZ 0 (totalSlots s)) m (-1, now)) as [[oldestSlot oldestTime]|];
    [|discriminate].
  destruct (negb (oldestSlot =? -1) && (Sub now oldestTime >? int64 (slotDuration s * 5))).
  - destruct (m !! oldestSlot) as [o|] eqn:Eo; [|discriminate].
    intros [= <- <-]. left. eauto 10.
  - intros [= <- <-]. right. eauto.
Qed.

Lemma NewTDMAScheduler_one_slot_each n d now : one_slot_each (NewTDMAScheduler n d now).
Proof.
  intros i j st st' Hi _ Hs _ _. rewrite NewTDMAScheduler_lookup in Hi.
  destruct (decide (0 <= i < n)); [|discriminate].
  injection Hi as <-. discriminate Hs.
Qed.

(** X17. [AllocateTimeSlot] never gives a node a second slot: on a scheduler
    that satisfies its invariant and in which no node owns two assigned
    slots, whatever the call returns, no node owns two assigned slots after
    it.  (A new scheduler is in such a state.) *)
Theorem AllocateTimeSlot_keeps_one_slot_each s nodeID priority now r s' :
  sched_ok s -> one_slot_each s ->
  AllocateTimeSlot s nodeID priority now = Some (r, s') ->
  one_slot_each s'.
Proof.
  intros Hok Huniq H.
  pose proof (NoDup_seqZ 0 (totalSlots s)) as ND.
  pose proof (ownedLoop_assigned nodeID now (slotDuration s) (seqZ 0 (totalSlots s))
                (slots s)) as OA.
  pose proof (ownedLoop_keys nodeID now (slotDuration s) (seqZ 0 (totalSlots s))
                (slots s)) as K1.
  destruct (AllocateTimeSlot_paths _ _ _ _ _ _ H)
    as [(k & m & EO & _ & ->)|[(k & m & st0 & EO & Hk & _ & ->)|(m & EO & _ & ->)]];
    rewrite EO in OA, K1; cbn [withSlots slots].
  - intros i j st st' Hi Hj Hs Hs' Hn. cbn [withSlots slots] in Hi, Hj.
    eapply Huniq; eauto.
  - pose proof (ownedLoop_Next_sweep _ _ _ _ _ _ ND EO) as Hun.
    assert (Hin : forall j st, m !! j = Some st -> j ∈ seqZ 0 (totalSlots s)).
    { intros j st Hj. apply seqZ_keys; [exact Hok|]. apply K1. eauto. }
    assert (Hother : forall j st', j <> k -> m !! j = Some st' ->
                       Status st' = "ASSIGNED"%string -> NodeID st' <> nodeID).
    { intros j st' _ Hj Hs Hn. destruct (Hun j (Hin _ _ Hj)) as (st2 & Hl2 & Hne).
      rewrite Hj in Hl2. injection Hl2 as <-. tauto. }
    intros i j st st' Hi Hj Hs Hs' Hn. cbn [withSlots slots] in Hi, Hj.
    destruct (decide (i = k)) as [->|Hik]; destruct (decide (j = k)) as [->|Hjk];
      [reflexivity| | |].
    + rewrite lookup_insert_eq in Hi. injection Hi as <-.
      rewrite lookup_insert_ne in Hj by congruence.
      exfalso. apply (Hother j st' Hjk Hj Hs'). rewrite <- Hn. reflexivity.
    + rewrite lookup_insert_eq in Hj. injection Hj as <-.
      rewrite lookup_insert_ne in Hi by congruence.
      exfalso. apply (Hother i st Hik Hi Hs). rewrite Hn. reflexivity.
    + rewrite lookup_insert_ne in Hi by congruence.
      rewrite lookup_insert_ne in Hj by congruence.
      eapply Huniq; eauto.
  - intros i j st st' Hi Hj Hs Hs' Hn. cbn [withSlots slots] in Hi, Hj.
    eapply Huniq; eauto.
Qed.

Lemma AllocateTimeSlot_keeps_one_slot_each_witness :
  one_slot_each
    (stateOf (AllocateTimeSlot (NewTDMAScheduler 4 1000000000 0) "GS1" 1 5)
             (NewTDMAScheduler 4 1000000000 0)).
Proof.
  assert (Hrun : AllocateTimeSlot (NewTDMAScheduler 4 1000000000 0) "GS1" 1 5
                 = Some ((0, None),
                         stateOf (AllocateTimeSlot (NewTDMAScheduler 4 1000000000 0) "GS1" 1 5)
                                 (NewTDMAScheduler 4 1000000000 0)))
    by (vm_compute; reflexivity).
  exact (AllocateTimeSlot_keeps_one_slot_each (NewTDMAScheduler 4 1000000000 0) "GS1" 1 5 _ _
           (proj1 (NewTDMAScheduler_ok 4 1000000000 0 ltac:(lia)))
           (NewTDMAScheduler_one_slot_each 4 1000000000 0) Hrun).
Defined.

End OwnershipProps.

Module PolicyFacts.
Import Go Scheduler GoFacts SchedulerFacts AllocateProps SweepFacts.

Lemma Sub_antitone now t u : t <= u -> Sub now u <= Sub now t.
Proof.
  intros H. unfold Sub, minInt64, maxInt64.
  destruct (now - u <? - 2 ^ 63) eqn:E1; destruct (now - t <? - 2 ^ 63) eqn:E2;
    destruct (2 ^ 63 - 1 <? now - u) eqn:E3; destruct (2 ^ 63 - 1 <? now - t) eqn:E4;
    lia.
Qed.

(** When the pointer, its successor and the scan found no free slot, the
    table has none. *)
Lemma ring_all_taken cur n (m : gmap Z SlotStatus) st st' :
  0 < n -> n < 2 ^ 62 -> 0 <= cur < n ->
  m !! cur = Some st -> Status st <> "FREE"%string ->
  m !! ((cur + 1) mod n) = Some st' -> Status st' <> "FREE"%string ->
  (forall off, off ∈ seqZ 2 (n - 2) ->
     exists k st2, rem (int64 (cur + off)) n = Some k /\
                   m !! k = Some st2 /\ Status st2 <> "FREE"%string) ->
  forall i fs, 0 <= i < n -> m !! i = Some fs -> Status fs <> "FREE"%string.
Proof.
  intros Hn Hs Hc Ec Fc En Fn Hscan i fs Hi Hl.
  destruct (ring_covered cur n i Hn Hc Hi) as [->|[->|(off & Hoff & ->)]].
  - congruence.
  - congruence.
  - destruct (Hscan off) as (k & st2 & Ek & Em & Es).
    { apply elem_of_seqZ. lia. }
    rewrite rem_in_range in Ek by lia. congruence.
Qed.

(** A table without a free slot passes the scan. *)
Lemma scanLoop_all_taken nodeID now cur total offs (m : gmap Z SlotStatus) :
  0 < total -> total < 2 ^ 62 -> 0 <= cur < total ->
  (forall off, off ∈ offs -> 0 <= off < total) ->
  (forall i, 0 <= i < total ->
     exists st, m !! i = Some st /\ Status st <> "FREE"%string) ->
  scanLoop nodeID now cur total offs m = Next m.
Proof.
  intros Ht Hs Hc Ho K. induction offs as [|o offs IH]; cbn [scanLoop]; [reflexivity|].
  pose proof (Ho o ltac:(left)) as Ho1.
  rewrite rem_in_range by lia.
  destruct (K ((cur + o) mod total)) as (st & Em & Hf); [apply Z.mod_pos_bound; lia|].
  rewrite Em. apply String.eqb_neq in Hf. rewrite Hf.
  apply IH. intros off Hoff. apply Ho. right. exact Hoff.
Qed.

Lemma table_total s i : sched_ok s -> 0 <= i < totalSlots s -> is_Some (slots s !! i).
Proof. intros [k1 _ _] H. apply k1. exact H. Qed.

Lemma table_range s i st : sched_ok s -> slots s !! i = Some st -> 0 <= i < totalSlots s.
Proof. intros [k1 _ _] H. apply k1. eauto. Qed.

End PolicyFacts.

Module PolicyProps.
Import Go Scheduler GoFacts SchedulerFacts AllocateProps SweepFacts PolicyFacts.

(** X10. On a scheduler that satisfies its invariant, [AllocateTimeSlot]
    panics exactly when the scheduler has no slot at all ([totalSlots <= 0],
    which [NewTDMAScheduler] accepts): with zero slots the remainder
    [(currentSlot + 1) % totalSlots] divides by zero, with a negative number
    the record of the current slot is nil.  With at least one slot the call
    always returns. *)
Theorem AllocateTimeSlot_panics_iff s nodeID priority now :
  sched_ok s ->
  (AllocateTimeSlot s nodeID priority now = None <-> totalSlots s <= 0).
Proof.
  intros Hok. pose proof Hok as [k1 k2 k3]. split.
  - intros H. destruct (Z_le_gt_dec (totalSlots s) 0) as [Hle|Hgt]; [exact Hle|].
    exfalso. assert (Hn : 0 < totalSlots s) by lia. specialize (k3 Hn).
    revert H. unfold AllocateTimeSlot.
    pose proof (ownedLoop_keys nodeID now (slotDuration s) (seqZ 0 (totalSlots s)) (slots s))
      as K1.
    pose proof (ownedLoop_no_crash nodeID now (slotDuration s) (seqZ 0 (totalSlots s))
                  (slots s)) as NC.
    destruct (ownedLoop nodeID now (slotDuration s) (seqZ 0 (totalSlots s)) (slots s))
      as [i m|m|]; [discriminate| |].
    2:{ exfalso. apply NC; [|reflexivity]. intros i Hi. apply seqZ_keys; assumption. }
    clear NC.
    assert (Km : forall i, 0 <= i < totalSlots s -> is_Some (m !! i)).
    { intros i Hi. apply K1, k1. exact Hi. }
    rewrite rem_in_range by lia.
    destruct (Km (currentSlot s) k3) as [st Ec]. rewrite Ec.
    destruct (String.eqb (Status st) "FREE"); [discriminate|].
    destruct (Km ((currentSlot s + 1) mod totalSlots s)) as [st' En];
      [apply Z.mod_pos_bound; lia|]. rewrite En.
    destruct (String.eqb (Status st') "FREE"); [discriminate|].
    pose proof (scanLoop_no_crash nodeID now (currentSlot s) (totalSlots s)
                  (seqZ 2 (totalSlots s - 2)) m Hn k2 k3) as NC.
    destruct (scanLoop nodeID now (currentSlot s) (totalSlots s)
                (seqZ 2 (totalSlots s - 2)) m) as [k m'|m'|] eqn:ES; [discriminate| |].
    2:{ exfalso. apply NC; [|exact Km|reflexivity].
        intros off Hoff. apply elem_of_seqZ in Hoff. lia. }
    apply scanLoop_Next in ES. destruct ES as [-> _].
    destruct (oldestLoop_spec (seqZ 0 (totalSlots s)) m (-1) now)
      as (a' & t' & E & _ & _ & Hw).
    { intros i Hi. apply Km. apply elem_of_seqZ in Hi. lia. }
    rewrite E.
    destruct (negb (a' =? -1) && (Sub now t' >? int64 (slotDuration s * 5))) eqn:Ecnd;
      [|discriminate].
    destruct Hw as [[-> _]|(Ha & _)]; [cbn in Ecnd; discriminate|].
    apply elem_of_seqZ in Ha. destruct (Km a') as [o Eo]; [lia|]. rewrite Eo. discriminate.
  - intros Hn. unfold AllocateTimeSlot. rewrite seqZ_nil by lia. cbn [ownedLoop].
    unfold rem. destruct (totalSlots s =? 0); [reflexivity|].
    destruct (slots s !! currentSlot s) as [st|] eqn:E; [|reflexivity].
    exfalso. apply (table_range s _ _ Hok) in E. lia.
Qed.

Lemma AllocateTimeSlot_panics_iff_witness :
  AllocateTimeSlot (NewTDMAScheduler 0 1000000000 0) "GS1" 1 5 = None.
Proof.
  apply (AllocateTimeSlot_panics_iff (NewTDMAScheduler 0 1000000000 0) "GS1" 1 5
           (proj1 (NewTDMAScheduler_ok 0 1000000000 0 ltac:(lia)))).
  cbn. lia.
Defined.

(** X11. Which slot a newcomer gets.  When the node holds no slot and
    [AllocateTimeSlot] succeeds with slot [k], exactly the record of slot
    [k] changes (it becomes assigned to the node with the current time), and
    either slot [k] was free, or no slot of the table was free and slot [k]
    was the assigned slot with the earliest start time, that start time lies
    before now and the slot is older than five slot durations: a slot is
    taken from another node only when nothing is free, and then the oldest
    one. *)
Theorem newcomer_gets_free_or_oldest s nodeID priority now k s' :
  sched_ok s ->
  (forall i st, slots s !! i = Some st -> ~ heldBy nodeID st) ->
  AllocateTimeSlot s nodeID priority now = Some ((k, None), s') ->
  exists st,
    slots s !! k = Some st /\
    s' = withSlots s (<[k := assign nodeID now st]> (slots s)) /\
    (Status st = "FREE"%string \/
     ((forall i, ~ slotFree s i) /\
      Status st = "ASSIGNED"%string /\
      (forall i st', slots s !! i = Some st' -> Status st' = "ASSIGNED"%string ->
                     StartTime st <= StartTime st') /\
      StartTime st < now /\
      int64 (slotDuration s * 5) < Sub now (StartTime st))).
Proof.
  intros Hok Hnone. pose proof Hok as [k1 k2 k3].
  unfold AllocateTimeSlot.
  rewrite (ownedLoop_none nodeID now (slotDuration s) (seqZ 0 (totalSlots s)) (slots s)).
  2:{ intros i Hi. apply seqZ_keys in Hi; [|exact Hok]. destruct Hi as [st Hl].
      exists st. split; [exact Hl|]. specialize (Hnone i st Hl). unfold heldBy in Hnone.
      destruct (string_dec (NodeID st) nodeID) as [En|En]; [|left; exact En].
      right. intros Es. apply Hnone. split; assumption. }
  destruct (rem (int64 (currentSlot s + 1)) (totalSlots s)) as [nextSlot|] eqn:Er;
    [|discriminate].
  destruct (slots s !! currentSlot s) as [st|] eqn:Ec; [|discriminate].
  destruct (String.eqb (Status st) "FREE") eqn:Fc.
  { intros [= <- <-]. exists st. split; [exact Ec|]. split; [reflexivity|].
    left. apply String.eqb_eq. exact Fc. }
  destruct (slots s !! nextSlot) as [st'|] eqn:En; [|discriminate].
  destruct (String.eqb (Status st') "FREE") eqn:Fn.
  { intros [= <- <-]. exists st'. split; [exact En|]. split; [reflexivity|].
    left. apply String.eqb_eq. exact Fn. }
  destruct (scanLoop nodeID now (currentSlot s) (totalSlots s)
              (seqZ 2 (totalSlots s - 2)) (slots s)) as [k0 m'|m'|] eqn:ES; [| |discriminate].
  { apply scanLoop_Return in ES. destruct ES as (st0 & Hl & Hf & ->).
    intros [= <- <-]. exists st0. split; [exact Hl|]. split; [reflexivity|].
    left. exact Hf. }
  apply scanLoop_Next in ES. destruct ES as [-> Hscan].
  assert (Hn : 0 < totalSlots s).
  { apply (table_range s _ _ Hok) in Ec. lia. }
  specialize (k3 Hn).
  rewrite rem_in_range in Er by lia. injection Er as <-.
  apply String.eqb_neq in Fc. apply String.eqb_neq in Fn.
  pose proof (ring_all_taken _ _ _ _ _ Hn k2 k3 Ec Fc En Fn Hscan) as Htaken.
  destruct (oldestLoop_spec (seqZ 0 (totalSlots s)) (slots s) (-1) now)
    as (a' & t' & E & _ & Hmin & Hw).
  { intros i Hi. apply seqZ_keys; assumption. }
  rewrite E.
  destruct (negb (a' =? -1) && (Sub now t' >? int64 (slotDuration s * 5))) eqn:Ecnd;
    [|discriminate].
  apply andb_true_iff in Ecnd. destruct Ecnd as [Ea Eold].
  destruct Hw as [[-> _]|(Ha & Hlt & o & Ho & Hos & Hot)]; [cbn in Ea; discriminate|].
  rewrite Ho. intros [= <- <-]. exists o. split; [exact Ho|]. split; [reflexivity|].
  right. split; [|split; [exact Hos|split; [|split]]].
  - intros i (fs & Hl & Hf). apply (Htaken i fs); [|exact Hl|exact Hf].
    eapply table_range; eassumption.
  - intros i st2 Hl Hs. rewrite Hot. apply (Hmin i st2); [|exact Hl|exact Hs].
    apply seqZ_keys; [exact Hok|]. eauto.
  - rewrite Hot. exact Hlt.
  - rewrite Hot. apply Z.gtb_lt in Eold. lia.
Qed.


Lemma newcomer_gets_free_or_oldest_witness :
  exists s s' st,
    AllocateTimeSlot s "C" 1 6000000000 = Some ((0, None), s') /\
    slots s !! 0 = Some st /\ NodeID st = "A"%string /\
    s' = withSlots s (<[0 := assign "C" 6000000000 st]> (slots s)).
Proof.
  set (s0 := NewTDMAScheduler 2 1000000000 0).
  set (s1 := stateOf (AllocateTimeSlot s0 "A" 1 0) s0).
  set (s2 := stateOf (AllocateTimeSlot s1 "B" 1 0) s1).
  assert (Hok : sched_ok s2).
  { apply stateOf_AllocateTimeSlot_ok, stateOf_AllocateTimeSlot_ok.
    apply NewTDMAScheduler_ok. lia. }
  assert (Hnone : forall i st, slots s2 !! i = Some st -> ~ heldBy "C" st).
  { intros i st Hl. pose proof (table_range s2 i st Hok Hl) as Hi.
    change (totalSlots s2) with 2 in Hi.
    assert (Hc : i = 0 \/ i = 1) by lia.
    destruct Hc as [-> | ->]; vm_compute in Hl; injection Hl as <-;
      intros [Hn _]; discriminate Hn. }
  assert (Hrun : AllocateTimeSlot s2 "C" 1 6000000000
                 = Some ((0, None), stateOf (AllocateTimeSlot s2 "C" 1 6000000000) s2))
    by (vm_compute; reflexivity).
  destruct (newcomer_gets_free_or_oldest s2 "C" 1 6000000000 0 _ Hok Hnone Hrun)
    as (st & Hl & Hs & _).
  exists s2, (stateOf (AllocateTimeSlot s2 "C" 1 6000000000) s2), st.
  split; [exact Hrun|]. split; [exact Hl|]. split; [|exact Hs].
  vm_compute in Hl. injection Hl as <-. reflexivity.
Defined.

(** X12. When allocation fails.  On a scheduler with at least one slot,
    [AllocateTimeSlot] returns the error for no available slot exactly when
    the node holds no slot, no slot is free, and every assigned slot that
    started before now is at most five slot durations old; the scheduler is
    then left as it was.  In every other case the call succeeds. *)
Theorem allocation_fails_iff s nodeID priority now :
  sched_ok s -> 0 < totalSlots s ->
  (AllocateTimeSlot s nodeID priority now = Some ((-1, Some ErrNoSlot), s)
   <->
   (forall i st, slots s !! i = Some st -> ~ heldBy nodeID st) /\
   (forall i, ~ slotFree s i) /\
   (forall i st, slots s !! i = Some st -> Status st = "ASSIGNED"%string ->
                 StartTime st < now ->
                 Sub now (StartTime st) <= int64 (slotDuration s * 5))).
Proof.
  intros Hok Hn. pose proof Hok as [k1 k2 k3]. specialize (k3 Hn). split.
  - unfold AllocateTimeSlot.
    pose proof (NoDup_seqZ 0 (totalSlots s)) as ND.
    destruct (ownedLoop nodeID now (slotDuration s) (seqZ 0 (totalSlots s)) (slots s))
      as [i m|m|] eqn:EO; [discriminate| |discriminate].
    pose proof (ownedLoop_Next_sweep _ _ _ _ _ _ ND EO) as Hun.
    pose proof (ownedLoop_keys nodeID now (slotDuration s) (seqZ 0 (totalSlots s)) (slots s))
      as K1. rewrite EO in K1.
    rewrite rem_in_range by lia.
    destruct (m !! currentSlot s) as [st|] eqn:Ec; [|discriminate].
    destruct (String.eqb (Status st) "FREE") eqn:Fc; [discriminate|].
    destruct (m !! ((currentSlot s + 1) mod totalSlots s)) as [st'|] eqn:En; [|discriminate].
    destruct (String.eqb (Status st') "FREE") eqn:Fn; [discriminate|].
    destruct (scanLoop nodeID now (currentSlot s) (totalSlots s)
                (seqZ 2 (totalSlots s - 2)) m) as [k0 m'|m'|] eqn:ES;
      [discriminate| |discriminate].
    apply scanLoop_Next in ES. destruct ES as [-> Hscan].
    apply String.eqb_neq in Fc. apply String.eqb_neq in Fn.
    pose proof (ring_all_taken _ _ _ _ _ Hn k2 k3 Ec Fc En Fn Hscan) as Htaken.
    destruct (oldestLoop_spec (seqZ 0 (totalSlots s)) m (-1) now)
      as (a' & t' & E & _ & Hmin & Hw).
    { intros i Hi. apply K1. apply seqZ_keys; assumption. }
    rewrite E.
    destruct (negb (a' =? -1) && (Sub now t' >? int64 (slotDuration s * 5))) eqn:Ecnd.
    { destruct (m !! a'); discriminate. }
    intros [= Hm]. assert (Em : m = slots s).
    { rewrite <- Hm. reflexivity. }
    subst m. clear Hm. split; [|split].
    + intros i st0 Hl [Hh1 Hh2]. destruct (Hun i) as (st1 & Hl1 & Hne).
      { apply seqZ_keys; [exact Hok|]. eauto. }
      rewrite Hl in Hl1. injection Hl1 as <-. tauto.
    + intros i (fs & Hl & Hf). apply (Htaken i fs); [|exact Hl|exact Hf].
      eapply table_range; eassumption.
    + intros i st0 Hl Hs Hlt.
      assert (Hi : i ∈ seqZ 0 (totalSlots s)) by (apply seqZ_keys; [exact Hok|]; eauto).
      pose proof (Hmin i st0 Hi Hl Hs) as Hle.
      destruct Hw as [[-> ->]|(Ha & _ & _)]; [lia|].
      apply andb_false_iff in Ecnd. destruct Ecnd as [Ea|Eold].
      * apply elem_of_seqZ in Ha. apply negb_false_iff, Z.eqb_eq in Ea. lia.
      * pose proof (Sub_antitone now _ _ Hle) as Hanti.
        destruct (Z.gtb_spec (Sub now t') (int64 (slotDuration s * 5))); [discriminate|].
        lia.
  - intros (Hnone & Hfree & Hyoung). unfold AllocateTimeSlot.
    rewrite (ownedLoop_none nodeID now (slotDuration s) (seqZ 0 (totalSlots s)) (slots s)).
    2:{ intros i Hi. apply seqZ_keys in Hi; [|exact Hok]. destruct Hi as [st Hl].
        exists st. split; [exact Hl|]. specialize (Hnone i st Hl). unfold heldBy in Hnone.
        destruct (string_dec (NodeID st) nodeID) as [En|En]; [|left; exact En].
        right. intros Es. apply Hnone. split; assumption. }
    assert (Htaken : forall i, 0 <= i < totalSlots s ->
                       exists st, slots s !! i = Some st /\ Status st <> "FREE"%string).
    { intros i Hi. destruct (table_total s i Hok Hi) as [st Hl]. exists st.
      split; [exact Hl|]. intros Hf. apply (Hfree i). exists st. split; assumption. }
    rewrite rem_in_range by lia.
    destruct (Htaken (currentSlot s) k3) as (st & -> & Fc).
    apply String.eqb_neq in Fc. rewrite Fc.
    destruct (Htaken ((currentSlot s + 1) mod totalSlots s)) as (st' & -> & Fn);
      [apply Z.mod_pos_bound; lia|].
    apply String.eqb_neq in Fn. rewrite Fn.
    rewrite scanLoop_all_taken; try assumption.
    2:{ intros off Hoff. apply elem_of_seqZ in Hoff. lia. }
    destruct (oldestLoop_spec (seqZ 0 (totalSlots s)) (slots s) (-1) now)
      as (a' & t' & E & _ & _ & Hw).
    { intros i Hi. apply seqZ_keys; assumption. }
    rewrite E.
    assert (Ecnd : negb (a' =? -1) && (Sub now t' >? int64 (slotDuration s * 5)) = false).
    { destruct Hw as [[-> _]|(_ & Hlt & o & Ho & Hos & Hot)]; [reflexivity|].
      apply andb_false_iff. right. subst t'.
      pose proof (Hyoung a' o Ho Hos Hlt) as Hy.
      destruct (Z.gtb_spec (Sub now (StartTime o)) (int64 (slotDuration s * 5)));
        [lia|reflexivity]. }
    rewrite Ecnd, withSlots_same. reflexivity.
Qed.

Lemma allocation_fails_iff_witness :
  exists s,
    AllocateTimeSlot s "C" 1 1 = Some ((-1, Some ErrNoSlot), s) /\
    forall i, ~ slotFree s i.
Proof.
  set (s0 := NewTDMAScheduler 2 1000000000 0).
  set (s1 := stateOf (AllocateTimeSlot s0 "A" 1 0) s0).
  set (s2 := stateOf (AllocateTimeSlot s1 "B" 1 0) s1).
  assert (Hok : sched_ok s2).
  { apply stateOf_AllocateTimeSlot_ok, stateOf_AllocateTimeSlot_ok.
    apply NewTDMAScheduler_ok. lia. }
  assert (Hn : 0 < totalSlots s2) by (vm_compute; reflexivity).
  assert (Hrun : AllocateTimeSlot s2 "C" 1 1 = Some ((-1, Some ErrNoSlot), s2))
    by (vm_compute; reflexivity).
  exists s2. split; [exact Hrun|].
  exact (proj1 (proj2 (proj1 (allocation_fails_iff s2 "C" 1 1 Hok Hn) Hrun))).
Defined.

End PolicyProps.

Module ClockAndRelease.
Import Go Scheduler GoFacts SchedulerFacts AllocateProps SweepFacts PolicyFacts.

Lemma tick_step s :
  sched_ok s -> 0 < totalSlots s ->
  tick s = Some (withCurrent s ((currentSlot s + 1) mod totalSlots s)).
Proof.
  intros [k1 k2 k3] Hn. specialize (k3 Hn). unfold tick.
  rewrite rem_in_range by lia. reflexivity.
Qed.

Lemma tickerLoop_advance n : forall s,
  sched_ok s -> 0 < totalSlots s ->
  tickerLoop n s
  = Some (withCurrent s ((currentSlot s + Z.of_nat n) mod totalSlots s)).
Proof.
  induction n as [|n IH]; intros s Hok Hn.
  - cbn [tickerLoop]. destruct Hok as [_ _ k3]. specialize (k3 Hn).
    rewrite Z.add_0_r, Z.mod_small by lia. destruct s. reflexivity.
  - cbn [tickerLoop]. rewrite (tick_step s Hok Hn).
    rewrite IH; [|eapply tick_ok; [exact Hok|apply tick_step; assumption]|exact Hn].
    unfold withCurrent. cbn [slots totalSlots slotDuration currentSlot startTime].
    rewrite Z.add_mod_idemp_l by lia. do 3 f_equal. lia.
Qed.

Lemma scheduleLoop_started n s :
  0 < slotDuration s -> scheduleLoop n s = tickerLoop n s.
Proof.
  intros Hd. unfold scheduleLoop, NewTicker.
  destruct (Z.leb_spec (slotDuration s) 0); [lia|reflexivity].
Qed.

(** With a slot duration that is not positive the loop never starts: making
    the ticker panics. *)
Lemma scheduleLoop_no_ticker n s :
  slotDuration s <= 0 -> scheduleLoop n s = None.
Proof.
  intros Hd. unfold scheduleLoop, NewTicker.
  destruct (Z.leb_spec (slotDuration s) 0); [reflexivity|lia].
Qed.

(** X13. The slot pointer is a clock modulo the number of slots: on a
    scheduler with at least one slot and a positive slot duration,
    [scheduleLoop] does not panic, neither when it makes its ticker nor in
    any of the first [n] turns of its loop; these turns leave the table and
    every other field as they were, and move the pointer read by
    [GetCurrentSlot] to [(currentSlot + n) mod totalSlots]; after
    [totalSlots] turns the scheduler is back in the state it started
    from. *)
Theorem schedule_loop_is_modular_clock s n :
  sched_ok s -> 0 < totalSlots s -> 0 < slotDuration s ->
  exists s',
    scheduleLoop n s = Some s' /\
    GetCurrentSlot s' = (GetCurrentSlot s + Z.of_nat n) mod totalSlots s /\
    0 <= GetCurrentSlot s' < totalSlots s /\
    slots s' = slots s /\ totalSlots s' = totalSlots s /\
    slotDuration s' = slotDuration s /\ startTime s' = startTime s /\
    scheduleLoop (Z.to_nat (totalSlots s)) s = Some s.
Proof.
  intros Hok Hn Hd. rewrite !scheduleLoop_started by exact Hd.
  eexists. split; [apply tickerLoop_advance; assumption|].
  unfold GetCurrentSlot. cbn [withCurrent slots totalSlots slotDuration currentSlot startTime].
  split; [reflexivity|]. split; [apply Z.mod_pos_bound; lia|].
  repeat (split; [reflexivity|]).
  rewrite tickerLoop_advance by assumption. rewrite Z2Nat.id by lia.
  destruct Hok as [_ _ k3]. specialize (k3 Hn).
  rewrite <- (Z.mul_1_l (totalSlots s)) at 1. rewrite Z.mod_add by lia.
  rewrite Z.mod_small by lia. destruct s. reflexivity.
Qed.

Lemma schedule_loop_is_modular_clock_witness :
  exists s',
    scheduleLoop 13 (NewTDMAScheduler 10 1000000000 0) = Some s' /\
    GetCurrentSlot s' = 3.
Proof.
  destruct (schedule_loop_is_modular_clock (NewTDMAScheduler 10 1000000000 0) 13
              (proj1 (NewTDMAScheduler_ok 10 1000000000 0 ltac:(lia)))
              ltac:(cbn; lia) ltac:(cbn; lia))
    as (s' & Ht & Hc & _).
  exists s'. split; [exact Ht|]. rewrite Hc. reflexivity.
Defined.

(** The loop of [GetNextAvailableSlot]. *)
Lemma nextAvailableLoop_spec idx (m : gmap Z SlotStatus) :
  (forall i, i ∈ idx -> is_Some (m !! i)) ->
  (exists pre i post st,
      idx = pre ++ i :: post /\
      (forall j, j ∈ pre -> exists st', m !! j = Some st' /\ Status st' <> "FREE"%string) /\
      m !! i = Some st /\ Status st = "FREE"%string /\
      nextAvailableLoop idx m = Some (i, None))
  \/
  ((forall j, j ∈ idx -> exists st', m !! j = Some st' /\ Status st' <> "FREE"%string) /\
   nextAvailableLoop idx m = Some (-1, Some ErrNoSlot)).
Proof.
  induction idx as [|i idx IH]; intros K; cbn [nextAvailableLoop].
  - right. split; [|reflexivity]. intros j Hj. inversion Hj.
  - destruct (K i ltac:(left)) as [st Ei]. rewrite Ei.
    destruct (String.eqb (Status st) "FREE") eqn:Es.
    + left. exists [], i, idx, st. split; [reflexivity|].
      split; [intros j Hj; inversion Hj|]. split; [exact Ei|].
      split; [apply String.eqb_eq; exact Es|reflexivity].
    + apply String.eqb_neq in Es.
      destruct IH as [(pre & i' & post & st' & E & Hpre & Hi & Hf & Hr)|[Hall Hr]].
      { intros j Hj. apply K. right. exact Hj. }
      * left. exists (i :: pre), i', post, st'. split; [rewrite E; reflexivity|].
        split; [|auto].
        intros j Hj. apply elem_of_cons in Hj. destruct Hj as [->|Hj]; [eauto|auto].
      * right. split; [|exact Hr].
        intros j Hj. apply elem_of_cons in Hj. destruct Hj as [->|Hj]; [eauto|auto].
Qed.

(** The slots before position [i] of an ascending range are the smaller
    ones. *)
Lemma seqZ_prefix n pre i post j :
  seqZ 0 n = pre ++ i :: post -> 0 <= j < i -> j ∈ pre.
Proof.
  intros E Hj.
  assert (Hi : seqZ 0 n !! length pre = Some i).
  { rewrite E. rewrite lookup_app_r by lia. rewrite Nat.sub_diag. reflexivity. }
  apply lookup_seqZ in Hi. destruct Hi as [Hi Hlt].
  assert (Hl : seqZ 0 n !! Z.to_nat j = Some j).
  { apply lookup_seqZ. lia. }
  rewrite E, lookup_app_l in Hl by lia.
  eapply list_elem_of_lookup_2. exact Hl.
Qed.

(** X14. [GetNextAvailableSlot] on a scheduler that satisfies its invariant
    never panics: it returns the lowest-numbered free slot, without changing
    anything, and the error for no available slot, with slot number -1,
    exactly when no slot is free.  The search starts at slot 0, not at the
    slot pointer. *)
Theorem GetNextAvailableSlot_is_least_free s :
  sched_ok s ->
  (exists i,
      GetNextAvailableSlot s = Some (i, None) /\
      0 <= i < totalSlots s /\ slotFree s i /\
      forall j, j < i -> ~ slotFree s j)
  \/
  (GetNextAvailableSlot s = Some (-1, Some ErrNoSlot) /\ forall j, ~ slotFree s j).
Proof.
  intros Hok. unfold GetNextAvailableSlot.
  destruct (nextAvailableLoop_spec (seqZ 0 (totalSlots s)) (slots s))
    as [(pre & i & post & st & E & Hpre & Hi & Hf & Hr)|[Hall Hr]].
  { intros i Hi. apply seqZ_keys; assumption. }
  - left. exists i. split; [exact Hr|].
    assert (Hin : i ∈ seqZ 0 (totalSlots s)) by (rewrite E; apply elem_of_app; right; left).
    apply elem_of_seqZ in Hin. split; [lia|]. split; [exists st; split; assumption|].
    intros j Hj (fs & Hl & Hfs).
    assert (Hj0 : 0 <= j).
    { destruct Hok as [k1 _ _]. apply k1. eauto. }
    destruct (Hpre j) as (st' & Hl' & Hn).
    { eapply seqZ_prefix; [exact E|lia]. }
    congruence.
  - right. split; [exact Hr|].
    intros j (fs & Hl & Hfs). destruct (Hall j) as (st' & Hl' & Hn).
    { apply seqZ_keys; [exact Hok|]. eauto. }
    congruence.
Qed.

Lemma GetNextAvailableSlot_is_least_free_witness :
  GetNextAvailableSlot
    (stateOf (AllocateTimeSlot (NewTDMAScheduler 4 1000000000 0) "GS1" 1 5)
             (NewTDMAScheduler 4 1000000000 0)) = Some (1, None).
Proof.
  destruct (GetNextAvailableSlot_is_least_free
              (stateOf (AllocateTimeSlot (NewTDMAScheduler 4 1000000000 0) "GS1" 1 5)
                       (NewTDMAScheduler 4 1000000000 0)))
    as [(i & Hr & _)|[Hr _]].
  - apply stateOf_AllocateTimeSlot_ok, NewTDMAScheduler_ok. lia.
  - rewrite Hr. vm_compute in Hr. injection Hr as <-. reflexivity.
  - vm_compute in Hr. discriminate Hr.
Defined.

(** X15. [ReleaseTimeSlot] on a scheduler that satisfies its invariant: a
    slot number inside the table is released whoever holds it, the slot is
    then free, it is gone from the schedule returned by [GetSchedule] while
    every other entry of the schedule and every other record of the table
    is unchanged, and releasing it a second time changes nothing more; a
    slot number outside the table gives the error for an invalid slot and
    leaves the scheduler as it was.  It never panics. *)
Theorem ReleaseTimeSlot_effect s k :
  sched_ok s ->
  (0 <= k < totalSlots s ->
   exists s',
     ReleaseTimeSlot s k = Some (None, s') /\
     slotFree s' k /\
     GetSchedule s' = delete k (GetSchedule s) /\
     (forall j, j <> k -> slots s' !! j = slots s !! j) /\
     sched_ok s' /\
     ReleaseTimeSlot s' k = Some (None, s')) /\
  (~ 0 <= k < totalSlots s -> ReleaseTimeSlot s k = Some (Some ErrInvalidSlot, s)).
Proof.
  intros Hok. split.
  - intros Hk. destruct (table_total s k Hok Hk) as [st Hl].
    assert (Hg : (k <? 0) || (k >=? totalSlots s) = false).
    { apply orb_false_iff. split; [apply Z.ltb_ge; lia|].
      destruct (Z.geb_spec k (totalSlots s)); [lia|reflexivity]. }
    assert (Hr : ReleaseTimeSlot s k
                 = Some (None, withSlots s (<[k := reset st]> (slots s)))).
    { unfold ReleaseTimeSlot. rewrite Hg, Hl. reflexivity. }
    eexists. split; [exact Hr|]. cbn [withSlots slots].
    split; [|split; [|split; [|split]]].
    + exists (reset st). split; [apply lookup_insert_eq|reflexivity].
    + apply map_eq. intros j. rewrite GetSchedule_lookup. cbn [withSlots slots].
      destruct (decide (j = k)) as [->|Hne].
      * rewrite lookup_insert_eq, lookup_delete_eq. reflexivity.
      * rewrite lookup_insert_ne, lookup_delete_ne by congruence.
        rewrite GetSchedule_lookup. reflexivity.
    + intros j Hj. apply lookup_insert_ne. congruence.
    + eapply same_frame_ok; [eapply ReleaseTimeSlot_frame; exact Hr|exact Hok].
    + unfold ReleaseTimeSlot. cbn [withSlots slots totalSlots]. rewrite Hg.
      rewrite lookup_insert_eq. unfold withSlots.
      cbn [slots totalSlots slotDuration currentSlot startTime].
      rewrite insert_insert_eq. reflexivity.
  - intros Hk. unfold ReleaseTimeSlot.
    assert (Hg : (k <? 0) || (k >=? totalSlots s) = true).
    { apply orb_true_iff. destruct (Z.ltb_spec k 0); [left; reflexivity|right].
      destruct (Z.geb_spec k (totalSlots s)); [reflexivity|lia]. }
    rewrite Hg. reflexivity.
Qed.

Lemma ReleaseTimeSlot_effect_witness :
  exists s',
    ReleaseTimeSlot
      (stateOf (AllocateTimeSlot (NewTDMAScheduler 4 1000000000 0) "GS1" 1 5)
               (NewTDMAScheduler 4 1000000000 0)) 0 = Some (None, s') /\
    GetSchedule s' = ∅.
Proof.
  set (s1 := stateOf (AllocateTimeSlot (NewTDMAScheduler 4 1000000000 0) "GS1" 1 5)
                     (NewTDMAScheduler 4 1000000000 0)).
  assert (Hok : sched_ok s1).
  { apply stateOf_AllocateTimeSlot_ok, NewTDMAScheduler_ok. lia. }
  assert (Hk : 0 <= 0 < totalSlots s1) by (change (totalSlots s1) with 4; lia).
  destruct (proj1 (ReleaseTimeSlot_effect s1 0 Hok) Hk) as (s' & Hr & _ & Hg & _).
  exists s'. split; [exact Hr|]. rewrite Hg. vm_compute. reflexivity.
Defined.

(** X16. [AllocateConsecutiveSlots] does not reject a count that is zero or
    negative: when [count <= 0] and [count <= totalSlots], the call succeeds
    with no slot at all and no error, and leaves the scheduler as it was. *)
Theorem nonpositive_count_gets_nothing s nodeID count now :
  count <= 0 -> count <= totalSlots s -> totalSlots s - count <= maxInt64 ->
  AllocateConsecutiveSlots s nodeID count now = Some (([], None), s).
Proof.
  unfold maxInt64. intros Hc Hn Hm. unfold AllocateConsecutiveSlots.
  rewrite int64_small by lia. rewrite seqZ_cons by lia.
  cbn [consecutiveLoop]. rewrite (seqZ_nil 0 count) by lia.
  cbn [windowFree assignWindow]. rewrite withSlots_same. reflexivity.
Qed.

Lemma nonpositive_count_gets_nothing_witness :
  AllocateConsecutiveSlots (NewTDMAScheduler 10 1000000000 0) "GS1" (-3) 5
  = Some (([], None), NewTDMAScheduler 10 1000000000 0).
Proof.
  apply nonpositive_count_gets_nothing;
    cbn [totalSlots NewTDMAScheduler]; unfold maxInt64; lia.
Defined.

End ClockAndRelease.

(* ===================================================================== *)
(** * The two nodes *)
(* ===================================================================== *)

Module TextFacts.
Import Go GoFacts.

Lemma digitOf_digit d : 0 <= d <= 9 -> digitOf (byte.of_Z (48 + d)) = Some d.
Proof.
  intros Hd. unfold digitOf. rewrite byte.unsigned_of_Z. unfold byte.wrap.
  rewrite (Z.mod_small (48 + d)) by lia.
  replace (48 + d - 48) with d by lia. rewrite Z.mod_small by lia.
  destruct (Z.gtb_spec d 9); [lia|reflexivity].
Qed.

(** Reading back what [formatUint] wrote. *)
Lemma parse_formatUint fuel : forall u acc,
  0 <= u < 10 ^ Z.of_nat fuel -> u <= maxUint64 ->
  parseUintLoop 0 (formatUint fuel u acc) = parseUintLoop u acc.
Proof.
  induction fuel as [|fuel IH]; intros u acc Hu Hm.
  - cbn [formatUint]. replace u with 0 by (cbn in Hu; lia). reflexivity.
  - cbn [formatUint]. destruct (Z.ltb_spec u 10) as [Hlt|Hge].
    + cbn [parseUintLoop]. rewrite digitOf_digit by lia.
      change (0 >=? maxUint64 / 10 + 1) with false. cbv iota.
      change (0 * 10 + u) with u.
      destruct (Z.gtb_spec u maxUint64); [lia|]. reflexivity.
    + assert (Hdm : u = u / 10 * 10 + u mod 10).
      { pose proof (Z.div_mod u 10 ltac:(lia)). lia. }
      pose proof (Z.mod_pos_bound u 10 ltac:(lia)) as Hmod.
      assert (Hq : 0 <= u / 10 < 10 ^ Z.of_nat fuel).
      { split; [apply Z.div_pos; lia|].
        apply Z.div_lt_upper_bound; [lia|].
        rewrite Nat2Z.inj_succ, Z.pow_succ_r in Hu by lia. lia. }
      assert (Hqm : u / 10 <= maxUint64 / 10) by (apply Z.div_le_mono; lia).
      rewrite IH by (unfold maxUint64 in *; lia).
      cbn [parseUintLoop]. replace (u - u / 10 * 10) with (u mod 10) by lia.
      rewrite digitOf_digit by lia.
      destruct (Z.geb_spec (u / 10) (maxUint64 / 10 + 1)); [lia|].
      rewrite <- Hdm. destruct (Z.gtb_spec u maxUint64); [lia|]. reflexivity.
Qed.

Lemma formatUint_acc fuel : forall u acc,
  exists pre, formatUint fuel u acc = pre ++ acc /\
              (length pre <= fuel)%nat /\ (fuel <> O -> pre <> []).
Proof.
  induction fuel as [|fuel IH]; intros u acc; cbn [formatUint].
  - exists []. split; [reflexivity|]. split; [cbn; lia|congruence].
  - destruct (u <? 10).
    + exists [byte.of_Z (48 + u)]. split; [reflexivity|]. split; [cbn; lia|discriminate].
    + destruct (IH (u / 10) (byte.of_Z (48 + (u - u / 10 * 10)) :: acc))
        as (pre & E & Hl & _).
      exists (pre ++ [byte.of_Z (48 + (u - u / 10 * 10))]).
      rewrite E, <- app_assoc. split; [reflexivity|].
      split; [rewrite length_app; cbn; lia|].
      intros _ C. apply app_eq_nil in C. destruct C as [_ C]. discriminate C.
Qed.

Lemma formatInt_length v : len (formatInt v) <= 21.
Proof.
  unfold formatInt, len. destruct (v <? 0).
  - destruct (formatUint_acc 20 (- v) []) as (pre & -> & Hl & _).
    cbn [length]. rewrite length_app. cbn [length]. lia.
  - destruct (formatUint_acc 20 v []) as (pre & -> & Hl & _).
    rewrite length_app. cbn [length]. lia.
Qed.

(** [Atoi] reads back the number that [%d] wrote. *)
Lemma Atoi_formatInt v : - 2 ^ 63 <= v < 2 ^ 63 -> Atoi (formatInt v) = (v, None).
Proof.
  intros Hv. unfold formatInt. destruct (Z.ltb_spec v 0) as [Hneg|Hpos].
  - unfold Atoi. cbn [Byte.eqb orb].
    change (Byte.eqb x2d x2d) with true. change (Byte.eqb x2d x2b) with false.
    cbn [orb].
    assert (P : ParseUint (formatUint 20 (- v) []) = (- v, None)).
    { unfold ParseUint.
      destruct (formatUint_acc 20 (- v) []) as (pre & E & _ & Hne).
      destruct (formatUint 20 (- v) []) as [|c rest] eqn:EF.
      - rewrite app_nil_r in E. subst pre. exfalso. apply Hne; [discriminate|reflexivity].
      - rewrite <- EF. rewrite parse_formatUint; [reflexivity| |unfold maxUint64]; lia. }
    rewrite P. cbn [negb andb].
    destruct (Z.gtb_spec (- v) (2 ^ 63)); [lia|]. f_equal. lia.
  - assert (P : parseUintLoop 0 (formatUint 20 v []) = (v, None)).
    { rewrite parse_formatUint; [reflexivity| |unfold maxUint64]; lia. }
    destruct (formatUint_acc 20 v []) as (pre & E & _ & Hne).
    destruct (formatUint 20 v []) as [|c rest] eqn:EF.
    { rewrite app_nil_r in E. subst pre. exfalso. apply Hne; [discriminate|reflexivity]. }
    assert (Hd : exists d, digitOf c = Some d).
    { cbn [parseUintLoop] in P. destruct (digitOf c) as [d|]; [eauto|discriminate P]. }
    destruct Hd as [d Hd].
    assert (Hc : Byte.eqb c x2d = false /\ Byte.eqb c x2b = false).
    { split.
      - destruct (Byte.eqb c x2d) eqn:Ec; [|reflexivity].
        apply Byte.byte_dec_bl in Ec. subst c. discriminate Hd.
      - destruct (Byte.eqb c x2b) eqn:Ec; [|reflexivity].
        apply Byte.byte_dec_bl in Ec. subst c. discriminate Hd. }
    destruct Hc as [Hc1 Hc2]. unfold Atoi. rewrite Hc1, Hc2. cbn [orb].
    unfold ParseUint. rewrite P. cbn [negb andb].
    destruct (Z.geb_spec v (2 ^ 63)); [lia|]. reflexivity.
Qed.

Lemma HasPrefix_app p s : HasPrefix (p ++ s) p = true.
Proof.
  induction p as [|c p IH]; [destruct s; reflexivity|].
  cbn [app HasPrefix]. rewrite IH.
  assert (E : Byte.eqb c c = true) by (apply Byte.byte_dec_lb; reflexivity).
  rewrite E. reflexivity.
Qed.

Lemma TrimPrefix_app p s : TrimPrefix (p ++ s) p = s.
Proof.
  unfold TrimPrefix. rewrite HasPrefix_app. apply skipn_app_exact. reflexivity.
Qed.

End TextFacts.

Module NodeFacts.
Import Go Protocol Wire GoFacts CodecFacts CodecProps ValidateProps FrameFacts TextFacts.
Import NodeIDProps.

Lemma NewTDMAFrame_valid slotID nodeID data :
  Validate (NewTDMAFrame slotID nodeID data) = None.
Proof. apply Validate_None. repeat split; reflexivity. Qed.

(** What a constructed frame becomes on the wire, and back. *)
Lemma NewTDMAFrame_wire slotID nodeID data :
  len data < 2 ^ 32 ->
  Serialize (NewTDMAFrame (uint32 slotID) nodeID data)
    = Ok (encode (NewTDMAFrame (uint32 slotID) nodeID data)) /\
  DeserializeTDMAFrame (encode (NewTDMAFrame (uint32 slotID) nodeID data))
    = Ok (NewTDMAFrame (uint32 slotID) nodeID data).
Proof.
  intros Hd. pose proof (len_nonneg data) as Hn.
  pose proof (NewTDMAFrame_typed (uint32 slotID) nodeID data (uint32_range slotID)) as T.
  split.
  - apply Serialize_encode; apply T.
  - rewrite <- (app_nil_r (encode _)). apply Deserialize_encode; [exact T|].
    cbn [Length Data NewTDMAFrame withCRC]. apply uint32_small. lia.
Qed.

(** The global slot of the default configuration always exists and lies
    strictly between -10 and 10; from the epoch on it is not negative. *)
Lemma GetGlobalSlotID_default now :
  exists c,
    GetGlobalSlotID now Scheduler.DefaultSlotDuration Scheduler.DefaultTotalSlots = Some c /\
    -10 < c < 10 /\ (TDMA_EPOCH <= now -> 0 <= c).
Proof.
  unfold GetGlobalSlotID, quo, rem, Scheduler.DefaultSlotDuration,
    Scheduler.DefaultTotalSlots.
  change (1000000000 =? 0) with false. change (10 =? 0) with false. cbv iota.
  eexists. split; [reflexivity|].
  set (e := Sub now TDMA_EPOCH).
  assert (He : - 2 ^ 63 <= e < 2 ^ 63).
  { subst e. unfold Sub, minInt64, maxInt64.
    destruct (now - TDMA_EPOCH <? - 2 ^ 63) eqn:E1; [lia|].
    destruct (2 ^ 63 - 1 <? now - TDMA_EPOCH) eqn:E2; lia. }
  assert (Hq : - 2 ^ 63 <= Z.quot e 1000000000 < 2 ^ 63).
  { destruct (Z_le_gt_dec 0 e) as [Hp|Hm].
    - pose proof (Z.quot_pos e 1000000000 Hp ltac:(lia)).
      assert (Z.quot e 1000000000 <= e); [|lia].
      rewrite Z.quot_div_nonneg by lia. apply Z.div_le_upper_bound; lia.
    - assert (Hopp : Z.quot e 1000000000 = - Z.quot (- e) 1000000000).
      { rewrite Z.quot_opp_l by lia. lia. }
      pose proof (Z.quot_pos (- e) 1000000000 ltac:(lia) ltac:(lia)).
      assert (Z.quot (- e) 1000000000 <= - e); [|lia].
      rewrite Z.quot_div_nonneg by lia. apply Z.div_le_upper_bound; lia. }
  rewrite int64_small by lia. split.
  - pose proof (Z.rem_bound_abs (Z.quot e 1000000000) 10 ltac:(lia)). lia.
  - intros Hnow. apply Z.rem_nonneg; [lia|].
    apply Z.quot_pos; [|lia]. subst e. unfold Sub, minInt64, maxInt64.
    destruct (now - TDMA_EPOCH <? - 2 ^ 63) eqn:E1; [lia|].
    destruct (2 ^ 63 - 1 <? now - TDMA_EPOCH) eqn:E2; lia.
Qed.

Lemma GetNodeID_NewTDMAFrame slotID nodeID data :
  GetNodeID (NewTDMAFrame slotID nodeID data)
  = string_of_list_byte (trimRightByte x00 (firstn 32 (list_byte_of_string nodeID))).
Proof.
  unfold GetNodeID. cbn [NodeID NewTDMAFrame withCRC].
  rewrite nodeID_field, trimRightByte_padding. reflexivity.
Qed.

(** The station reads the slot number out of an acknowledgement. *)
Lemma receive_ack gsn k slot sender :
  - 2 ^ 63 <= k < 2 ^ 63 ->
  GroundStation.receive gsn
    (encode (NewTDMAFrame (uint32 slot) sender
               (list_byte_of_string "ACK_SLOT_" ++ formatInt k)))
  = Some (GroundStation.withSlotID gsn k).
Proof.
  intros Hk. unfold GroundStation.receive.
  pose proof (formatInt_length k) as Hl.
  destruct (NewTDMAFrame_wire slot sender
              (list_byte_of_string "ACK_SLOT_" ++ formatInt k)) as [_ D].
  { rewrite len_app. change (len (list_byte_of_string "ACK_SLOT_")) with 9. lia. }
  rewrite D. cbn [Data NewTDMAFrame withCRC].
  change (HasPrefix (list_byte_of_string "ACK_SLOT_" ++ formatInt k)
                    (list_byte_of_string "CURRENT_SLOT_")) with false.
  cbv iota. unfold GroundStation.processFrame.
  rewrite NewTDMAFrame_valid. cbn [Data NewTDMAFrame withCRC].
  change (Contains (list_byte_of_string "ACK_SLOT_" ++ formatInt k)
                   (list_byte_of_string "ACK_SLOT")) with true.
  cbv iota. rewrite HasPrefix_app, TrimPrefix_app, Atoi_formatInt by exact Hk.
  reflexivity.
Qed.

End NodeFacts.

Module NodeProps.
Import Go Protocol Wire GoFacts CodecFacts CodecProps ValidateProps FrameFacts TextFacts.
Import SchedulerFacts AllocateProps SweepFacts AllocateMore NodeFacts.

(** X18. The acknowledgement is understood.  Whenever the satellite's
    [processFrame] answers a frame that is not a slot query, the frame had
    passed [Validate] and carried the current global slot, the scheduler
    has assigned a slot [k] of its table to the node id of the frame, and
    the bytes written are a frame from which the ground station's receive
    loop sets its own slot to exactly [k]. *)
Theorem ack_makes_station_adopt_slot sn frame now now' bytes sn' gsn :
  Scheduler.sched_ok (Satellite.scheduler sn) ->
  Data frame <> list_byte_of_string "GET_CURRENT_SLOT" ->
  Satellite.processFrame sn frame now now' = Some (Some bytes, sn') ->
  exists k,
    Validate frame = None /\
    GetGlobalSlotID now Scheduler.DefaultSlotDuration Scheduler.DefaultTotalSlots
      = Some (SlotID frame) /\
    0 <= k < Scheduler.totalSlots (Satellite.scheduler sn) /\
    Scheduler.GetSchedule (Satellite.scheduler sn') !! k = Some (GetNodeID frame) /\
    Satellite.nodeID sn' = Satellite.nodeID sn /\
    GroundStation.receive gsn bytes = Some (GroundStation.withSlotID gsn k).
Proof.
  intros Hok Hdata H. unfold Satellite.processFrame in H.
  destruct (Validate frame) eqn:EV; [discriminate H|].
  destruct (bytes_eqb (Data frame) (list_byte_of_string "GET_CURRENT_SLOT")) eqn:EB.
  { apply bytes_eqb_eq in EB. contradiction. }
  destruct (GetGlobalSlotID now Scheduler.DefaultSlotDuration Scheduler.DefaultTotalSlots)
    as [c|] eqn:EG; [|discriminate H].
  destruct (SlotID frame =? c) eqn:ES; cbn [negb] in H; [|discriminate H].
  apply Z.eqb_eq in ES. subst c.
  destruct (Scheduler.AllocateTimeSlot (Satellite.scheduler sn) (GetNodeID frame) 1 now')
    as [[[k [e|]] sch]|] eqn:EA; [discriminate H| |discriminate H].
  pose proof (formatInt_length k) as Hl.
  destruct (NewTDMAFrame_wire k (Satellite.nodeID sn)
              (list_byte_of_string "ACK_SLOT_" ++ formatInt k)) as [S _].
  { rewrite len_app. change (len (list_byte_of_string "ACK_SLOT_")) with 9. lia. }
  rewrite S in H. injection H as <- <-.
  destruct (AllocateTimeSlot_outcome _ _ _ _ _ _ Hok EA)
    as (pre & post & st & E & _ & Hst & [Hn Hs] & _).
  assert (Hk : k ∈ seqZ 0 (Scheduler.totalSlots (Satellite.scheduler sn)))
    by (rewrite E; apply elem_of_app; right; left).
  apply elem_of_seqZ in Hk. destruct Hok as [_ k2 _].
  exists k. split; [reflexivity|]. split; [reflexivity|]. split; [lia|].
  split; [|split; [reflexivity|]].
  - cbn [Satellite.withScheduler Satellite.scheduler].
    rewrite GetSchedule_lookup, Hst, Hs. cbn. rewrite Hn. reflexivity.
  - apply receive_ack. lia.
Qed.

Lemma ack_makes_station_adopt_slot_witness :
  exists bytes sn',
    Satellite.processFrame (Satellite.NewSatelliteNode "SATELLITE_001" 0)
      (NewTDMAFrame 3 "GS1" [x41]) (TDMA_EPOCH + 3000000000) 5
      = Some (Some bytes, sn') /\
    GroundStation.receive (GroundStation.NewGroundStationNode "GS1") bytes
      = Some (GroundStation.withSlotID (GroundStation.NewGroundStationNode "GS1") 0).
Proof.
  set (sn := Satellite.NewSatelliteNode "SATELLITE_001" 0).
  set (f := NewTDMAFrame 3 "GS1" [x41]).
  destruct (Satellite.processFrame sn f (TDMA_EPOCH + 3000000000) 5)
    as [[[bytes|] sn']|] eqn:EP; try (vm_compute in EP; discriminate EP).
  assert (Hok : Scheduler.sched_ok (Satellite.scheduler sn)).
  { apply NewTDMAScheduler_ok. lia. }
  assert (Hd : Data f <> list_byte_of_string "GET_CURRENT_SLOT") by discriminate.
  destruct (ack_makes_station_adopt_slot sn f _ _ bytes sn'
              (GroundStation.NewGroundStationNode "GS1") Hok Hd EP)
    as (k & _ & _ & Hk & Hsch & _ & Hr).
  exists bytes, sn'. split; [reflexivity|]. rewrite Hr.
  assert (Ek : k = 0).
  { unfold Satellite.processFrame in EP. vm_compute in EP.
    injection EP as <- <-. vm_compute in Hsch.
    destruct (decide (k = 0)) as [->|Hne]; [reflexivity|].
    assert (Hc : k = 1 \/ k = 2 \/ k = 3 \/ k = 4 \/ k = 5 \/ k = 6 \/ k = 7 \/ k = 8 \/ k = 9).
    { change (Scheduler.totalSlots (Satellite.scheduler sn)) with 10 in Hk. lia. }
    destruct Hc as [->|[->|[->|[->|[->|[->|[->|[->| ->]]]]]]]];
      vm_compute in Hsch; discriminate Hsch. }
  rewrite Ek. reflexivity.
Defined.


(** X19. A slot query is answered with the global slot.  When a connected
    ground station calls [GetCurrentSlot] and the connection delivers its
    request to the satellite's [processFrame] and the satellite's answer
    back, the call returns, without error, the global slot that
    [GetGlobalSlotID] gives at the satellite (a number strictly between -10
    and 10, negative only before the epoch), and the satellite, its
    scheduler included, is left as it was. *)
Theorem slot_query_returns_global_slot gsn sn now now' :
  GroundStation.connected gsn = true ->
  exists c,
    GetGlobalSlotID now Scheduler.DefaultSlotDuration Scheduler.DefaultTotalSlots = Some c /\
    -10 < c < 10 /\
    GroundStation.GetCurrentSlot gsn
      (fun request =>
         match DeserializeTDMAFrame request with
         | Ok f =>
             match Satellite.processFrame sn f now now' with
             | Some (Some response, _) => GroundStation.Reads response
             | _ => GroundStation.ReadFails
             end
         | _ => GroundStation.ReadFails
         end) = Ok c /\
    (exists response,
       Satellite.processFrame sn
         (NewTDMAFrame 0 (GroundStation.nodeID gsn) (list_byte_of_string "GET_CURRENT_SLOT"))
         now now' = Some (Some response, sn)).
Proof.
  intros Hc. destruct (GetGlobalSlotID_default now) as (c & EG & Hr & _).
  exists c. split; [exact EG|]. split; [exact Hr|].
  pose proof (formatInt_length c) as Hl.
  destruct (NewTDMAFrame_wire 0 (GroundStation.nodeID gsn)
              (list_byte_of_string "GET_CURRENT_SLOT")) as [S1 D1].
  { vm_compute. reflexivity. }
  change (uint32 0) with 0 in S1, D1.
  destruct (NewTDMAFrame_wire c (Satellite.nodeID sn)
              (list_byte_of_string "CURRENT_SLOT_" ++ formatInt c)) as [S2 D2].
  { rewrite len_app. change (len (list_byte_of_string "CURRENT_SLOT_")) with 13. lia. }
  assert (P : Satellite.processFrame sn
                (NewTDMAFrame 0 (GroundStation.nodeID gsn)
                   (list_byte_of_string "GET_CURRENT_SLOT")) now now'
              = Some (Some (encode (NewTDMAFrame (uint32 c) (Satellite.nodeID sn)
                                      (list_byte_of_string "CURRENT_SLOT_" ++ formatInt c))),
                      sn)).
  { unfold Satellite.processFrame. rewrite NewTDMAFrame_valid.
    cbn [Data NewTDMAFrame withCRC].
    change (bytes_eqb (list_byte_of_string "GET_CURRENT_SLOT")
                      (list_byte_of_string "GET_CURRENT_SLOT")) with true.
    cbv iota. rewrite EG, S2. reflexivity. }
  split; [|eexists; exact P].
  unfold GroundStation.GetCurrentSlot. rewrite Hc. cbn [negb].
  rewrite S1, D1, P, D2. cbn [Data NewTDMAFrame withCRC].
  rewrite HasPrefix_app, TrimPrefix_app. cbn [negb].
  rewrite Atoi_formatInt by lia. reflexivity.
Qed.

Lemma slot_query_returns_global_slot_witness :
  GroundStation.GetCurrentSlot (GroundStation.mkStation "GS1" true (-1))
    (fun request =>
       match DeserializeTDMAFrame request with
       | Ok f =>
           match Satellite.processFrame (Satellite.NewSatelliteNode "SATELLITE_001" 0) f
                   (TDMA_EPOCH + 13500000000) 0 with
           | Some (Some response, _) => GroundStation.Reads response
           | _ => GroundStation.ReadFails
           end
       | _ => GroundStation.ReadFails
       end) = Ok 3.
Proof.
  destruct (slot_query_returns_global_slot (GroundStation.mkStation "GS1" true (-1))
              (Satellite.NewSatelliteNode "SATELLITE_001" 0)
              (TDMA_EPOCH + 13500000000) 0 eq_refl)
    as (c & EG & _ & Hq & _).
  rewrite Hq. vm_compute in EG. injection EG as <-. reflexivity.
Defined.

(** X20. A station that transmits is heard.  [SendDefaultData] sends only
    when the global slot is the station's own slot.  When it sends, for a
    station whose slot is not negative, the bytes written deserialize to a
    frame that passes [Validate] and carries that slot; and a satellite
    that handles the frame while the global slot is still the same does not
    drop it: it asks its scheduler for a slot for the node id of the frame,
    and when the scheduler grants one it writes an acknowledgement. *)
Theorem station_frame_is_admitted gsn sn now now1 now2 now3 bytes :
  0 <= GroundStation.slotID gsn ->
  len (list_byte_of_string (GroundStation.nodeID gsn)) < 2 ^ 31 ->
  GroundStation.SendDefaultData gsn now now1 false = Ok (Some bytes) ->
  GetGlobalSlotID now2 Scheduler.DefaultSlotDuration Scheduler.DefaultTotalSlots
    = GetGlobalSlotID now Scheduler.DefaultSlotDuration Scheduler.DefaultTotalSlots ->
  exists f,
    GetGlobalSlotID now Scheduler.DefaultSlotDuration Scheduler.DefaultTotalSlots
      = Some (GroundStation.slotID gsn) /\
    DeserializeTDMAFrame bytes = Ok f /\
    Validate f = None /\
    SlotID f = GroundStation.slotID gsn /\
    GetNodeID f
      = string_of_list_byte
          (trimRightByte x00 (firstn 32 (list_byte_of_string (GroundStation.nodeID gsn)))) /\
    (forall r sch,
       Scheduler.AllocateTimeSlot (Satellite.scheduler sn) (GetNodeID f) 1 now3
         = Some (r, sch) ->
       exists out,
         Satellite.processFrame sn f now2 now3
           = Some (out, Satellite.withScheduler sn sch) /\
         (snd r = None -> exists ack, out = Some ack)).
Proof.
  intros Hslot Hid H Hsame. unfold GroundStation.SendDefaultData in H.
  destruct (GetGlobalSlotID_default now) as (c & EG & Hr & _).
  rewrite EG in H, Hsame.
  destruct (c =? GroundStation.slotID gsn) eqn:Ec; cbn [negb] in H; [|discriminate H].
  apply Z.eqb_eq in Ec. subst c.
  set (data := list_byte_of_string "DEFAULT_DATA_FROM_"
                 ++ list_byte_of_string (GroundStation.nodeID gsn)
                 ++ list_byte_of_string "_" ++ formatInt (now1 / 1000000000)) in *.
  assert (Hlen : len data < 2 ^ 32).
  { subst data. rewrite !len_app.
    change (len (list_byte_of_string "DEFAULT_DATA_FROM_")) with 18.
    change (len (list_byte_of_string "_")) with 1.
    pose proof (formatInt_length (now1 / 1000000000)). lia. }
  destruct (NewTDMAFrame_wire (GroundStation.slotID gsn) (GroundStation.nodeID gsn) data Hlen)
    as [S D].
  unfold GroundStation.SendFrame in H.
  destruct (negb (GroundStation.connected gsn)); [discriminate H|].
  rewrite S in H. injection H as <-.
  rewrite (uint32_small (GroundStation.slotID gsn)) in D by lia.
  exists (NewTDMAFrame (GroundStation.slotID gsn) (GroundStation.nodeID gsn) data).
  split; [exact EG|]. split; [rewrite uint32_small by lia; exact D|].
  split; [apply NewTDMAFrame_valid|]. split; [reflexivity|].
  split; [apply GetNodeID_NewTDMAFrame|].
  intros r sch EA. unfold Satellite.processFrame.
  rewrite NewTDMAFrame_valid. cbn [Data SlotID NewTDMAFrame withCRC].
  assert (EB : bytes_eqb data (list_byte_of_string "GET_CURRENT_SLOT") = false)
    by reflexivity.
  rewrite EB, Hsame, Z.eqb_refl. cbn [negb].
  unfold GetNodeID in EA |- *. cbn [NodeID NewTDMAFrame withCRC] in EA |- *.
  rewrite EA. destruct r as [k [e|]].
  - eexists. split; [reflexivity|]. intros C. discriminate C.
  - pose proof (formatInt_length k) as Hl.
    destruct (NewTDMAFrame_wire k (Satellite.nodeID sn)
                (list_byte_of_string "ACK_SLOT_" ++ formatInt k)) as [S2 _].
    { rewrite len_app. change (len (list_byte_of_string "ACK_SLOT_")) with 9. lia. }
    rewrite S2. eexists. split; [reflexivity|]. intros _. eexists. reflexivity.
Qed.

Lemma station_frame_is_admitted_witness :
  exists bytes f,
    GroundStation.SendDefaultData (GroundStation.mkStation "GS1" true 3)
      (TDMA_EPOCH + 3200000000) (TDMA_EPOCH + 3200000001) false = Ok (Some bytes) /\
    DeserializeTDMAFrame bytes = Ok f /\ SlotID f = 3.
Proof.
  set (gsn := GroundStation.mkStation "GS1" true 3).
  destruct (GroundStation.SendDefaultData gsn (TDMA_EPOCH + 3200000000)
              (TDMA_EPOCH + 3200000001) false) as [[bytes|]|e|] eqn:ES;
    try (vm_compute in ES; discriminate ES).
  destruct (station_frame_is_admitted gsn (Satellite.NewSatelliteNode "SATELLITE_001" 0)
              (TDMA_EPOCH + 3200000000) (TDMA_EPOCH + 3200000001)
              (TDMA_EPOCH + 3900000000) (TDMA_EPOCH + 3900000001) bytes)
    as (f & _ & Hd & _ & Hs & _).
  - cbn. lia.
  - vm_compute. reflexivity.
  - exact ES.
  - vm_compute. reflexivity.
  - exists bytes, f. split; [reflexivity|]. split; [exact Hd|exact Hs].
Defined.

End NodeProps.

Module LinkFacts.
Import Go Protocol Wire GoFacts CodecFacts CodecProps ValidateProps FrameFacts TextFacts.
Import DecodeProps NodeFacts.

Lemma Read_slice {E : Type} size delivered :
  @slice E (fst (Read size delivered)) 0 (snd (Read size delivered))
  = Ok (firstn size delivered).
Proof.
  unfold Read. cbn [fst snd].
  assert (Hl : (length (firstn size delivered) <= size)%nat)
    by (rewrite length_firstn; lia).
  rewrite copy_into_zeros by exact Hl.
  rewrite slice_ok; [|unfold len; lia|unfold len; rewrite length_app; lia].
  f_equal. rewrite Z.sub_0_r. change (Z.to_nat 0) with 0%nat. rewrite skipn_O.
  apply firstn_app_len. unfold len. lia.
Qed.

Lemma Read_header delivered :
  length (fst (Read 8 delivered)) = 8%nat /\
  (snd (Read 8 delivered) = 8 -> fst (Read 8 delivered) = firstn 8 delivered).
Proof.
  unfold Read. cbn [fst snd]. split.
  - rewrite copy_length. reflexivity.
  - unfold len. intros H. apply copy_zeros. lia.
Qed.

(** The first eight bytes of an encoded frame are its header. *)
Lemma firstn_8_encode f :
  length (Header f) = 8%nat -> firstn 8 (encode f) = Header f.
Proof. intros H. unfold encode. apply firstn_app_len. exact H. Qed.

(** A stream is what its first eight bytes and the rest make, as long as the
    rest fits the second buffer. *)
Lemma two_reads (bytes : list byte) :
  firstn 8 bytes ++ firstn 4096 (skipn 8 bytes) = firstn 4104 bytes.
Proof.
  rewrite <- (firstn_skipn 8 (firstn 4104 bytes)).
  rewrite firstn_firstn. change (Init.Nat.min 8 4104) with 8%nat. f_equal.
  rewrite skipn_firstn_comm. reflexivity.
Qed.

Lemma storedLength_encode f :
  frame_typed f -> storedLength (encode f) = Length f.
Proof.
  intros T. unfold storedLength, encode. destruct T.
  rewrite (skipn_app_len (Header f) _ 8 36) by assumption.
  rewrite (skipn_app_len (be32 (SlotID f)) _ 4 32) by apply be32_length.
  rewrite (skipn_app_exact (NodeID f) _ 32) by assumption.
  apply u32_of_be32. assumption.
Qed.

(** What two reads make of a constructed frame that arrives whole. *)
Lemma arrives_whole slotID nodeID data :
  len data <= 4034 ->
  DeserializeTDMAFrame
    (firstn 8 (encode (NewTDMAFrame (uint32 slotID) nodeID data))
       ++ firstn 4096 (skipn 8 (encode (NewTDMAFrame (uint32 slotID) nodeID data))))
  = Ok (NewTDMAFrame (uint32 slotID) nodeID data).
Proof.
  intros Hd. rewrite two_reads.
  pose proof (NewTDMAFrame_typed (uint32 slotID) nodeID data (uint32_range slotID)) as T.
  pose proof (encode_length (NewTDMAFrame (uint32 slotID) nodeID data)
                (ty_Header _ T) (ty_NodeID _ T) (ty_Footer _ T)) as HL.
  cbn [Data NewTDMAFrame withCRC] in HL.
  rewrite firstn_all2 by (unfold len in HL, Hd; lia).
  apply NewTDMAFrame_wire. lia.
Qed.

End LinkFacts.

Module LinkProps.
Import Go Protocol Wire GoFacts CodecFacts CodecProps ValidateProps FrameFacts TextFacts.
Import DecodeProps SchedulerFacts AllocateProps SweepFacts AllocateMore NodeFacts LinkFacts.

(** X21. [ReceiveFrame] has a payload limit that [SendFrame] does not have.
    Whatever the two reads deliver, a frame returned by [ReceiveFrame]
    passes [Validate] and has at most 4034 payload bytes.  On a connection
    that delivers the bytes of a constructed frame whole (eight bytes to the
    first read, the rest to the second), [ReceiveFrame] returns the frame
    when its payload has at most 4034 bytes, and the error for a length
    mismatch when it has more: the second buffer holds 4096 bytes. *)
Theorem ReceiveFrame_payload_limit ni slotID nodeID data :
  Network.connected ni = true -> len data < 2 ^ 32 ->
  (forall read1 read2 f,
     Network.ReceiveFrame ni read1 read2 = Ok f ->
     Validate f = None /\ len (Data f) <= 4034) /\
  (forall bytes,
     Network.SendFrame ni (NewTDMAFrame (uint32 slotID) nodeID data) false = Ok bytes ->
     Network.ReceiveFrame ni (Some bytes) (Some (skipn 8 bytes))
     = if len data <=? 4034 then Ok (NewTDMAFrame (uint32 slotID) nodeID data)
       else Err (Network.ErrDeserialize ErrLengthMismatch)).
Proof.
  intros Hc Hd. split.
  - intros read1 read2 f. unfold Network.ReceiveFrame. rewrite Hc. cbn [negb].
    destruct read1 as [d1|]; [|discriminate].
    destruct (negb (bytes_eqb (fst (Read 8 d1)) FRAME_HEADER)); [discriminate|].
    destruct read2 as [d2|]; [|discriminate].
    pose proof (@Read_slice Network.NetError 4096 d2) as RS.
    destruct (Read 4096 d2) as [buffer n]. cbn [fst snd] in RS. rewrite RS.
    destruct (DeserializeTDMAFrame (fst (Read 8 d1) ++ firstn 4096 d2)) as [g|e|] eqn:ED;
      [|discriminate|discriminate].
    destruct (Validate g) eqn:EV; [discriminate|].
    intros [= <-]. split; [exact EV|].
    apply Deserialize_Ok in ED. destruct ED as (_ & H2 & ->).
    destruct (parse_typed _ H2) as [_ <-].
    assert (Hlen : len (fst (Read 8 d1) ++ firstn 4096 d2) <= 4104).
    { unfold len. rewrite length_app, (proj1 (Read_header d1)), length_firstn. lia. }
    pose proof (storedLength_range (fst (Read 8 d1) ++ firstn 4096 d2)) as R.
    cbn [Length parse]. lia.
  - intros bytes. unfold Network.SendFrame. rewrite Hc. cbn [negb].
    destruct (NewTDMAFrame_wire slotID nodeID data Hd) as [S D]. rewrite S.
    intros [= <-]. unfold Network.ReceiveFrame. rewrite Hc. cbn [negb].
    pose proof (NewTDMAFrame_typed (uint32 slotID) nodeID data (uint32_range slotID)) as T.
    set (F := NewTDMAFrame (uint32 slotID) nodeID data) in *.
    pose proof (encode_length F (ty_Header _ T) (ty_NodeID _ T) (ty_Footer _ T)) as HL.
    assert (H8 : snd (Read 8 (encode F)) = 8).
    { unfold Read, len. cbn [snd]. rewrite length_firstn. unfold len in HL. lia. }
    rewrite (proj2 (Read_header (encode F)) H8).
    rewrite (firstn_8_encode F (ty_Header _ T)).
    change (bytes_eqb (Header F) FRAME_HEADER) with true. cbn [negb].
    pose proof (@Read_slice Network.NetError 4096 (skipn 8 (encode F))) as RS.
    destruct (Read 4096 (skipn 8 (encode F))) as [buffer n]. cbn [fst snd] in RS.
    rewrite RS. rewrite <- (firstn_8_encode F (ty_Header _ T)) at 1.
    destruct (Z.leb_spec (len data) 4034) as [Hle|Hgt].
    + subst F. rewrite arrives_whole by exact Hle.
      rewrite NewTDMAFrame_valid. reflexivity.
    + rewrite two_reads, Deserialize_cases.
      pose proof (len_nonneg data) as Hn.
      assert (Hlen : len (firstn 4104 (encode F)) = 4104).
      { unfold len in *. rewrite length_firstn.
        change (Data F) with data in HL. lia. }
      assert (Hst : storedLength (firstn 4104 (encode F)) = len data).
      { rewrite <- (storedLength_app (firstn 4104 (encode F)) (skipn 4104 (encode F)))
          by lia.
        rewrite firstn_skipn, (storedLength_encode F T).
        subst F. cbn [Length NewTDMAFrame withCRC]. apply uint32_small. lia. }
      rewrite Hlen, Hst.
      destruct (4104 <? 60) eqn:E1; [lia|].
      destruct (4104 <? 58 + len data + 12) eqn:E2; [reflexivity|lia].
Qed.

Lemma ReceiveFrame_payload_limit_witness :
  exists bytes,
    Network.SendFrame (Network.mkInterface "sat:8080" true 5000000000 10000000000)
      (NewTDMAFrame 3 "GS1" [x41; x42]) false = Ok bytes /\
    Network.ReceiveFrame (Network.mkInterface "sat:8080" true 5000000000 10000000000)
      (Some bytes) (Some (skipn 8 bytes)) = Ok (NewTDMAFrame 3 "GS1" [x41; x42]).
Proof.
  set (ni := Network.mkInterface "sat:8080" true 5000000000 10000000000).
  destruct (Network.SendFrame ni (NewTDMAFrame 3 "GS1" [x41; x42]) false)
    as [bytes|e|] eqn:ES; try (vm_compute in ES; discriminate ES).
  exists bytes. split; [reflexivity|].
  exact (proj2 (ReceiveFrame_payload_limit ni 3 "GS1" [x41; x42] eq_refl
                  ltac:(vm_compute; reflexivity)) bytes ES).
Defined.

(** X22. The handshake, end to end.  A ground station whose slot is the
    global slot sends its default data; the satellite's connection loop
    reads the bytes in its two reads, while the global slot is still the
    same, and its scheduler grants slot [k] to the station's node id.  Then
    the loop goes on after writing an acknowledgement, the satellite keeps
    the scheduler state of the grant, and the station's receive loop, given
    that acknowledgement, sets the station's slot to [k]. *)
Theorem handshake_end_to_end gsn sn now now1 now2 now3 bytes k sch :
  Scheduler.sched_ok (Satellite.scheduler sn) ->
  0 <= GroundStation.slotID gsn ->
  len (list_byte_of_string (GroundStation.nodeID gsn)) <= 3994 ->
  GroundStation.SendDefaultData gsn now now1 false = Ok (Some bytes) ->
  GetGlobalSlotID now2 Scheduler.DefaultSlotDuration Scheduler.DefaultTotalSlots
    = GetGlobalSlotID now Scheduler.DefaultSlotDuration Scheduler.DefaultTotalSlots ->
  Scheduler.AllocateTimeSlot (Satellite.scheduler sn)
    (string_of_list_byte
       (trimRightByte x00 (firstn 32 (list_byte_of_string (GroundStation.nodeID gsn)))))
    1 now3 = Some ((k, None), sch) ->
  exists ack,
    Satellite.handleConnection1 sn (Some bytes) (Some (skipn 8 bytes)) now2 now3
      = Some (Satellite.Continue (Some ack) (Satellite.withScheduler sn sch)) /\
    GroundStation.receive gsn ack = Some (GroundStation.withSlotID gsn k).
Proof.
  intros Hok Hslot Hid H Hsame EA. unfold GroundStation.SendDefaultData in H.
  destruct (GetGlobalSlotID_default now) as (c & EG & Hr & _).
  rewrite EG in H, Hsame.
  destruct (c =? GroundStation.slotID gsn) eqn:Ec; cbn [negb] in H; [|discriminate H].
  apply Z.eqb_eq in Ec. subst c.
  set (data := list_byte_of_string "DEFAULT_DATA_FROM_"
                 ++ list_byte_of_string (GroundStation.nodeID gsn)
                 ++ list_byte_of_string "_" ++ formatInt (now1 / 1000000000)) in *.
  assert (Hlen : len data <= 4034).
  { subst data. rewrite !len_app.
    change (len (list_byte_of_string "DEFAULT_DATA_FROM_")) with 18.
    change (len (list_byte_of_string "_")) with 1.
    pose proof (formatInt_length (now1 / 1000000000)). lia. }
  destruct (NewTDMAFrame_wire (GroundStation.slotID gsn) (GroundStation.nodeID gsn) data)
    as [S _]; [lia|].
  unfold GroundStation.SendFrame in H.
  destruct (negb (GroundStation.connected gsn)); [discriminate H|].
  rewrite S in H. injection H as <-.
  pose proof (NewTDMAFrame_typed (uint32 (GroundStation.slotID gsn))
                (GroundStation.nodeID gsn) data (uint32_range _)) as T.
  set (F := NewTDMAFrame (uint32 (GroundStation.slotID gsn)) (GroundStation.nodeID gsn) data)
    in *.
  pose proof (encode_length F (ty_Header _ T) (ty_NodeID _ T) (ty_Footer _ T)) as HL.
  pose proof (formatInt_length k) as Hl.
  destruct (NewTDMAFrame_wire k (Satellite.nodeID sn)
              (list_byte_of_string "ACK_SLOT_" ++ formatInt k)) as [S2 _].
  { rewrite len_app. change (len (list_byte_of_string "ACK_SLOT_")) with 9. lia. }
  destruct (AllocateTimeSlot_outcome _ _ _ _ _ _ Hok EA) as (pre & post & st & E & _).
  assert (Hk : k ∈ seqZ 0 (Scheduler.totalSlots (Satellite.scheduler sn)))
    by (rewrite E; apply elem_of_app; right; left).
  apply elem_of_seqZ in Hk. destruct Hok as [_ k2 _].
  eexists. split; [|apply (receive_ack gsn k k (Satellite.nodeID sn)); lia].
  unfold Satellite.handleConnection1.
  assert (H8 : snd (Read 8 (encode F)) = 8).
  { unfold Read, len. cbn [snd]. rewrite length_firstn. unfold len in HL. lia. }
  pose proof (proj2 (Read_header (encode F)) H8) as RH.
  destruct (Read 8 (encode F)) as [head nRead]. cbn [fst snd] in H8, RH. subst head nRead.
  change (8 =? 8) with true. cbn [negb].
  rewrite (firstn_8_encode F (ty_Header _ T)).
  change (bytes_eqb (Header F) FRAME_HEADER) with true. cbn [negb].
  pose proof (@Read_slice FrameError 4096 (skipn 8 (encode F))) as RS.
  destruct (Read 4096 (skipn 8 (encode F))) as [buffer n]. cbn [fst snd] in RS.
  rewrite RS. rewrite <- (firstn_8_encode F (ty_Header _ T)) at 1.
  subst F. rewrite arrives_whole by exact Hlen.
  unfold Satellite.processFrame. rewrite NewTDMAFrame_valid.
  cbn [Data SlotID NewTDMAFrame withCRC].
  assert (EB : bytes_eqb data (list_byte_of_string "GET_CURRENT_SLOT") = false)
    by reflexivity.
  rewrite EB, Hsame, (uint32_small (GroundStation.slotID gsn)), Z.eqb_refl by lia.
  cbn [negb]. rewrite GetNodeID_NewTDMAFrame, EA, S2. reflexivity.
Qed.

Lemma handshake_end_to_end_witness :
  exists bytes ack sn',
    GroundStation.SendDefaultData (GroundStation.mkStation "GS1" true 3)
      (TDMA_EPOCH + 3200000000) (TDMA_EPOCH + 3200000001) false = Ok (Some bytes) /\
    Satellite.handleConnection1 (Satellite.NewSatelliteNode "SATELLITE_001" 0)
      (Some bytes) (Some (skipn 8 bytes)) (TDMA_EPOCH + 3900000000) (TDMA_EPOCH + 3900000001)
      = Some (Satellite.Continue (Some ack) sn') /\
    GroundStation.receive (GroundStation.mkStation "GS1" true 3) ack
      = Some (GroundStation.mkStation "GS1" true 0).
Proof.
  set (gsn := GroundStation.mkStation "GS1" true 3).
  set (sn := Satellite.NewSatelliteNode "SATELLITE_001" 0).
  destruct (GroundStation.SendDefaultData gsn (TDMA_EPOCH + 3200000000)
              (TDMA_EPOCH + 3200000001) false) as [[bytes|]|e|] eqn:ES;
    try (vm_compute in ES; discriminate ES).
  assert (EA : Scheduler.AllocateTimeSlot (Satellite.scheduler sn)
                 (string_of_list_byte
                    (trimRightByte x00
                       (firstn 32 (list_byte_of_string (GroundStation.nodeID gsn)))))
                 1 (TDMA_EPOCH + 3900000001)
               = Some ((0, None),
                       Scheduler.stateOf
                         (Scheduler.AllocateTimeSlot (Satellite.scheduler sn) "GS1" 1
                            (TDMA_EPOCH + 3900000001))
                         (Satellite.scheduler sn)))
    by (vm_compute; reflexivity).
  destruct (handshake_end_to_end gsn sn (TDMA_EPOCH + 3200000000) (TDMA_EPOCH + 3200000001)
              (TDMA_EPOCH + 3900000000) (TDMA_EPOCH + 3900000001) bytes 0 _
              (proj1 (NewTDMAScheduler_ok 10 (1 * 1000000000) 0 ltac:(lia)))
              ltac:(cbn; lia) ltac:(vm_compute; discriminate) ES
              ltac:(vm_compute; reflexivity) EA)
    as (ack & Hh & Hr).
  eexists bytes, ack, _. split; [reflexivity|]. split; [exact Hh|exact Hr].
Defined.

End LinkProps.
